(** * docker_demo: the namespace launcher and rootfs assembler

    A shallow embedding of the Go program that assembles a container root
    filesystem from image layers (overlay mount, pseudo-filesystems, volume
    bind, pivot_root) inside fresh namespaces, and the properties of its
    mount sequence, error propagation and argument handling.

    The program talks to the operating system all the time.  Every such call
    is an entry of a trace, and what the system answers is taken from a
    [World]: a function of the calls made so far and of the call at hand. *)

From Stdlib Require Import String Ascii List ZArith Lia Bool Arith DecimalString.
Import ListNotations.
Local Open Scope list_scope.
Local Open Scope string_scope.

Set Implicit Arguments.

(** ** Go's [strings] package (the functions the program uses) *)

Module strings.

(** [strings.Split(s, sep)] for a one-byte separator: all the pieces, one
    more than there are separators. *)
Fixpoint Split (s : string) (sep : ascii) : list string :=
  match s with
  | EmptyString => [EmptyString]
  | String c rest =>
      if Ascii.eqb c sep then EmptyString :: Split rest sep
      else match Split rest sep with
           | hd :: tl => String c hd :: tl
           | [] => [String c EmptyString]
           end
  end.

(** [strings.SplitN(s, sep, 2)] for a one-byte separator: cut at the first
    separator only. *)
Fixpoint SplitN2 (s : string) (sep : ascii) : list string :=
  match s with
  | EmptyString => [EmptyString]
  | String c rest =>
      if Ascii.eqb c sep then [EmptyString; rest]
      else match SplitN2 rest sep with
           | hd :: tl => String c hd :: tl
           | [] => [String c EmptyString]
           end
  end.

(** [strings.Join(elems, sep)]. *)
Fixpoint Join (elems : list string) (sep : string) : string :=
  match elems with
  | [] => ""
  | [e] => e
  | e :: rest => e ++ sep ++ Join rest sep
  end.

(** [strings.Contains(s, string(c))]. *)
Fixpoint ContainsByte (s : string) (c : ascii) : bool :=
  match s with
  | EmptyString => false
  | String d rest => Ascii.eqb d c || ContainsByte rest c
  end.

End strings.

(** ** Go's [path/filepath] package on Linux *)

Module filepath.

(** One path element of [Clean]'s loop, on the stack of the elements kept
    so far (the last one kept first).  An empty element and [.] are
    dropped; [..] removes the last kept element when there is one that is
    not itself [..], is dropped at the root, and is kept otherwise. *)
Definition clean_step (rooted : bool) (stack : list string) (elem : string)
  : list string :=
  if String.eqb elem "" || String.eqb elem "." then stack
  else if String.eqb elem ".." then
    match stack with
    | top :: below => if String.eqb top ".." then ".." :: stack else below
    | [] => if rooted then [] else [".."]
    end
  else elem :: stack.

Definition is_rooted (path : string) : bool :=
  match path with
  | String c _ => Ascii.eqb c "/"
  | EmptyString => false
  end.

(** [filepath.Clean(path)]. *)
Definition Clean (path : string) : string :=
  if String.eqb path "" then "."
  else
    let rooted := is_rooted path in
    let kept := fold_left (clean_step rooted) (strings.Split path "/") [] in
    let out := (if rooted then "/" else "") ++ strings.Join (rev kept) "/" in
    if String.eqb out "" then "." else out.

(** [filepath.Join(elem...)]: the elements from the first non-empty one on,
    joined with slashes and cleaned; the empty string when all are empty. *)
Fixpoint Join (elem : list string) : string :=
  match elem with
  | [] => ""
  | e :: rest =>
      if String.eqb e "" then Join rest
      else Clean (strings.Join elem "/")
  end.

End filepath.

(** ** Errors *)

Inductive Errno := ENOENT | EEXIST | EACCES | EPERM | EINVAL | EBUSY | ENOTDIR | ENODEV | EIO.

(** The signals that end a command. *)
Inductive Signal :=
  SIGHUP | SIGINT | SIGQUIT | SIGABRT | SIGKILL | SIGSEGV | SIGPIPE | SIGTERM.

(** The error values the program sees: those of the Go library, and the two
    constructors of [github.com/pkg/errors] it uses. *)
Inductive error :=
| PathError (op path : string) (e : Errno)   (* *fs.PathError: os.Open, os.Stat, os.MkdirAll, os.Chdir *)
| SyscallError (name : string) (e : Errno)   (* *os.SyscallError: os.Setenv *)
| ErrnoError (e : Errno)                     (* syscall.Errno: syscall.PivotRoot *)
| ExitError (code : Z)                       (* *exec.ExitError: the command exited with a status *)
| ExitSignal (sig : Signal) (core : bool)    (* *exec.ExitError: a signal ended the command *)
| ExecError (name : string)                  (* *exec.Error: the executable was not found *)
| DecodeError (msg : string)                 (* encoding/json *)
| Errorf (msg : string)                      (* errors.Errorf *)
| Wrap (cause : error) (msg : string).       (* errors.Wrap, errors.Wrapf *)

Definition errno_text (e : Errno) : string :=
  match e with
  | ENOENT => "no such file or directory"
  | EEXIST => "file exists"
  | EACCES => "permission denied"
  | EPERM => "operation not permitted"
  | EINVAL => "invalid argument"
  | EBUSY => "device or resource busy"
  | ENOTDIR => "not a directory"
  | ENODEV => "no such device"
  | EIO => "input/output error"
  end.

(** [syscall.Signal.String()] on Linux. *)
Definition signal_text (sig : Signal) : string :=
  match sig with
  | SIGHUP => "hangup"
  | SIGINT => "interrupt"
  | SIGQUIT => "quit"
  | SIGABRT => "aborted"
  | SIGKILL => "killed"
  | SIGSEGV => "segmentation fault"
  | SIGPIPE => "broken pipe"
  | SIGTERM => "terminated"
  end.

Module strconv.

Definition doubleQuote : ascii := ascii_of_nat 34.
Definition backslash : ascii := ascii_of_nat 92.

Definition hex_digit (n : nat) : ascii :=
  nth n (list_ascii_of_string "0123456789abcdef") "0"%char.

(** One byte as [strconv.Quote] writes it: the double quote and the
    backslash after a backslash, a control character by its escape, and
    every other byte as it is (printable ASCII, and the bytes of printable
    UTF-8 text). *)
Definition quote_byte (c : ascii) : string :=
  let n := nat_of_ascii c in
  let escape (x : string) := String backslash x in
  if Nat.eqb n 34 || Nat.eqb n 92 then escape (String c EmptyString)
  else if Nat.eqb n 7 then escape "a"
  else if Nat.eqb n 8 then escape "b"
  else if Nat.eqb n 12 then escape "f"
  else if Nat.eqb n 10 then escape "n"
  else if Nat.eqb n 13 then escape "r"
  else if Nat.eqb n 9 then escape "t"
  else if Nat.eqb n 11 then escape "v"
  else if Nat.ltb n 32 || Nat.eqb n 127 then
    escape (String "x"%char
              (String (hex_digit (n / 16)) (String (hex_digit (n mod 16)) EmptyString)))
  else String c EmptyString.

Fixpoint quote_bytes (s : string) : string :=
  match s with
  | EmptyString => EmptyString
  | String c rest => quote_byte c ++ quote_bytes rest
  end.

(** [strconv.Quote(s)]: [s] between double quotes, escaped. *)
Definition Quote (s : string) : string :=
  String doubleQuote (quote_bytes s ++ String doubleQuote EmptyString).

End strconv.

(** [err.Error()].  An [*exec.ExitError] prints the state of the process:
    its exit status, or the signal that ended it and whether it dumped
    core; an [*exec.Error] prints the name of the command quoted. *)
Fixpoint Error (err : error) : string :=
  match err with
  | PathError op path e => op ++ " " ++ path ++ ": " ++ errno_text e
  | SyscallError name e => name ++ ": " ++ errno_text e
  | ErrnoError e => errno_text e
  | ExitError code => "exit status " ++ NilZero.string_of_int (Z.to_int code)
  | ExitSignal sig core =>
      "signal: " ++ signal_text sig ++ (if core then " (core dumped)" else "")
  | ExecError name =>
      "exec: " ++ strconv.Quote name ++ ": executable file not found in $PATH"
  | DecodeError msg => msg
  | Errorf msg => msg
  | Wrap cause msg => msg ++ ": " ++ Error cause
  end.

(** [os.IsNotExist(err)]: looks through the library's own wrappers, not
    through [errors.Wrap]. *)
Definition IsNotExist (err : option error) : bool :=
  match err with
  | Some (PathError _ _ ENOENT) => true
  | Some (SyscallError _ ENOENT) => true
  | Some (ErrnoError ENOENT) => true
  | _ => false
  end.

(** ** Data model *)

Record Layer := { Digest : string; MediaType : string; Size : Z }.
Record Manifest := { Layers : list Layer }.
Record SubConfigStruct := { Env : list string }.
Record Config := { config : SubConfigStruct }.

(** The three standard streams of the running process. *)
Inductive File := Stdin | Stdout | Stderr.

(** [exec.Cmd], the fields the program sets.  A stream left [nil] is
    [None]. *)
Record Cmd := {
  Path : string;
  Args : list string;
  cmd_Stdin : option File;
  cmd_Stdout : option File;
  cmd_Stderr : option File;
  Cloneflags : Z
}.

(** [exec.Command(name, arg...)].  The path is the name as given; looking
    it up in [$PATH] is left to the system. *)
Definition Command (name : string) (arg : list string) : Cmd :=
  {| Path := name; Args := name :: arg;
     cmd_Stdin := None; cmd_Stdout := None; cmd_Stderr := None;
     Cloneflags := 0 |}.

(** Linux clone flags of package [syscall]. *)
Definition CLONE_NEWNS : Z := 0x00020000.
Definition CLONE_NEWUTS : Z := 0x04000000.
Definition CLONE_NEWIPC : Z := 0x08000000.
Definition CLONE_NEWPID : Z := 0x20000000.
Definition CLONE_NEWNET : Z := 0x40000000.

(** ** The operating system as seen by the program *)

(** The calls the program makes to the system and to the terminal.  Closing
    a file is not recorded. *)
Inductive Call :=
| Open (name : string)                 (* os.Open; the reply carries the contents *)
| MkdirAll (path : string)             (* os.MkdirAll(path, os.ModePerm) *)
| Stat (name : string)                 (* os.Stat *)
| Chdir (dir : string)                 (* os.Chdir *)
| PivotRoot (newroot putold : string)  (* syscall.PivotRoot *)
| Setenv (key value : string)          (* os.Setenv *)
| CombinedOutput (c : Cmd)             (* cmd.CombinedOutput() *)
| Run (c : Cmd)                        (* cmd.Run(): start and wait *)
| Print (text : string).               (* fmt.Println, fmt.Printf *)

(** What a call gives back: the bytes (a file's contents, a command's
    combined output) and the error, [None] for Go's [nil]. *)
Record Reply := { output : string; err : option error }.

(** An entry of the trace: a call and what it gave back. *)
Record Event := { call : Call; reply : Reply }.

(** The system: what it answers to a call depends on the call and on
    everything that happened before. *)
Definition World := list Event -> Call -> Reply.

Definition done : Reply := {| output := ""; err := None |}.
Definition failed (e : error) : Reply := {| output := ""; err := Some e |}.

(** The process environment, as the list of its bindings. *)
Definition Environ := list (string * string).

Fixpoint env_set (env : Environ) (key value : string) : Environ :=
  match env with
  | [] => [(key, value)]
  | (k, v) :: rest =>
      if String.eqb k key then (key, value) :: rest
      else (k, v) :: env_set rest key value
  end.

Fixpoint env_get (env : Environ) (key : string) : option string :=
  match env with
  | [] => None
  | (k, v) :: rest => if String.eqb k key then Some v else env_get rest key
  end.

Record State := { trace : list Event; environ : Environ }.

(** How a piece of the program ends: it returns, it panics, or it calls
    [os.Exit]. *)
Inductive Outcome (A : Type) :=
| Return (a : A)
| Panic (msg : string)
| Exit (code : Z).
Arguments Panic {A} msg.
Arguments Exit {A} code.

Definition M (A : Type) := State -> Outcome A * State.

Definition ret {A} (a : A) : M A := fun s => (Return a, s).

Definition bind {A B} (m : M A) (k : A -> M B) : M B :=
  fun s =>
    match m s with
    | (Return a, s') => k a s'
    | (Panic msg, s') => (Panic msg, s')
    | (Exit code, s') => (Exit code, s')
    end.

Definition panic {A} (msg : string) : M A := fun s => (Panic msg, s).
Definition os_Exit {A} (code : Z) : M A := fun s => (Exit code, s).

Declare Scope go_scope.
Delimit Scope go_scope with go.
Notation "x <- m ;; k" := (bind m (fun x => k))
  (at level 100, m at next level, right associativity) : go_scope.
Notation "m ;;; k" := (bind m (fun _ => k))
  (at level 100, right associativity) : go_scope.
Local Open Scope go_scope.

Definition log (s : State) (c : Call) (r : Reply) : State :=
  {| trace := trace s ++ [{| call := c; reply := r |}]; environ := environ s |}.

(** [xs[i]] on a slice of strings. *)
Definition nat_text (n : nat) : string := NilZero.string_of_uint (Nat.to_uint n).

Definition index (xs : list string) (i : nat) : M string :=
  match nth_error xs i with
  | Some x => ret x
  | None =>
      panic ("runtime error: index out of range [" ++ nat_text i
             ++ "] with length " ++ nat_text (length xs))
  end.

(** [fmt.Println] of its operands already formatted, and the format of a
    slice of strings under [%v]. *)
Definition newline : string := String (ascii_of_nat 10) EmptyString.

Definition show_slice (xs : list string) : string :=
  "[" ++ strings.Join xs " " ++ "]".

Definition Println (operands : list string) : M unit :=
  fun s => (Return tt, log s (Print (strings.Join operands " " ++ newline)) done).

Definition Printf (text : string) : M unit :=
  fun s => (Return tt, log s (Print text) done).

(** [syscall.Setenv]'s check of its arguments. *)
Definition NUL : ascii := ascii_of_nat 0.

Definition setenv_valid (key value : string) : bool :=
  negb (String.eqb key "")
  && negb (strings.ContainsByte key "=")
  && negb (strings.ContainsByte key NUL)
  && negb (strings.ContainsByte value NUL).

(** [os.Setenv(key, value)]. *)
Definition os_Setenv (key value : string) : M (option error) :=
  fun s =>
    if setenv_valid key value then
      (Return None,
       {| trace := trace s ++ [{| call := Setenv key value; reply := done |}];
          environ := env_set (environ s) key value |})
    else
      let e := SyscallError "setenv" EINVAL in
      (Return (Some e), log s (Setenv key value) (failed e)).

(** ** The program *)

Section Program.

(** What the operating system answers, and the two JSON decoders
    ([json.NewDecoder(file).Decode]) applied to a file's contents. *)
Variable os : World.
Variable decodeConfig : string -> error + Config.
Variable decodeManifest : string -> error + Manifest.

(** One call to the operating system: the answer is the world's, and the
    call is recorded with it. *)
Definition syscall (c : Call) : M Reply :=
  fun s => let r := os (trace s) c in (Return r, log s c r).

Definition loadConfig (configPath : string) : M (list string * option error) :=
  file <- syscall (Open configPath) ;;
  match err file with
  | Some e => ret ([], Some e)
  | None =>
      match decodeConfig (output file) with
      | inl e => ret ([], Some e)
      | inr cfg => ret (Env (config cfg), None)
      end
  end.

Definition loadManifest (manifestPath : string) : M (list Layer * option error) :=
  file <- syscall (Open manifestPath) ;;
  match err file with
  | Some e => ret ([], Some e)
  | None =>
      match decodeManifest (output file) with
      | inl e => ret ([], Some e)
      | inr manifest => ret (Layers manifest, None)
      end
  end.

(** The pattern of every external command of the program: run it, and on
    failure wrap the error with the command's output. *)
Definition run_tool (label : string) (name : string) (arg : list string)
  : M (option error) :=
  r <- syscall (CombinedOutput (Command name arg)) ;;
  match err r with
  | Some e => ret (Some (Wrap e (label ++ " output: " ++ output r)))
  | None => ret None
  end.

Definition mountRecPrivate : M (option error) :=
  Println ["mounting recursive private: mount --make-rprivate /"] ;;;
  run_tool "mount" "mount" ["--make-rprivate"; "/"].

(** The body of the [for _, e := range envVars] loop of [setEnv]. *)
Fixpoint setEnv_loop (envVars : list string) : M (option error) :=
  match envVars with
  | [] => ret None
  | e :: rest =>
      let parts := strings.SplitN2 e "=" in
      if negb (length parts =? 2)%nat then
        ret (Some (Errorf ("无效的环境变量: " ++ e)))
      else
        key <- index parts 0 ;;
        value <- index parts 1 ;;
        r <- os_Setenv key value ;;
        match r with
        | Some e' => ret (Some (Wrap e' "设置环境变量时出错"))
        | None => setEnv_loop rest
        end
  end.

Definition setEnv (configPath : string) : M (option error) :=
  loaded <- loadConfig configPath ;;
  let (envVars, e) := loaded in
  match e with
  | Some e' => ret (Some (Wrap e' "读取 config.json 时出错"))
  | None =>
      Println ["setting env vars:"; show_slice envVars] ;;;
      setEnv_loop envVars
  end.

Definition mountTmpfs (targetDir : string) : M (option error) :=
  Println ["mounting tmpfs filesystem: mount -t tmpfs tmpfs"; targetDir] ;;;
  run_tool "mount" "mount" ["-t"; "tmpfs"; "tmpfs"; targetDir].

(** The [for _, dir := range dirs] loop of [prepareDirs]. *)
Fixpoint prepareDirs_loop (dirs : list string) : M (option error) :=
  match dirs with
  | [] => ret None
  | dir :: rest =>
      r <- syscall (MkdirAll dir) ;;
      match err r with
      | Some e => ret (Some (Wrap e ("创建 " ++ dir ++ " 目录时出错")))
      | None => prepareDirs_loop rest
      end
  end.

Definition prepareDirs (baseDir : string) (dirs : list string) : M (option error) :=
  r <- syscall (MkdirAll baseDir) ;;
  match err r with
  | Some e => ret (Some (Wrap e "创建 base 目录时出错"))
  | None =>
      e <- mountTmpfs baseDir ;;
      match e with
      | Some e' => ret (Some (Wrap e' "挂载 tmpfs 时出错"))
      | None =>
          Println ["making dirs: mkdir -pv"; show_slice dirs] ;;;
          prepareDirs_loop dirs
      end
  end.

Definition mountOverlayFS (lowerDirs : list string) (upperDir workDir targetDir : string)
  : M (option error) :=
  let lowerdir := strings.Join lowerDirs ":" in
  let options := "lowerdir=" ++ lowerdir ++ ",upperdir=" ++ upperDir
                 ++ ",workdir=" ++ workDir in
  Println ["mounting overlay filesystem: mount -t overlay overlay -o"; options; targetDir] ;;;
  run_tool "mount" "mount" ["-t"; "overlay"; "overlay"; "-o"; options; targetDir].

Definition layersRoot : string := "/tmp/proxy_pool/layers".

(** The loop [for i := len(layers) - 1; i >= 0; i--] of [setLayers]; [n] is
    [i + 1], so the loop ends at [n = 0]. *)
Fixpoint setLayers_loop (layers : list Layer) (n : nat) (lowerDirs : list string)
  : M (list string) :=
  match n with
  | O => ret lowerDirs
  | S i =>
      match nth_error layers i with
      | None => panic "runtime error: index out of range"
      | Some layer =>
          hex <- index (strings.Split (Digest layer) ":") 1 ;;
          let layerPath := filepath.Join [layersRoot; hex] in
          setLayers_loop layers i (lowerDirs ++ [layerPath])%list
      end
  end.

Definition setLayers (manifestPath baseDir targetDir : string) : M (option error) :=
  loaded <- loadManifest manifestPath ;;
  let (layers, e) := loaded in
  match e with
  | Some e' => ret (Some (Wrap e' "读取 manifest.json 时出错"))
  | None =>
      let upperDir := filepath.Join [baseDir; "upper"] in
      let workDir := filepath.Join [baseDir; "work"] in
      (* the error prepareDirs returns is not looked at *)
      prepareDirs baseDir [upperDir; workDir; targetDir] ;;;
      lowerDirs <- setLayers_loop layers (length layers) [] ;;
      e2 <- mountOverlayFS lowerDirs upperDir workDir targetDir ;;
      match e2 with
      | Some e' => ret (Some (Wrap e' "挂载 overlay 文件系统时出错"))
      | None => ret None
      end
  end.

(** One mount of [mountBaseFs]: the announcement, the command, and the
    rest of the function when the command succeeds. *)
Definition base_mount (what fstype source target : string)
           (rest : M (option error)) : M (option error) :=
  Println ["mounting " ++ what ++ " filesystem: mount -t " ++ fstype ++ " " ++ source; target] ;;;
  e <- run_tool "mount" "mount" ["-t"; fstype; source; target] ;;
  match e with
  | Some e' => ret (Some e')
  | None => rest
  end.

Definition mountBaseFs (targetDir : string) : M (option error) :=
  base_mount "proc" "proc" "none" (filepath.Join [targetDir; "proc"])
  (base_mount "sys" "sysfs" "none" (filepath.Join [targetDir; "sys"])
  (base_mount "dev" "devtmpfs" "devtmpfs" (filepath.Join [targetDir; "dev"])
  (base_mount "devpts" "devpts" "devpts" (filepath.Join [targetDir; "dev/pts"])
  (base_mount "shm" "tmpfs" "shm" (filepath.Join [targetDir; "dev/shm"])
  (base_mount "run" "tmpfs" "tmpfs" (filepath.Join [targetDir; "run"])
  (base_mount "tmp" "tmpfs" "tmpfs" (filepath.Join [targetDir; "tmp"])
  (ret None))))))).

Definition mountVolume (volumeDir targetDir : string) : M (option error) :=
  st <- syscall (Stat volumeDir) ;;
  if IsNotExist (err st) then
    match err st with
    | Some e => ret (Some (Wrap e "volume 目录不存在"))
    | None => ret None
    end
  else
    let targetVolumeDir := filepath.Join [targetDir; "volume"] in
    r <- syscall (MkdirAll targetVolumeDir) ;;
    match err r with
    | Some e => ret (Some (Wrap e "创建 volume 目录时出错"))
    | None =>
        Println ["mounting volume filesystem: mount --bind"; volumeDir; targetVolumeDir] ;;;
        run_tool "mount" "mount" ["--bind"; volumeDir; targetVolumeDir]
    end.

Definition chroot (targetDir : string) : M (option error) :=
  Println ["change current dir :"; "cd"; targetDir] ;;;
  r <- syscall (Chdir targetDir) ;;
  match err r with
  | Some e => ret (Some (Wrap e "chdir 时出错"))
  | None =>
      Println ["change rootfs: pivot_root . ."] ;;;
      p <- syscall (PivotRoot "." ".") ;;
      match err p with
      | Some e => ret (Some (Wrap e "pivot_root 时出错"))
      | None =>
          Println ["unmounting old root: umount -l ."] ;;;
          run_tool "umount" "umount" ["-l"; "."]
      end
  end.

(** The command [runInNamespace] builds. *)
Definition namespaceCmd (configPath manifestPath baseDir volumeDir : string) : Cmd :=
  let cmd := Command "/proc/self/exe"
               (["child"] ++ [configPath; manifestPath; baseDir; volumeDir])%list in
  {| Path := Path cmd; Args := Args cmd;
     cmd_Stdin := Some Stdin; cmd_Stdout := Some Stdout; cmd_Stderr := Some Stderr;
     Cloneflags :=
       Z.lor (Z.lor (Z.lor (Z.lor CLONE_NEWUTS CLONE_NEWIPC) CLONE_NEWNET) CLONE_NEWNS)
             CLONE_NEWPID |}.

Definition runInNamespace (configPath manifestPath baseDir volumeDir : string)
  : M (option error) :=
  r <- syscall (Run (namespaceCmd configPath manifestPath baseDir volumeDir)) ;;
  ret (err r).

(** The shell [childProcess] ends in. *)
Definition shellCmd : Cmd :=
  let cmd := Command "/bin/sh" [] in
  {| Path := Path cmd; Args := Args cmd;
     cmd_Stdin := Some Stdin; cmd_Stdout := Some Stdout; cmd_Stderr := Some Stderr;
     Cloneflags := Cloneflags cmd |}.

Definition childProcess (configPath manifestPath baseDir volumeDir : string) : M unit :=
  e1 <- mountRecPrivate ;;
  match e1 with
  | Some e => Printf ("mountRecPrivate 时出错: " ++ Error e ++ newline)
  | None =>
  e2 <- setEnv configPath ;;
  match e2 with
  | Some e => Printf ("设置环境变量时出错: " ++ Error e ++ newline)
  | None =>
  let targetDir := filepath.Join [baseDir; "merged"] in
  e3 <- setLayers manifestPath baseDir targetDir ;;
  match e3 with
  | Some e => Printf ("设置 layers 时出错: " ++ Error e ++ newline)
  | None =>
  e4 <- mountBaseFs targetDir ;;
  match e4 with
  | Some e => Printf ("挂载基础文件系统时出错: " ++ Error e ++ newline)
  | None =>
  e5 <- mountVolume volumeDir targetDir ;;
  match e5 with
  | Some e => Printf ("挂载 volume 时出错: " ++ Error e ++ newline)
  | None =>
  e6 <- chroot targetDir ;;
  match e6 with
  | Some e => Printf ("chroot 时出错: " ++ Error e ++ newline)
  | None =>
  r <- syscall (Run shellCmd) ;;
  match err r with
  | Some e => Printf ("运行 /bin/sh 时出错: " ++ Error e ++ newline)
  | None => ret tt
  end
  end end end end end end.

(** [main], on [os.Args] (the program's name first). *)
Definition main (Args : list string) : M unit :=
  if (1 <? length Args)%nat && String.eqb (nth 1 Args "") "child" then
    if negb (length Args =? 6)%nat then
      Println ["Invalid number of arguments for child process"] ;;;
      os_Exit 1
    else
      childProcess (nth 2 Args "") (nth 3 Args "") (nth 4 Args "") (nth 5 Args "")
  else
    let configPath := "/tmp/proxy_pool/config.json" in
    let manifestPath := "/tmp/proxy_pool/manifest.json" in
    let baseDir := "/tmp/proxy_pool/overlay" in
    let volumeDir := "/tmp/proxy_pool/volume" in
    r <- syscall (MkdirAll volumeDir) ;;
    match err r with
    | Some e => Printf ("创建 volume 目录时出错: " ++ Error e ++ newline)
    | None =>
        e <- runInNamespace configPath manifestPath baseDir volumeDir ;;
        match e with
        | Some e' => Printf ("在 namespace 和 chroot 环境中运行时出错: " ++ Error e' ++ newline)
        | None => ret tt
        end
    end.

End Program.

Unset Implicit Arguments.

(** ** The vocabulary of the properties *)

(** A path element [Clean] keeps as it is. *)
Definition plainElem (e : string) : Prop :=
  strings.ContainsByte e "/" = false /\ e <> "" /\ e <> "." /\ e <> "..".

(** The stacks [Clean]'s loop goes through: plain elements on top of
    [..] elements, and no [..] in a rooted path. *)
Inductive cleanStack (rooted : bool) : list string -> Prop :=
| cs_dots stack :
    Forall (eq "..") stack -> (rooted = true -> stack = []) -> cleanStack rooted stack
| cs_plain e stack :
    plainElem e -> cleanStack rooted stack -> cleanStack rooted (e :: stack).

(** The path of a stack. *)
Definition render (rooted : bool) (stack : list string) : string :=
  (if rooted then "/" else "") ++ strings.Join (rev stack) "/".

(** The digest-to-path resolution of [setLayers]: the second piece of the
    digest cut at its colons, under the layer cache root. *)
Definition hexOf (digest : string) : string := nth 1 (strings.Split digest ":") "".

Definition layerPath (layer : Layer) : string :=
  filepath.Join [layersRoot; hexOf (Digest layer)].

Definition wellFormed (layer : Layer) : bool := strings.ContainsByte (Digest layer) ":".

Definition outOfRange : string := "runtime error: index out of range [1] with length 1".

(** [emits P m]: from every state, [m] only appends to the trace, and only
    calls that satisfy [P]. *)
Definition emits {A} (P : Call -> Prop) (m : M A) : Prop :=
  forall s, exists evs,
    trace (snd (m s)) = (trace s ++ evs)%list /\ Forall (fun e => P (call e)) evs.

(** The calls of each function, by kind. *)
Definition isSetenv (c : Call) : Prop := match c with Setenv _ _ => True | _ => False end.
Definition isMkdirAll (c : Call) : Prop := match c with MkdirAll _ => True | _ => False end.

(** The external commands with captured output, and [pivot_root]: all the
    mount operations of the program. *)
Definition isMountOp (c : Call) : bool :=
  match c with
  | CombinedOutput _ | PivotRoot _ _ => true
  | _ => false
  end.

Definition isRun (c : Call) : bool := match c with Run _ => true | _ => false end.

(** A [mount -t fstype ...] command. *)
Definition isMountOf (fstype : string) (c : Call) : bool :=
  match c with
  | CombinedOutput cmd =>
      match Args cmd with
      | name :: flag :: type :: _ =>
          String.eqb name "mount" && String.eqb flag "-t" && String.eqb type fstype
      | _ => false
      end
  | _ => false
  end.

(** [returns m]: [m] neither panics nor exits. *)
Definition returns {A} (m : M A) : Prop :=
  forall s, exists a s', m s = (Return a, s').

Definition overlayMount (lowerDirs : list string) (upperDir workDir targetDir : string)
  : Call :=
  CombinedOutput
    (Command "mount"
       ["-t"; "overlay"; "overlay"; "-o";
        "lowerdir=" ++ strings.Join lowerDirs ":" ++ ",upperdir=" ++ upperDir
          ++ ",workdir=" ++ workDir;
        targetDir]).

(** *** Systems and inputs of concrete runs *)

(** A manifest of two layers, base first. *)
Definition demoLayers : list Layer :=
  [ {| Digest := "sha256:0a1b"; MediaType := "application/vnd.oci.image.layer.v1.tar+gzip"; Size := 10 |};
    {| Digest := "sha256:2c3d"; MediaType := "application/vnd.oci.image.layer.v1.tar+gzip"; Size := 20 |} ].

(** A manifest whose second layer has a digest without a colon. *)
Definition brokenLayers : list Layer :=
  [ {| Digest := "sha256:0a1b"; MediaType := ""; Size := 10 |};
    {| Digest := "2c3d"; MediaType := ""; Size := 20 |} ].

Definition demoDecodeManifest (content : string) : error + Manifest :=
  if String.eqb content "broken" then inr {| Layers := brokenLayers |}
  else inr {| Layers := demoLayers |}.

Definition demoDecodeConfig (content : string) : error + Config :=
  inr {| config := {| Env := ["PATH=/bin:/usr/bin"; "HOME=/root"] |} |}.

(** A system in which every call succeeds; a file's contents are its name. *)
Definition okWorld : World :=
  fun _ c =>
    match c with
    | Open name => {| output := name; err := None |}
    | _ => done
    end.

(** The same system, except that the directory [/c/overlay] cannot be
    created. *)
Definition noBaseDirWorld : World :=
  fun tr c =>
    match c with
    | MkdirAll path =>
        if String.eqb path "/c/overlay" then failed (PathError "mkdir" path EACCES)
        else done
    | _ => okWorld tr c
    end.

(** The same system as [okWorld], except that the tmpfs cannot be mounted on
    [/c/overlay]. *)
Definition noTmpfsWorld : World :=
  fun tr c =>
    match c with
    | CombinedOutput cmd =>
        if isMountOf "tmpfs" c && String.eqb (nth 4 (Args cmd) "") "/c/overlay" then
          {| output := "mount: /c/overlay: permission denied.";
             err := Some (ExitError 32) |}
        else done
    | _ => okWorld tr c
    end.

(** The same system as [okWorld], except that the path [/c/volume] does not
    exist. *)
Definition noVolumeWorld : World :=
  fun tr c =>
    match c with
    | Stat name =>
        if String.eqb name "/c/volume" then failed (PathError "stat" name ENOENT)
        else done
    | _ => okWorld tr c
    end.

Definition start : State := {| trace := []; environ := [] |}.

Definition envKey (e : string) : string := nth 0 (strings.SplitN2 e "=") "".
Definition envValue (e : string) : string := nth 1 (strings.SplitN2 e "=") "".

(** An entry [setEnv] can apply: it has an equals sign, and [os.Setenv]
    accepts its two sides. *)
Definition applicable (e : string) : bool :=
  strings.ContainsByte e "=" && setenv_valid (envKey e) (envValue e).

(** The state after one applied entry. *)
Definition applyEntry (s : State) (e : string) : State :=
  {| trace := trace s ++ [{| call := Setenv (envKey e) (envValue e); reply := done |}];
     environ := env_set (environ s) (envKey e) (envValue e) |}.

Definition invalidEntry (e : string) : error := Errorf ("无效的环境变量: " ++ e).

Definition malformedConfig (content : string) : error + Config :=
  inr {| config := {| Env := ["PATH=/bin"; "HOME=/root"; "BROKEN"; "TERM=xterm"] |} |}.

(** [errors.Cause]: the error under the wrappings. *)
Fixpoint Cause (e : error) : error :=
  match e with
  | Wrap cause _ => Cause cause
  | _ => e
  end.

Definition bindMount (volumeDir targetVolumeDir : string) : Call :=
  CombinedOutput (Command "mount" ["--bind"; volumeDir; targetVolumeDir]).

(** The bit positions of the five namespace flags. *)
Definition namespaceBits : list Z := [17; 26; 27; 29; 30]%Z.

Definition childSentinel : string := "child".

Inductive Stage := RPrivate | SetEnv | SetLayers | BaseFs | Volume | Chroot.

Section StageDefs.

Variable os : World.
Variable decodeConfig : string -> error + Config.
Variable decodeManifest : string -> error + Manifest.
Variables configPath manifestPath baseDir volumeDir : string.

(** What [childProcess] calls at each stage. *)
Definition stageAction (st : Stage) : M (option error) :=
  let targetDir := filepath.Join [baseDir; "merged"] in
  match st with
  | RPrivate => mountRecPrivate os
  | SetEnv => setEnv os decodeConfig configPath
  | SetLayers => setLayers os decodeManifest manifestPath baseDir targetDir
  | BaseFs => mountBaseFs os targetDir
  | Volume => mountVolume os volumeDir targetDir
  | Chroot => chroot os targetDir
  end.

(** What [childProcess] prints before the error of a failed stage. *)
Definition stageLabel (st : Stage) : string :=
  match st with
  | RPrivate => "mountRecPrivate 时出错: "
  | SetEnv => "设置环境变量时出错: "
  | SetLayers => "设置 layers 时出错: "
  | BaseFs => "挂载基础文件系统时出错: "
  | Volume => "挂载 volume 时出错: "
  | Chroot => "chroot 时出错: "
  end.

Definition allStages : list Stage := [RPrivate; SetEnv; SetLayers; BaseFs; Volume; Chroot].

Definition stagesBefore (st : Stage) : list Stage :=
  match st with
  | RPrivate => []
  | SetEnv => [RPrivate]
  | SetLayers => [RPrivate; SetEnv]
  | BaseFs => [RPrivate; SetEnv; SetLayers]
  | Volume => [RPrivate; SetEnv; SetLayers; BaseFs]
  | Chroot => [RPrivate; SetEnv; SetLayers; BaseFs; Volume]
  end.

(** The stages of the list, run one after the other from [s], all return
    without an error and leave the state [s']. *)
Fixpoint stagesSucceed (stages : list Stage) (s s' : State) : Prop :=
  match stages with
  | [] => s' = s
  | st :: rest =>
      exists s1, stageAction st s = (Return None, s1) /\ stagesSucceed rest s1 s'
  end.

(** The state the stages of the list leave, run one after the other. *)
Fixpoint runStages (stages : list Stage) (s : State) : State :=
  match stages with
  | [] => s
  | st :: rest => runStages rest (snd (stageAction st s))
  end.

(** The end of [childProcess], after the six stages: the shell. *)
Definition runShell : M unit :=
  r <- syscall os (Run shellCmd) ;;
  match err r with
  | Some e => Printf ("运行 /bin/sh 时出错: " ++ Error e ++ newline)
  | None => ret tt
  end.

End StageDefs.

(** The mount operations of a trace, in order. *)
Definition mountCalls (tr : list Event) : list Call := filter isMountOp (map call tr).

(** A call answered without an error. *)
Definition answered (ev : Event) : Prop := err (reply ev) = None.

(** Every creation of the directory in the trace went through. *)
Definition created (dir : string) (tr : list Event) : Prop :=
  Forall (fun ev => call ev = MkdirAll dir -> answered ev) tr.

Definition mountCmd (arg : list string) : Call := CombinedOutput (Command "mount" arg).

(** The mount operations the specification lists, for the layers of the
    manifest. *)
Definition expectedMounts (baseDir volumeDir : string) (layers : list Layer) : list Call :=
  let merged := filepath.Join [baseDir; "merged"] in
  [ mountCmd ["--make-rprivate"; "/"];
    mountCmd ["-t"; "tmpfs"; "tmpfs"; baseDir];
    overlayMount (map layerPath (rev layers))
      (filepath.Join [baseDir; "upper"]) (filepath.Join [baseDir; "work"]) merged;
    mountCmd ["-t"; "proc"; "none"; merged ++ "/proc"];
    mountCmd ["-t"; "sysfs"; "none"; merged ++ "/sys"];
    mountCmd ["-t"; "devtmpfs"; "devtmpfs"; merged ++ "/dev"];
    mountCmd ["-t"; "devpts"; "devpts"; merged ++ "/dev/pts"];
    mountCmd ["-t"; "tmpfs"; "shm"; merged ++ "/dev/shm"];
    mountCmd ["-t"; "tmpfs"; "tmpfs"; merged ++ "/run"];
    mountCmd ["-t"; "tmpfs"; "tmpfs"; merged ++ "/tmp"];
    bindMount volumeDir (merged ++ "/volume");
    PivotRoot "." ".";
    CombinedOutput (Command "umount" ["-l"; "."]) ].

Definition demoChild : State -> Outcome unit * State :=
  childProcess okWorld demoDecodeConfig demoDecodeManifest
    "/c/config.json" "/c/manifest.json" "/c/overlay" "/c/volume".

Definition demoStagesDone : State :=
  runStages okWorld demoDecodeConfig demoDecodeManifest
    "/c/config.json" "/c/manifest.json" "/c/overlay" "/c/volume" allStages start.

(** ** More vocabulary: plans, orders, the converter *)

Definition isPrintCall (c : Call) : bool := match c with Print _ => true | _ => false end.

(** The events of a trace that are not prints. *)
Definition systemEvents (tr : list Event) : list Event :=
  filter (fun ev => negb (isPrintCall (call ev))) tr.

(** What a run that fails fast on a plan looks like: the calls made are the
    first calls of the plan, in order; all but the last were answered without
    an error; the result is [nil] exactly when the whole plan was carried
    out without an error; and an error returned has the error of the last
    call as its cause. *)
Definition failsFast (plan : list Call) (evs : list Event) (result : option error) : Prop :=
  let made := systemEvents evs in
  map call made = firstn (length made) plan
  /\ Forall answered (removelast made)
  /\ (result = None <-> map call made = plan /\ Forall answered made)
  /\ (forall e, result = Some e ->
        exists before ev e0,
          made = (before ++ [ev])%list /\ err (reply ev) = Some e0 /\ Cause e = Cause e0).

(** [m] carries out the plan, failing fast, from every state; it leaves the
    environment alone, and neither panics nor exits. *)
Definition followsPlan (plan : list Call) (m : M (option error)) : Prop :=
  forall s, exists result evs,
    m s = (Return result, {| trace := trace s ++ evs; environ := environ s |})
    /\ failsFast plan evs result.

Definition notSetenv (c : Call) : Prop := isSetenv c -> False.

(** A descriptor that cannot be read: the file cannot be opened, or its
    contents cannot be decoded. *)
Definition unreadable {A} (decode : string -> error + A) (r : Reply) (e : error) : Prop :=
  err r = Some e \/ (err r = None /\ decode (output r) = inl e).

(** [keepsEnv m]: [m] leaves the environment as it finds it. *)
Definition keepsEnv {A} (m : M A) : Prop := forall s, environ (snd (m s)) = environ s.

(** The environment after the entries of a list are applied in order. *)
Definition applyEnv (envVars : list string) (env : Environ) : Environ :=
  fold_left (fun env e => env_set env (envKey e) (envValue e)) envVars env.

(** ** Go's [path] package *)

Module path.

(** The loop of [path.Join] over its elements: [buf] is the text so far. *)
Fixpoint join_loop (buf : string) (elem : list string) : string :=
  match elem with
  | [] => buf
  | e :: rest =>
      if negb (String.eqb buf "") || negb (String.eqb e "") then
        join_loop ((if negb (String.eqb buf "") then buf ++ "/" else buf) ++ e) rest
      else join_loop buf rest
  end.

(** [path.Join(elem...)]; [path.Clean] is [filepath.Clean] on Linux. *)
Definition Join (elem : list string) : string :=
  if (fold_left (fun size e => size + String.length e) elem 0 =? 0)%nat then ""
  else filepath.Clean (join_loop "" elem).

End path.

(** The part of [filepath.Dir]'s argument it cleans: up to the last slash,
    the slash included. *)
Fixpoint dirPrefix (p : string) : string :=
  match p with
  | EmptyString => ""
  | String c rest =>
      if strings.ContainsByte rest "/" then String c (dirPrefix rest)
      else if Ascii.eqb c "/" then "/" else ""
  end.

(** [filepath.Dir(path)] on Linux. *)
Definition filepath_Dir (p : string) : string := filepath.Clean (dirPrefix p).

Definition tailText (rest : list string) : string :=
  fold_right (fun e acc => "/" ++ e ++ acc) "" rest.

(** The stack [Clean] has after the base directory. *)
Definition baseRooted (base : string) : bool := filepath.is_rooted base.

Definition baseStack (base : string) : list string :=
  if String.eqb base "" then []
  else fold_left (filepath.clean_step (baseRooted base)) (strings.Split base "/") [].

(** ** The converter: [docker2fs/converter.go] *)

Module docker2fs.

Record ConverterConfig := { Source : string; Path : string }.

(** [v1.Hash]. *)
Record Hash := { Algorithm : string; Hex : string }.

(** [hash.String()]. *)
Definition Hash_String (h : Hash) : string := Algorithm h ++ ":" ++ Hex h.

(** An object of a library the program only hands on: a parsed reference,
    an image, a layer, a stream. *)
Definition Handle := nat.

Record Image := { Ref : Handle; Img : Handle }.

(** The calls of the converter to the registry library and to the system.
    A file is named by the path it was created with.  The deferred [Close]
    of a file or of a stream, whose result the program drops, is not a call
    of the model. *)
Inductive Call :=
| ParseReference (source : string)        (* name.ParseReference *)
| RemoteImage (ref : Handle)              (* remote.Image, default keychain, platform of the program *)
| ImgLayers (img : Handle)                (* image.Layers() *)
| RawManifest (img : Handle)              (* image.RawManifest() *)
| RawConfigFile (img : Handle)            (* image.RawConfigFile() *)
| LayerDigest (layer : Handle)            (* layer.Digest() *)
| LayerCompressed (layer : Handle)        (* layer.Compressed() *)
| DecompressStream (reader : Handle)      (* compression.DecompressStream *)
| MkdirAll (path : string)                (* os.MkdirAll(path, os.ModePerm) *)
| Create (name : string)                  (* os.Create *)
| Write (file : string) (data : string)   (* file.Write *)
| Copy (file : string) (src : Handle)     (* io.Copy(file, src) *)
| RunTar (arg : list string)              (* exec.Command("tar", arg...).Run() *)
| Print (text : string).                  (* fmt.Println *)

(** What a call gives back; each call uses the fields of its result. *)
Record Reply := {
  err : option error;
  handle : Handle;
  handles : list Handle;
  data : string;
  hash : Hash
}.

Record Event := { call : Call; reply : Reply }.

Definition World := list Event -> Call -> Reply.

(** A piece of the converter: from the trace so far to a result and the
    trace after it. *)
Definition C (A : Type) := list Event -> A * list Event.

Definition ret {A} (a : A) : C A := fun tr => (a, tr).

Definition bind {A B} (m : C A) (k : A -> C B) : C B :=
  fun tr => let (a, tr') := m tr in k a tr'.

Declare Scope conv_scope.
Notation "x <- m ;; k" := (bind m (fun x => k))
  (at level 100, m at next level, right associativity) : conv_scope.
Local Open Scope conv_scope.

Section Converter.

Variable os : World.

Definition ask (c : Call) : C Reply :=
  fun tr => let r := os tr c in (r, tr ++ [{| call := c; reply := r |}])%list.

Definition createImage (config : ConverterConfig) : C (error + Image) :=
  ref <- ask (ParseReference (Source config)) ;;
  match err ref with
  | Some e => ret (inl (Wrap e "parse source reference"))
  | None =>
      image <- ask (RemoteImage (handle ref)) ;;
      match err image with
      | Some e => ret (inl (Wrap e "fetch source image"))
      | None => ret (inr {| Ref := handle ref; Img := handle image |})
      end
  end.

Definition extractLayer (config : ConverterConfig) (layer : Handle) : C (option error) :=
  d <- ask (LayerDigest layer) ;;
  match err d with
  | Some e => ret (Some e)
  | None =>
      let layerTarPath := path.Join [Path config; "layers"; Hex (hash d) ++ ".tar"] in
      let extractDir := path.Join [Path config; "layers"; Hex (hash d)] in
      mk <- ask (MkdirAll extractDir) ;;
      match err mk with
      | Some e => ret (Some (Wrap e ("create layer directory " ++ Hash_String (hash d))))
      | None =>
          run <- ask (RunTar ["-xf"; layerTarPath; "-C"; extractDir]) ;;
          match err run with
          | Some e => ret (Some (Wrap e ("extract layer " ++ Hash_String (hash d))))
          | None => ret None
          end
      end
  end.

Definition pullLayer (config : ConverterConfig) (layer : Handle) : C (option error) :=
  d <- ask (LayerDigest layer) ;;
  match err d with
  | Some e => ret (Some e)
  | None =>
      reader <- ask (LayerCompressed layer) ;;
      match err reader with
      | Some e => ret (Some (Wrap e ("layer " ++ Hash_String (hash d) ++ " Compressed")))
      | None =>
          ds <- ask (DecompressStream (handle reader)) ;;
          match err ds with
          | Some e => ret (Some (Wrap e ("decompress layer " ++ Hash_String (hash d))))
          | None =>
              let layerTarPath := path.Join [Path config; "layers"; Hex (hash d) ++ ".tar"] in
              let layerTarDir := filepath_Dir layerTarPath in
              mk <- ask (MkdirAll layerTarDir) ;;
              match err mk with
              | Some e =>
                  ret (Some (Wrap e ("create layer directory " ++ Hash_String (hash d))))
              | None =>
                  file <- ask (Create layerTarPath) ;;
                  match err file with
                  | Some e =>
                      ret (Some (Wrap e ("write layer " ++ Hash_String (hash d)
                                         ++ " create file")))
                  | None =>
                      cp <- ask (Copy layerTarPath (handle ds)) ;;
                      match err cp with
                      | Some e =>
                          ret (Some (Wrap e ("write layer " ++ Hash_String (hash d)
                                             ++ " to file")))
                      | None => ret None
                      end
                  end
              end
          end
      end
  end.

(** The [for _, layer := range layers] loop of [pullLayers]. *)
Fixpoint pullLayers_loop (config : ConverterConfig) (layers : list Handle)
  : C (option error) :=
  match layers with
  | [] => ret None
  | layer :: rest =>
      e <- pullLayer config layer ;;
      match e with
      | Some e' => ret (Some (Wrap e' "pull image layer"))
      | None =>
          e2 <- extractLayer config layer ;;
          match e2 with
          | Some e' => ret (Some (Wrap e' "extract image layer"))
          | None => pullLayers_loop config rest
          end
      end
  end.

Definition pullLayers (config : ConverterConfig) (image : Image) : C (option error) :=
  layers <- ask (ImgLayers (Img image)) ;;
  match err layers with
  | Some e => ret (Some (Wrap e "get image layers"))
  | None => pullLayers_loop config (handles layers)
  end.

Definition createManifest (config : ConverterConfig) (image : Image) : C (option error) :=
  manifest <- ask (RawManifest (Img image)) ;;
  match err manifest with
  | Some e => ret (Some (Wrap e "get image manifest"))
  | None =>
      let manifestPath := path.Join [Path config; "manifest.json"] in
      file <- ask (Create manifestPath) ;;
      match err file with
      | Some e => ret (Some (Wrap e "create manifest file"))
      | None =>
          w <- ask (Write manifestPath (data manifest)) ;;
          match err w with
          | Some e => ret (Some (Wrap e "write manifest file"))
          | None => ret None
          end
      end
  end.

Definition createConfig (config : ConverterConfig) (image : Image) : C (option error) :=
  configFile <- ask (RawConfigFile (Img image)) ;;
  match err configFile with
  | Some e => ret (Some (Wrap e "get image config"))
  | None =>
      let configPath := path.Join [Path config; "config.json"] in
      file <- ask (Create configPath) ;;
      match err file with
      | Some e => ret (Some (Wrap e "create config file"))
      | None =>
          w <- ask (Write configPath (data configFile)) ;;
          match err w with
          | Some e => ret (Some (Wrap e "write config file"))
          | None => ret None
          end
      end
  end.

(** [convert]; the call of [pullLayers] is commented out in the source. *)
Definition convert (config : ConverterConfig) : C (option error) :=
  created <- createImage config ;;
  match created with
  | inl e => ret (Some e)
  | inr image =>
      e <- createManifest config image ;;
      match e with
      | Some e' => ret (Some e')
      | None =>
          e2 <- createConfig config image ;;
          match e2 with
          | Some e' => ret (Some e')
          | None => ret None
          end
      end
  end.

Definition mainConfig : ConverterConfig :=
  {| Source := "dockerpull.org/tedcy/proxy_pool"; Path := "/tmp/proxy_pool" |}.

Definition main : C unit :=
  e <- convert mainConfig ;;
  match e with
  | Some e' => p <- ask (Print (Error e' ++ newline)) ;; ret tt
  | None => ret tt
  end.

End Converter.

(** *** The vocabulary of the converter's properties *)

(** A call of the converter answered without an error. *)
Definition answered (ev : Event) : Prop := err (reply ev) = None.

(** A run that stops at its first error: every call but the last was
    answered without an error, the result is [nil] exactly when all were,
    and an error returned has the error of the last call as its cause. *)
Definition stopsAtFirstError (evs : list Event) (result : option error) : Prop :=
  Forall answered (removelast evs)
  /\ (result = None <-> Forall answered evs)
  /\ (forall e, result = Some e ->
        exists before ev e0,
          evs = (before ++ [ev])%list /\ err (reply ev) = Some e0 /\ Cause e = Cause e0).

(** [m], from every trace, only appends calls that satisfy [P] and stops at
    its first error. *)
Definition runs (P : Call -> Prop) (m : C (option error)) : Prop :=
  forall tr, exists result evs,
    m tr = (result, (tr ++ evs)%list)
    /\ Forall (fun ev => P (call ev)) evs
    /\ stopsAtFirstError evs result.

(** The calls that concern the two descriptors. *)
Definition descriptorCall (c : Call) : Prop :=
  match c with
  | ParseReference _ | RemoteImage _ | RawManifest _ | RawConfigFile _
  | Create _ | Write _ _ => True
  | _ => False
  end.

Definition anyCall (c : Call) : Prop := True.

Definition event (c : Call) (r : Reply) : Event := {| call := c; reply := r |}.

(** The files created and the archives unpacked, in order. *)
Definition isFileOp (c : Call) : bool :=
  match c with
  | Create _ | RunTar _ => true
  | _ => false
  end.

Definition fileOps (tr : list Event) : list Call := filter isFileOp (map call tr).

(** What is done to the layer of a digest: its archive is created, then
    that archive is unpacked into its directory. *)
Definition layerOps (config : ConverterConfig) (h : Hash) : list Call :=
  let layerTarPath := path.Join [Path config; "layers"; Hex h ++ ".tar"] in
  let extractDir := path.Join [Path config; "layers"; Hex h] in
  [Create layerTarPath; RunTar ["-xf"; layerTarPath; "-C"; extractDir]].

End docker2fs.

(** *** Systems and inputs of more concrete runs *)

(** A system in which no file can be opened. *)
Definition noFileWorld : World :=
  fun _ c =>
    match c with
    | Open name => failed (PathError "open" name ENOENT)
    | _ => done
    end.

(** The digests a registry gives the two layers of an image. *)
Definition demoDigest (layer : docker2fs.Handle) : docker2fs.Hash :=
  {| docker2fs.Algorithm := "sha256";
     docker2fs.Hex := if (layer =? 10)%nat then "0a1b" else "2c3d" |}.

(** A registry and a system in which every call of the converter succeeds:
    the image has the layers 10 and 11. *)
Definition demoRegistry : docker2fs.World :=
  fun _ c =>
    let ok := {| docker2fs.err := None; docker2fs.handle := 0; docker2fs.handles := [];
                 docker2fs.data := ""; docker2fs.hash := demoDigest 0 |} in
    match c with
    | docker2fs.ParseReference source =>
        {| docker2fs.err := None; docker2fs.handle := 1; docker2fs.handles := [];
           docker2fs.data := source; docker2fs.hash := demoDigest 0 |}
    | docker2fs.RemoteImage _ =>
        {| docker2fs.err := None; docker2fs.handle := 2; docker2fs.handles := [];
           docker2fs.data := ""; docker2fs.hash := demoDigest 0 |}
    | docker2fs.ImgLayers _ =>
        {| docker2fs.err := None; docker2fs.handle := 0; docker2fs.handles := [10; 11]%nat;
           docker2fs.data := ""; docker2fs.hash := demoDigest 0 |}
    | docker2fs.RawManifest _ =>
        {| docker2fs.err := None; docker2fs.handle := 0; docker2fs.handles := [];
           docker2fs.data := "manifest bytes"; docker2fs.hash := demoDigest 0 |}
    | docker2fs.RawConfigFile _ =>
        {| docker2fs.err := None; docker2fs.handle := 0; docker2fs.handles := [];
           docker2fs.data := "config bytes"; docker2fs.hash := demoDigest 0 |}
    | docker2fs.LayerDigest layer =>
        {| docker2fs.err := None; docker2fs.handle := 0; docker2fs.handles := [];
           docker2fs.data := ""; docker2fs.hash := demoDigest layer |}
    | _ => ok
    end.

Definition demoConverterConfig : docker2fs.ConverterConfig :=
  {| docker2fs.Source := "registry.example/app"; docker2fs.Path := "/c" |}.

(** ** The text of errors *)

(** The name in an [*exec.Error] is quoted; an [*exec.ExitError] gives the
    exit status or the signal; a wrapper puts its message first. *)
Example Error_examples :
  Error (ExecError "mount")
  = "exec: " ++ String strconv.doubleQuote "mount"
      ++ String strconv.doubleQuote ": executable file not found in $PATH"
  /\ Error (ExitError 32) = "exit status 32"
  /\ Error (ExitSignal SIGKILL false) = "signal: killed"
  /\ Error (ExitSignal SIGSEGV true) = "signal: segmentation fault (core dumped)"
  /\ Error (Wrap (Wrap (ExitError 32) "mount output: denied") "mount failed")
     = "mount failed: mount output: denied: exit status 32"
  /\ strconv.Quote ("a" ++ String strconv.backslash "b" ++ newline)
     = String strconv.doubleQuote
         ("a" ++ String strconv.backslash (String strconv.backslash "b")
              ++ String strconv.backslash "n" ++ String strconv.doubleQuote "").
Proof. vm_compute. repeat split; reflexivity. Qed.

(** ** Facts about the string functions *)

Lemma Split_nonempty (s : string) (sep : ascii) : strings.Split s sep <> [].
Proof.
  destruct s as [|c rest]; simpl; [discriminate|].
  destruct (Ascii.eqb c sep); [discriminate|].
  destruct (strings.Split rest sep); discriminate.
Qed.

(** Without a separator in it, a string splits into itself alone. *)
Lemma Split_no_sep (s : string) (sep : ascii) :
  strings.ContainsByte s sep = false -> strings.Split s sep = [s].
Proof.
  induction s as [|c rest IH]; simpl; intros H; [reflexivity|].
  apply orb_false_iff in H. destruct H as [Hc Hrest].
  rewrite Hc, (IH Hrest). reflexivity.
Qed.

(** With a separator in it, a string splits into two pieces at least. *)
Lemma Split_with_sep (s : string) (sep : ascii) :
  strings.ContainsByte s sep = true ->
  exists first second others, strings.Split s sep = first :: second :: others.
Proof.
  induction s as [|c rest IH]; simpl; intros H; [discriminate|].
  destruct (Ascii.eqb c sep) eqn:Hc.
  - destruct (strings.Split rest sep) as [|x xs] eqn:Hs.
    + exfalso. exact (Split_nonempty _ _ Hs).
    + exists "", x, xs. reflexivity.
  - simpl in H. destruct (IH H) as (a & b & l & Hs). rewrite Hs.
    exists (String c a), b, l. reflexivity.
Qed.

Lemma SplitN2_no_sep (s : string) (sep : ascii) :
  strings.ContainsByte s sep = false -> strings.SplitN2 s sep = [s].
Proof.
  induction s as [|c rest IH]; simpl; intros H; [reflexivity|].
  apply orb_false_iff in H. destruct H as [Hc Hrest].
  rewrite Hc, (IH Hrest). reflexivity.
Qed.

(** With a separator in it, [SplitN2] gives the text before the first
    separator and the text after it. *)
Lemma SplitN2_with_sep (s : string) (sep : ascii) :
  strings.ContainsByte s sep = true ->
  exists key value,
    strings.SplitN2 s sep = [key; value]
    /\ s = key ++ String sep value
    /\ strings.ContainsByte key sep = false.
Proof.
  induction s as [|c rest IH]; simpl; intros H; [discriminate|].
  destruct (Ascii.eqb c sep) eqn:Hc.
  - apply Ascii.eqb_eq in Hc. subst c. exists "", rest. auto.
  - simpl in H. destruct (IH H) as (k & v & Hs & Heq & Hk). rewrite Hs.
    exists (String c k), v. simpl. rewrite Hc, Hk, <- Heq. auto.
Qed.

(** An entry of the environment list is well formed when [SplitN] cuts it in
    two, that is, when it has an equals sign. *)
Lemma SplitN2_length (s : string) (sep : ascii) :
  length (strings.SplitN2 s sep) = 2%nat <-> strings.ContainsByte s sep = true.
Proof.
  split; intros H.
  - destruct (strings.ContainsByte s sep) eqn:Hc; [reflexivity|].
    rewrite (SplitN2_no_sep _ _ Hc) in H. discriminate.
  - destruct (SplitN2_with_sep _ _ H) as (k & v & Hs & _). rewrite Hs. reflexivity.
Qed.

(** ** Paths under the merged directory *)

Lemma append_assoc (a b c : string) : (a ++ b) ++ c = a ++ b ++ c.
Proof. induction a as [|x a IH]; simpl; [reflexivity|]. rewrite IH. reflexivity. Qed.

(** Cutting a string that has a separator in the middle. *)
Lemma Split_app (a b : string) (sep : ascii) :
  strings.Split (a ++ String sep b) sep
  = (strings.Split a sep ++ strings.Split b sep)%list.
Proof.
  induction a as [|c a IH]; simpl.
  - rewrite Ascii.eqb_refl. reflexivity.
  - destruct (Ascii.eqb c sep); rewrite IH; [reflexivity|].
    destruct (strings.Split a sep) as [|h t] eqn:Ha; [|reflexivity].
    exfalso. exact (Split_nonempty _ _ Ha).
Qed.

(** The pieces of a cut hold no separator. *)
Lemma Split_pieces (s : string) (sep : ascii) :
  Forall (fun piece => strings.ContainsByte piece sep = false) (strings.Split s sep).
Proof.
  induction s as [|c s IH]; simpl; [repeat constructor|].
  destruct (Ascii.eqb c sep) eqn:Hc.
  - constructor; [reflexivity|exact IH].
  - destruct (strings.Split s sep) as [|h t]; [repeat constructor; simpl; rewrite Hc; reflexivity|].
    inversion IH as [|? ? Hh Ht]; subst. constructor; [|exact Ht].
    simpl. rewrite Hc, Hh. reflexivity.
Qed.

(** Joining what a cut gave restores the string. *)
Lemma Join_Split (s : string) (sep : ascii) :
  strings.Join (strings.Split s sep) (String sep "") = s.
Proof.
  induction s as [|c s IH]; simpl; [reflexivity|].
  destruct (strings.Split s sep) as [|h t] eqn:Hs; [exfalso; exact (Split_nonempty _ _ Hs)|].
  rewrite <- IH. destruct (Ascii.eqb c sep) eqn:Hc.
  - apply Ascii.eqb_eq in Hc. subst c. reflexivity.
  - destruct t; reflexivity.
Qed.

Lemma Join_app (xs ys : list string) (sep : string) :
  xs <> [] -> ys <> [] ->
  strings.Join (xs ++ ys) sep = strings.Join xs sep ++ sep ++ strings.Join ys sep.
Proof.
  intros Hx Hy. induction xs as [|x xs IH]; [contradiction|].
  destruct xs as [|x2 xs].
  - destruct ys as [|y ys]; [contradiction|]. reflexivity.
  - change ((x :: x2 :: xs) ++ ys)%list with (x :: (x2 :: xs) ++ ys)%list.
    change (strings.Join (x :: (x2 :: xs) ++ ys) sep)
      with (x ++ sep ++ strings.Join ((x2 :: xs) ++ ys) sep).
    rewrite IH by discriminate.
    change (strings.Join (x :: x2 :: xs) sep) with (x ++ sep ++ strings.Join (x2 :: xs) sep).
    repeat rewrite append_assoc. reflexivity.
Qed.

(** Cutting a join of pieces without separators gives the pieces back. *)
Lemma Split_Join (pieces : list string) (sep : ascii) :
  pieces <> [] ->
  Forall (fun piece => strings.ContainsByte piece sep = false) pieces ->
  strings.Split (strings.Join pieces (String sep "")) sep = pieces.
Proof.
  intros Hne Hall. induction Hall as [|p rest Hp Hrest IH]; [contradiction|].
  destruct rest as [|p2 rest].
  - simpl. apply Split_no_sep. exact Hp.
  - change (strings.Join (p :: p2 :: rest) (String sep ""))
      with (p ++ String sep (strings.Join (p2 :: rest) (String sep ""))).
    rewrite Split_app, (Split_no_sep _ _ Hp), IH by discriminate. reflexivity.
Qed.

Lemma clean_step_plain rooted stack e :
  plainElem e -> filepath.clean_step rooted stack e = e :: stack.
Proof.
  intros (_ & H1 & H2 & H3). unfold filepath.clean_step.
  destruct (String.eqb_spec e ""); [contradiction|].
  destruct (String.eqb_spec e "."); [contradiction|].
  destruct (String.eqb_spec e ".."); [contradiction|]. reflexivity.
Qed.

Lemma clean_step_keeps rooted stack e :
  strings.ContainsByte e "/" = false ->
  cleanStack rooted stack -> cleanStack rooted (filepath.clean_step rooted stack e).
Proof.
  intros He Hstack. unfold filepath.clean_step.
  destruct (String.eqb_spec e "") as [|Hn1]; [exact Hstack|].
  destruct (String.eqb_spec e ".") as [|Hn2]; [exact Hstack|]. cbn [orb].
  destruct (String.eqb_spec e "..") as [->|Hn3].
  - destruct stack as [|top below].
    + destruct rooted eqn:Hr.
      * apply cs_dots; [constructor|reflexivity].
      * apply cs_dots; [repeat constructor|discriminate].
    + destruct (String.eqb_spec top "..") as [->|Htop].
      * inversion Hstack as [? Hdots Hroot|? ? Hplain _]; subst.
        -- apply cs_dots; [constructor; [reflexivity|exact Hdots]|].
           intros Hr. discriminate (Hroot Hr).
        -- destruct Hplain as (_ & _ & _ & Hdd). contradiction.
      * inversion Hstack as [? Hdots Hroot|? ? _ Hbelow]; subst; [|exact Hbelow].
        inversion Hdots; subst. contradiction.
  - apply cs_plain; [|exact Hstack]. repeat split; assumption.
Qed.

Lemma clean_fold_keeps rooted pieces stack :
  Forall (fun piece => strings.ContainsByte piece "/" = false) pieces ->
  cleanStack rooted stack ->
  cleanStack rooted (fold_left (filepath.clean_step rooted) pieces stack).
Proof.
  intros Hp. revert stack. induction Hp as [|p rest Hp _ IH]; intros stack Hs; simpl.
  - exact Hs.
  - apply IH. apply clean_step_keeps; assumption.
Qed.

Lemma clean_fold_plain rooted elems stack :
  Forall plainElem elems ->
  fold_left (filepath.clean_step rooted) elems stack = (rev elems ++ stack)%list.
Proof.
  intros He. revert stack. induction He as [|e rest He _ IH]; intros stack; simpl.
  - reflexivity.
  - rewrite IH, (clean_step_plain _ _ _ He), <- app_assoc. reflexivity.
Qed.

Lemma dots_repeat stack : Forall (eq "..") stack -> stack = repeat ".." (length stack).
Proof. induction 1 as [|e rest <- _ IH]; simpl; [reflexivity|]. rewrite <- IH. reflexivity. Qed.

Lemma clean_fold_dots n m :
  fold_left (filepath.clean_step false) (repeat ".." n) (repeat ".." m) = repeat ".." (n + m).
Proof.
  revert m. induction n as [|n IH]; intros m; simpl; [reflexivity|].
  assert (Hstep : filepath.clean_step false (repeat ".." m) ".." = repeat ".." (S m))
    by (destruct m; reflexivity).
  rewrite Hstep, IH, Nat.add_succ_r. reflexivity.
Qed.

(** Going through the elements of a stack again gives the stack back. *)
Lemma clean_fold_stack rooted stack :
  cleanStack rooted stack ->
  fold_left (filepath.clean_step rooted) (rev stack) [] = stack.
Proof.
  induction 1 as [stack Hdots Hroot|e stack He _ IH].
  - destruct rooted; [rewrite (Hroot eq_refl); reflexivity|].
    rewrite (dots_repeat _ Hdots), rev_repeat.
    change (@nil string) with (repeat ".." 0) at 1.
    rewrite clean_fold_dots, Nat.add_0_r. reflexivity.
  - simpl. rewrite fold_left_app, IH. simpl. apply clean_step_plain. exact He.
Qed.

Lemma cleanStack_pieces rooted stack :
  cleanStack rooted stack ->
  Forall (fun e => strings.ContainsByte e "/" = false /\ e <> "") stack.
Proof.
  induction 1 as [stack Hdots _|e stack (H1 & H2 & _) _ IH].
  - eapply Forall_impl; [|exact Hdots]. intros e <-. split; [reflexivity|discriminate].
  - constructor; [split; assumption|exact IH].
Qed.

(** The path of a stack that is not empty starts as the stack says: with a
    slash when rooted, with another character when not. *)
Lemma render_head rooted stack :
  cleanStack rooted stack -> stack <> [] ->
  exists c rest, render rooted stack = String c rest /\ Ascii.eqb c "/" = rooted.
Proof.
  intros Hs Hne. unfold render. destruct rooted.
  - eexists _, _. split; reflexivity.
  - apply cleanStack_pieces in Hs. apply Forall_rev in Hs.
    destruct (rev stack) as [|x xs] eqn:Hrev.
    { apply (f_equal (@rev string)) in Hrev. rewrite rev_involutive in Hrev. contradiction. }
    inversion Hs as [|? ? [Hx Hxe] _]; subst.
    destruct x as [|c x]; [contradiction|]. simpl in Hx.
    apply orb_false_iff in Hx. destruct Hx as [Hc _].
    exists c. destruct xs; eexists; (split; [reflexivity|exact Hc]).
Qed.

(** [Clean] of a path is the path of a stack. *)
Lemma Clean_stack (path : string) :
  path <> "" ->
  let rooted := filepath.is_rooted path in
  let kept := fold_left (filepath.clean_step rooted) (strings.Split path "/") [] in
  cleanStack rooted kept
  /\ (kept <> [] -> filepath.Clean path = render rooted kept).
Proof.
  intros Hne rooted kept. assert (Hkept : cleanStack rooted kept).
  { apply clean_fold_keeps; [apply Split_pieces|]. apply cs_dots; [constructor|reflexivity]. }
  split; [exact Hkept|]. intros Hk. unfold filepath.Clean.
  destruct (String.eqb_spec path ""); [contradiction|].
  fold rooted. fold kept. fold (render rooted kept).
  destruct (render_head _ _ Hkept Hk) as (c & rest & -> & _). reflexivity.
Qed.

(** Under a cleaned path that is not the root or the current directory, a
    relative path of plain elements is joined as it is. *)
Lemma Join_under rooted stack sub :
  cleanStack rooted stack -> stack <> [] ->
  Forall plainElem (strings.Split sub "/") ->
  filepath.Join [render rooted stack; sub] = render rooted stack ++ "/" ++ sub.
Proof.
  intros Hs Hne Hsub.
  destruct (render_head _ _ Hs Hne) as (c & rest & Hp & Hc).
  set (p := render rooted stack) in *.
  assert (Hjoin : filepath.Join [p; sub] = filepath.Clean (p ++ "/" ++ sub)).
  { rewrite Hp. reflexivity. }
  rewrite Hjoin. clear Hjoin.
  assert (Hpath : p ++ "/" ++ sub <> "") by (rewrite Hp; discriminate).
  assert (Hrooted : filepath.is_rooted (p ++ "/" ++ sub) = rooted) by (rewrite Hp; exact Hc).
  assert (Hsplit : strings.Split p "/"
                   = ((if rooted then [""] else []) ++ rev stack)%list).
  { assert (Hrev : strings.Split (strings.Join (rev stack) "/") "/" = rev stack).
    { apply Split_Join.
      - intros Hr. apply (f_equal (@rev string)) in Hr. rewrite rev_involutive in Hr.
        contradiction.
      - apply Forall_rev. eapply Forall_impl; [|apply (cleanStack_pieces _ _ Hs)].
        intros e [He _]. exact He. }
    unfold p, render. destruct rooted.
    - change ("/" ++ strings.Join (rev stack) "/")
        with ("" ++ String "/" (strings.Join (rev stack) "/")).
      rewrite Split_app, Hrev. reflexivity.
    - exact Hrev. }
  assert (Hkept : fold_left (filepath.clean_step rooted) (strings.Split (p ++ "/" ++ sub) "/") []
                  = (rev (strings.Split sub "/") ++ stack)%list).
  { change (p ++ "/" ++ sub) with (p ++ String "/" sub).
    rewrite Split_app, Hsplit, fold_left_app, fold_left_app.
    assert (Hskip : fold_left (filepath.clean_step rooted) (if rooted then [""] else []) [] = [])
      by (destruct rooted; reflexivity).
    rewrite Hskip, (clean_fold_stack _ _ Hs). apply clean_fold_plain. exact Hsub. }
  destruct (Clean_stack _ Hpath) as [_ Hclean]. rewrite Hrooted, Hkept in Hclean.
  rewrite Hclean.
  2:{ intros Habs. apply app_eq_nil in Habs. destruct Habs as [_ Habs]. contradiction. }
  unfold p, render. rewrite rev_app_distr, rev_involutive, Join_app.
  - change "/" with (String "/" "") at 2 4. rewrite Join_Split, append_assoc. reflexivity.
  - intros Hr. apply (f_equal (@rev string)) in Hr. rewrite rev_involutive in Hr. contradiction.
  - apply Split_nonempty.
Qed.

(** The merged directory is a cleaned path that ends in [merged]. *)
Lemma merged_stack (baseDir : string) :
  exists rooted stack,
    cleanStack rooted stack /\ stack <> []
    /\ filepath.Join [baseDir; "merged"] = render rooted stack.
Proof.
  destruct baseDir as [|c base].
  - exists false, ["merged"]. split; [|split; [discriminate|reflexivity]].
    apply cs_plain; [repeat split; discriminate|]. apply cs_dots; [constructor|discriminate].
  - set (b := String c base).
    assert (Hjoin : filepath.Join [b; "merged"] = filepath.Clean (b ++ "/" ++ "merged"))
      by reflexivity.
    assert (Hpath : b ++ "/" ++ "merged" <> "") by discriminate.
    destruct (Clean_stack _ Hpath) as [Hkept Hclean].
    revert Hkept Hclean.
    change (b ++ "/" ++ "merged") with (b ++ String "/" "merged").
    rewrite Split_app. change (strings.Split "merged" "/") with ["merged"].
    rewrite fold_left_app. cbn [fold_left].
    set (rooted := filepath.is_rooted _). set (kept := fold_left _ _ _).
    assert (Hplain : plainElem "merged") by (repeat split; discriminate).
    rewrite (clean_step_plain _ _ _ Hplain). intros Hkept Hclean.
    exists rooted, ("merged" :: kept). split; [exact Hkept|]. split; [discriminate|].
    rewrite Hjoin. apply Hclean. discriminate.
Qed.

(** A relative path of plain elements under the merged directory. *)
Lemma merged_sub (baseDir sub : string) :
  Forall plainElem (strings.Split sub "/") ->
  filepath.Join [filepath.Join [baseDir; "merged"]; sub]
  = filepath.Join [baseDir; "merged"] ++ "/" ++ sub.
Proof.
  intros Hsub. destruct (merged_stack baseDir) as (rooted & stack & Hs & Hne & ->).
  apply Join_under; assumption.
Qed.

(** The directories the program mounts on, under the merged directory. *)
Lemma merged_subdirs (baseDir : string) :
  let merged := filepath.Join [baseDir; "merged"] in
  filepath.Join [merged; "proc"] = merged ++ "/proc"
  /\ filepath.Join [merged; "sys"] = merged ++ "/sys"
  /\ filepath.Join [merged; "dev"] = merged ++ "/dev"
  /\ filepath.Join [merged; "dev/pts"] = merged ++ "/dev/pts"
  /\ filepath.Join [merged; "dev/shm"] = merged ++ "/dev/shm"
  /\ filepath.Join [merged; "run"] = merged ++ "/run"
  /\ filepath.Join [merged; "tmp"] = merged ++ "/tmp"
  /\ filepath.Join [merged; "volume"] = merged ++ "/volume".
Proof.
  cbv zeta. repeat split; apply merged_sub; simpl; repeat constructor; discriminate.
Qed.

(** ** Running the monad *)

Lemma bind_Return {A B} (m : M A) (k : A -> M B) s a s' :
  m s = (Return a, s') -> bind m k s = k a s'.
Proof. unfold bind. intros ->. reflexivity. Qed.

Lemma bind_Panic {A B} (m : M A) (k : A -> M B) s msg s' :
  m s = (Panic msg, s') -> bind m k s = (Panic msg, s').
Proof. unfold bind. intros ->. reflexivity. Qed.

Lemma bind_Exit {A B} (m : M A) (k : A -> M B) s code s' :
  m s = (Exit code, s') -> bind m k s = (Exit code, s').
Proof. unfold bind. intros ->. reflexivity. Qed.

Lemma index_hex (digest : string) :
  strings.ContainsByte digest ":" = true ->
  index (strings.Split digest ":") 1 = ret (hexOf digest).
Proof.
  intros H. unfold hexOf. destruct (Split_with_sep _ _ H) as (a & b & l & ->).
  reflexivity.
Qed.

Lemma index_no_hex (digest : string) :
  strings.ContainsByte digest ":" = false ->
  index (strings.Split digest ":") 1 = panic outOfRange.
Proof. intros H. rewrite (Split_no_sep _ _ H). reflexivity. Qed.

Lemma firstn_succ_nth {A} (xs : list A) i x :
  nth_error xs i = Some x -> firstn (S i) xs = (firstn i xs ++ [x])%list.
Proof.
  revert xs. induction i as [|i IH]; intros [|y ys] H; simpl in *; try discriminate.
  - injection H as ->. reflexivity.
  - rewrite (IH _ H). reflexivity.
Qed.

(** The loop of [setLayers] on well-formed digests: from [n] down, it
    appends the paths of the first [n] layers, last first. *)
Lemma setLayers_loop_ok (layers : list Layer) :
  forallb wellFormed layers = true ->
  forall n acc s, (n <= length layers)%nat ->
    setLayers_loop layers n acc s
    = (Return (acc ++ map layerPath (rev (firstn n layers)))%list, s).
Proof.
  intros Hwf. induction n as [|i IH]; intros acc s Hn.
  - simpl. rewrite app_nil_r. reflexivity.
  - cbn [setLayers_loop].
    destruct (nth_error layers i) as [layer|] eqn:Hi.
    2:{ apply nth_error_None in Hi. lia. }
    assert (Hl : wellFormed layer = true).
    { rewrite forallb_forall in Hwf. apply Hwf. eapply nth_error_In; eauto. }
    rewrite (index_hex _ Hl).
    unfold bind, ret at 1. rewrite IH by lia.
    f_equal. f_equal. rewrite <- app_assoc. f_equal.
    assert (Hf := firstn_succ_nth _ _ _ Hi).
    rewrite Hf, rev_app_distr. reflexivity.
Qed.

(** The loop panics as soon as the layers it still has to visit hold one
    digest without a colon. *)
Lemma setLayers_loop_panic (layers : list Layer) :
  forall n acc s, (n <= length layers)%nat ->
    forallb wellFormed (firstn n layers) = false ->
    setLayers_loop layers n acc s = (Panic outOfRange, s).
Proof.
  induction n as [|i IH]; intros acc s Hn Hbad.
  - simpl in Hbad. discriminate.
  - cbn [setLayers_loop].
    destruct (nth_error layers i) as [layer|] eqn:Hi.
    2:{ apply nth_error_None in Hi. lia. }
    assert (Hf := firstn_succ_nth _ _ _ Hi).
    rewrite Hf, forallb_app in Hbad. simpl in Hbad. rewrite andb_true_r in Hbad.
    destruct (wellFormed layer) eqn:Hl.
    + rewrite (index_hex _ Hl). unfold bind, ret at 1.
      apply IH; [lia|]. rewrite andb_true_r in Hbad. exact Hbad.
    + rewrite (index_no_hex _ Hl). reflexivity.
Qed.

(** ** What a piece of the program adds to the trace *)

Lemma emits_ret {A} (P : Call -> Prop) (a : A) : emits P (ret a).
Proof. intros s. exists []. simpl. rewrite app_nil_r. auto. Qed.

Lemma emits_panic {A} (P : Call -> Prop) msg : emits P (@panic A msg).
Proof. intros s. exists []. simpl. rewrite app_nil_r. auto. Qed.

Lemma emits_Exit {A} (P : Call -> Prop) code : emits P (@os_Exit A code).
Proof. intros s. exists []. simpl. rewrite app_nil_r. auto. Qed.

Lemma emits_bind {A B} (P : Call -> Prop) (m : M A) (k : A -> M B) :
  emits P m -> (forall a, emits P (k a)) -> emits P (bind m k).
Proof.
  intros Hm Hk s. unfold bind. destruct (Hm s) as (evs & Ht & Hf).
  destruct (m s) as [[a|msg|code] s1]; simpl in Ht; try (exists evs; simpl; now auto).
  destruct (Hk a s1) as (evs' & Ht' & Hf'). exists (evs ++ evs')%list.
  rewrite Ht', Ht, app_assoc. split; [reflexivity|]. apply Forall_app; auto.
Qed.

Lemma emits_syscall (P : Call -> Prop) os c : P c -> emits P (syscall os c).
Proof. intros Hc s. eexists. simpl. split; [reflexivity|]. repeat constructor. exact Hc. Qed.

Lemma emits_Println (P : Call -> Prop) ops :
  (forall text, P (Print text)) -> emits P (Println ops).
Proof. intros Hc s. eexists. simpl. split; [reflexivity|]. repeat constructor. apply Hc. Qed.

Lemma emits_Printf (P : Call -> Prop) text :
  (forall text, P (Print text)) -> emits P (Printf text).
Proof. intros Hc s. eexists. simpl. split; [reflexivity|]. repeat constructor. apply Hc. Qed.

Lemma emits_Setenv (P : Call -> Prop) key value :
  P (Setenv key value) -> emits P (os_Setenv key value).
Proof.
  intros Hc s. unfold os_Setenv. destruct (setenv_valid key value);
    eexists; simpl; (split; [reflexivity|]); repeat constructor; exact Hc.
Qed.

Lemma emits_index (P : Call -> Prop) xs i : emits P (index xs i).
Proof.
  unfold index. destruct (nth_error xs i); [apply emits_ret | apply emits_panic].
Qed.

Lemma emits_weaken {A} (P Q : Call -> Prop) (m : M A) :
  (forall c, P c -> Q c) -> emits P m -> emits Q m.
Proof.
  intros HPQ Hm s. destruct (Hm s) as (evs & Ht & Hf). exists evs. split; [exact Ht|].
  eapply Forall_impl; [|exact Hf]. intros e. apply HPQ.
Qed.

Lemma run_tool_emits (P : Call -> Prop) os label name arg :
  P (CombinedOutput (Command name arg)) -> emits P (run_tool os label name arg).
Proof.
  intros H. unfold run_tool. apply emits_bind; [apply emits_syscall; exact H|].
  intros r. destruct (err r); apply emits_ret.
Qed.

Ltac emits_step :=
  lazymatch goal with
  | |- emits _ (ret _) => apply emits_ret
  | |- emits _ (panic _) => apply emits_panic
  | |- emits _ (os_Exit _) => apply emits_Exit
  | |- emits _ (index _ _) => apply emits_index
  | |- emits _ (Println _) => apply emits_Println; intros; try (simpl; now auto)
  | |- emits _ (Printf _) => apply emits_Printf; intros; try (simpl; now auto)
  | |- emits _ (os_Setenv _ _) => apply emits_Setenv; try (simpl; now auto)
  | |- emits _ (syscall _ _) => apply emits_syscall; try (simpl; now auto)
  | |- emits _ (run_tool _ _ _ _) => apply run_tool_emits; try (simpl; now auto)
  | |- emits _ (bind _ _) => apply emits_bind; [|intros]
  | |- emits _ (match ?x with _ => _ end) => destruct x
  end.

Ltac emits_auto := repeat emits_step.

Lemma setEnv_loop_emits envVars :
  emits (fun c => isSetenv c) (setEnv_loop envVars).
Proof. induction envVars as [|e rest IH]; cbn [setEnv_loop]; emits_auto. exact IH. Qed.

Lemma setEnv_emits os decodeConfig configPath :
  emits (fun c => isMountOp c = false /\ isRun c = false) (setEnv os decodeConfig configPath).
Proof.
  unfold setEnv, loadConfig. emits_auto.
  eapply emits_weaken; [|apply setEnv_loop_emits]. intros [] H; simpl in *; tauto.
Qed.

Lemma prepareDirs_loop_emits os dirs :
  emits (fun c => isMkdirAll c) (prepareDirs_loop os dirs).
Proof. induction dirs as [|d rest IH]; cbn [prepareDirs_loop]; emits_auto. exact IH. Qed.

Lemma setLayers_loop_emits (P : Call -> Prop) layers n acc :
  emits P (setLayers_loop layers n acc).
Proof. revert acc. induction n as [|i IH]; intros acc; cbn [setLayers_loop]; emits_auto. apply IH. Qed.

Lemma prepareDirs_emits os fstype baseDir dirs :
  fstype <> "tmpfs" ->
  emits (fun c => isMountOf fstype c = false /\ isRun c = false)
        (prepareDirs os baseDir dirs).
Proof.
  intros Hf. unfold prepareDirs, mountTmpfs. emits_auto.
  - split; [|reflexivity]. unfold isMountOf, Command, Args.
    destruct (String.eqb_spec "tmpfs" fstype); [congruence|reflexivity].
  - eapply emits_weaken; [|apply prepareDirs_loop_emits]. intros [] H; simpl in *; tauto.
Qed.

(** ** Pieces of the program that always return *)

Lemma returns_ret {A} (a : A) : returns (ret a).
Proof. intros s. exists a, s. reflexivity. Qed.

Lemma returns_bind {A B} (m : M A) (k : A -> M B) :
  returns m -> (forall a, returns (k a)) -> returns (bind m k).
Proof.
  intros Hm Hk s. destruct (Hm s) as (a & s1 & H1). destruct (Hk a s1) as (b & s2 & H2).
  exists b, s2. rewrite (bind_Return _ _ _ _ _ H1). exact H2.
Qed.

Lemma returns_syscall os c : returns (syscall os c).
Proof. intros s. eexists _, _. reflexivity. Qed.

Lemma returns_Println ops : returns (Println ops).
Proof. intros s. eexists _, _. reflexivity. Qed.

Lemma returns_Printf text : returns (Printf text).
Proof. intros s. eexists _, _. reflexivity. Qed.

Lemma returns_Setenv key value : returns (os_Setenv key value).
Proof. intros s. unfold os_Setenv. destruct (setenv_valid key value); eexists _, _; reflexivity. Qed.

Lemma returns_run_tool os label name arg : returns (run_tool os label name arg).
Proof.
  unfold run_tool. apply returns_bind; [apply returns_syscall|].
  intros r. destruct (err r); apply returns_ret.
Qed.

Ltac returns_step :=
  lazymatch goal with
  | |- returns (ret _) => apply returns_ret
  | |- returns (Println _) => apply returns_Println
  | |- returns (Printf _) => apply returns_Printf
  | |- returns (os_Setenv _ _) => apply returns_Setenv
  | |- returns (syscall _ _) => apply returns_syscall
  | |- returns (run_tool _ _ _ _) => apply returns_run_tool
  | |- returns (bind _ _) => apply returns_bind; [|intros]
  | |- returns (match ?x with _ => _ end) => destruct x
  end.

Ltac returns_auto := repeat returns_step.

Lemma prepareDirs_loop_returns os dirs : returns (prepareDirs_loop os dirs).
Proof. induction dirs as [|d rest IH]; cbn [prepareDirs_loop]; returns_auto. exact IH. Qed.

Lemma prepareDirs_returns os baseDir dirs : returns (prepareDirs os baseDir dirs).
Proof. unfold prepareDirs, mountTmpfs. returns_auto. apply prepareDirs_loop_returns. Qed.

Lemma mountOverlayFS_returns os lowerDirs upperDir workDir targetDir :
  returns (mountOverlayFS os lowerDirs upperDir workDir targetDir).
Proof. unfold mountOverlayFS. returns_auto. Qed.

(** ** The overlay assembler *)

(** [setLayers] once the manifest is read: the directories, the loop, the
    overlay mount. *)
Lemma setLayers_loaded os decodeManifest manifestPath baseDir targetDir s content layers :
  os (trace s) (Open manifestPath) = {| output := content; err := None |} ->
  decodeManifest content = inr {| Layers := layers |} ->
  setLayers os decodeManifest manifestPath baseDir targetDir s
  = (let upperDir := filepath.Join [baseDir; "upper"] in
     let workDir := filepath.Join [baseDir; "work"] in
     prepareDirs os baseDir [upperDir; workDir; targetDir] ;;;
     lowerDirs <- setLayers_loop layers (length layers) [] ;;
     e2 <- mountOverlayFS os lowerDirs upperDir workDir targetDir ;;
     match e2 with
     | Some e' => ret (Some (Wrap e' "挂载 overlay 文件系统时出错"))
     | None => ret None
     end)
      (log s (Open manifestPath) {| output := content; err := None |}).
Proof.
  intros Hopen Hdec. unfold setLayers, loadManifest.
  unfold bind at 1. unfold bind at 1. unfold syscall at 1.
  rewrite Hopen. cbn [err output]. rewrite Hdec. reflexivity.
Qed.

(** [mountOverlayFS]: the announcement, then the one mount command. *)
Lemma mountOverlayFS_trace os lowerDirs upperDir workDir targetDir s :
  exists text r,
    trace (snd (mountOverlayFS os lowerDirs upperDir workDir targetDir s))
    = (trace s ++ [{| call := Print text; reply := done |};
                   {| call := overlayMount lowerDirs upperDir workDir targetDir;
                      reply := r |}])%list.
Proof.
  unfold mountOverlayFS, run_tool, Println, syscall, bind, overlayMount.
  cbv zeta. eexists _, _.
  match goal with |- context [err ?r] => destruct (err r) end;
    cbn [snd trace log ret]; rewrite <- app_assoc; reflexivity.
Qed.

(** C1: with the manifest read and every digest of the form
    [algorithm:hex], [setLayers] builds the lower directories of the layers
    in reverse manifest order, each the layer cache root joined with the
    hex part of the digest, and hands them joined with colons as the
    [lowerdir=] option to the overlay mount; that mount is the last call
    of [setLayers] and the only overlay mount it makes. *)
Theorem setLayers_lowerdir_reversed os decodeManifest manifestPath baseDir targetDir s content layers :
  os (trace s) (Open manifestPath) = {| output := content; err := None |} ->
  decodeManifest content = inr {| Layers := layers |} ->
  forallb wellFormed layers = true ->
  setLayers_loop layers (length layers) [] s = (Return (map layerPath (rev layers)), s)
  /\ exists before r,
      trace (snd (setLayers os decodeManifest manifestPath baseDir targetDir s))
      = (trace s ++ before
           ++ [{| call := overlayMount (map layerPath (rev layers))
                            (filepath.Join [baseDir; "upper"])
                            (filepath.Join [baseDir; "work"]) targetDir;
                  reply := r |}])%list
      /\ Forall (fun e => isMountOf "overlay" (call e) = false) before.
Proof.
  intros Hopen Hdec Hwf.
  assert (Hloop : forall s', setLayers_loop layers (length layers) [] s'
                             = (Return (map layerPath (rev layers)), s')).
  { intros s'. rewrite (setLayers_loop_ok layers Hwf (length layers) [] s' (le_n _)).
    rewrite firstn_all. reflexivity. }
  split; [apply Hloop|].
  rewrite (setLayers_loaded _ _ _ baseDir targetDir _ _ _ Hopen Hdec). cbv zeta.
  set (s0 := log s _ _).
  set (dirs := [filepath.Join [baseDir; "upper"]; filepath.Join [baseDir; "work"]; targetDir]).
  assert (Hne : "overlay" <> "tmpfs") by discriminate.
  destruct (prepareDirs_emits os "overlay" baseDir dirs Hne s0) as (evs & Htr & Hevs).
  destruct (prepareDirs_returns os baseDir dirs s0) as (e & s1 & Hprep).
  rewrite Hprep in Htr. cbn [snd] in Htr.
  rewrite (bind_Return _ _ _ _ _ Hprep). rewrite (bind_Return _ _ _ _ _ (Hloop s1)).
  set (lowerDirs := map layerPath (rev layers)).
  destruct (mountOverlayFS_trace os lowerDirs (filepath.Join [baseDir; "upper"])
              (filepath.Join [baseDir; "work"]) targetDir s1) as (text & r & Hov).
  destruct (mountOverlayFS_returns os lowerDirs (filepath.Join [baseDir; "upper"])
              (filepath.Join [baseDir; "work"]) targetDir s1) as (e2 & s2 & Hm).
  rewrite Hm in Hov. cbn [snd] in Hov. rewrite (bind_Return _ _ _ _ _ Hm).
  exists ([{| call := Open manifestPath; reply := {| output := content; err := None |} |}]
            ++ evs ++ [{| call := Print text; reply := done |}])%list, r.
  split.
  - assert (Hfin : forall o : option error,
               trace (snd (match o with
                           | Some e' => ret (Some (Wrap e' "挂载 overlay 文件系统时出错"))
                           | None => ret None
                           end s2)) = trace s2) by (intros [|]; reflexivity).
    rewrite Hfin, Hov, Htr. subst s0. cbn [trace log].
    repeat rewrite <- app_assoc. reflexivity.
  - apply Forall_app. split; [repeat constructor|].
    apply Forall_app. split; [|repeat constructor].
    eapply Forall_impl; [|exact Hevs]. intros ev [H _]. exact H.
Qed.

(** C1, on the two-layer manifest: the lower directories are those of the
    second layer, then of the first. *)
Lemma setLayers_lowerdir_reversed_witness :
  setLayers_loop demoLayers (length demoLayers) [] start
  = (Return (map layerPath (rev demoLayers)), start)
  /\ exists before r,
      trace (snd (setLayers okWorld demoDecodeManifest "/c/manifest.json" "/c/overlay"
                    "/c/overlay/merged" start))
      = (trace start ++ before
           ++ [{| call := overlayMount (map layerPath (rev demoLayers))
                            (filepath.Join ["/c/overlay"; "upper"])
                            (filepath.Join ["/c/overlay"; "work"]) "/c/overlay/merged";
                  reply := r |}])%list
      /\ Forall (fun e => isMountOf "overlay" (call e) = false) before.
Proof.
  apply (setLayers_lowerdir_reversed okWorld demoDecodeManifest "/c/manifest.json"
           "/c/overlay" "/c/overlay/merged" start "/c/manifest.json" demoLayers);
    reflexivity.
Defined.

Example demo_lowerdirs :
  map layerPath (rev demoLayers)
  = ["/tmp/proxy_pool/layers/2c3d"; "/tmp/proxy_pool/layers/0a1b"].
Proof. reflexivity. Qed.

Example demo_Clean :
  map filepath.Clean ["/a//b/./c/.."; "a/../.."; "/.."; ""; "x/"; "/"]
  = ["/a/b"; ".."; "/"; "."; "x"; "/"].
Proof. reflexivity. Qed.

(** ** Digests without a colon *)

(** C9: with the manifest read, [setLayers] panics with an index out of
    range as soon as one digest has no colon, and returns (an error or none)
    when every digest has one. *)
Theorem setLayers_panics_without_colon os decodeManifest manifestPath baseDir targetDir
        s content layers :
  os (trace s) (Open manifestPath) = {| output := content; err := None |} ->
  decodeManifest content = inr {| Layers := layers |} ->
  (forallb wellFormed layers = false ->
   fst (setLayers os decodeManifest manifestPath baseDir targetDir s) = Panic outOfRange)
  /\ (forallb wellFormed layers = true ->
      exists e, fst (setLayers os decodeManifest manifestPath baseDir targetDir s) = Return e).
Proof.
  intros Hopen Hdec.
  rewrite (setLayers_loaded os decodeManifest _ baseDir targetDir _ _ _ Hopen Hdec). cbv zeta.
  set (s0 := log s _ _).
  set (dirs := [filepath.Join [baseDir; "upper"]; filepath.Join [baseDir; "work"]; targetDir]).
  destruct (prepareDirs_returns os baseDir dirs s0) as (e & s1 & Hprep).
  rewrite (bind_Return _ _ _ _ _ Hprep). split; intros Hwf.
  - rewrite (bind_Panic _ _ s1 outOfRange s1); [reflexivity|].
    apply setLayers_loop_panic; [apply le_n|]. rewrite firstn_all. exact Hwf.
  - rewrite (bind_Return _ _ s1 (map layerPath (rev layers)) s1).
    2:{ rewrite (setLayers_loop_ok layers Hwf (length layers) [] s1 (le_n _)).
        rewrite firstn_all. reflexivity. }
    destruct (mountOverlayFS_returns os (map layerPath (rev layers))
                (filepath.Join [baseDir; "upper"]) (filepath.Join [baseDir; "work"])
                targetDir s1) as (e2 & s2 & Hm).
    rewrite (bind_Return _ _ _ _ _ Hm). destruct e2; eexists; reflexivity.
Qed.

Lemma setLayers_panics_without_colon_witness :
  (forallb wellFormed brokenLayers = false ->
   fst (setLayers okWorld demoDecodeManifest "broken" "/c/overlay" "/c/overlay/merged" start)
   = Panic outOfRange)
  /\ (forallb wellFormed brokenLayers = true ->
      exists e,
        fst (setLayers okWorld demoDecodeManifest "broken" "/c/overlay" "/c/overlay/merged" start)
        = Return e).
Proof.
  apply (setLayers_panics_without_colon okWorld demoDecodeManifest "broken" "/c/overlay"
           "/c/overlay/merged" start "broken" brokenLayers); reflexivity.
Defined.

Example broken_manifest_panics :
  fst (setLayers okWorld demoDecodeManifest "broken" "/c/overlay" "/c/overlay/merged" start)
  = Panic "runtime error: index out of range [1] with length 1".
Proof. vm_compute. reflexivity. Qed.

(** ** Errors of the directory preparation *)

(** What [prepareDirs] returns plays no part in [setLayers]: with the
    manifest read and the digests well formed, [setLayers] is the overlay
    mount in the state [prepareDirs] leaves, whatever [prepareDirs] returned. *)
Lemma setLayers_after_prepareDirs os decodeManifest manifestPath baseDir targetDir s
      content layers :
  os (trace s) (Open manifestPath) = {| output := content; err := None |} ->
  decodeManifest content = inr {| Layers := layers |} ->
  forallb wellFormed layers = true ->
  let upperDir := filepath.Join [baseDir; "upper"] in
  let workDir := filepath.Join [baseDir; "work"] in
  let s1 := snd (prepareDirs os baseDir [upperDir; workDir; targetDir]
                   (log s (Open manifestPath) {| output := content; err := None |})) in
  setLayers os decodeManifest manifestPath baseDir targetDir s
  = (e2 <- mountOverlayFS os (map layerPath (rev layers)) upperDir workDir targetDir ;;
     match e2 with
     | Some e' => ret (Some (Wrap e' "挂载 overlay 文件系统时出错"))
     | None => ret None
     end) s1.
Proof.
  intros Hopen Hdec Hwf upperDir workDir s1.
  rewrite (setLayers_loaded os decodeManifest _ baseDir targetDir _ _ _ Hopen Hdec). cbv zeta.
  fold upperDir workDir.
  destruct (prepareDirs_returns os baseDir [upperDir; workDir; targetDir]
              (log s (Open manifestPath) {| output := content; err := None |}))
    as (e & s1' & Hprep).
  subst s1. rewrite Hprep. cbn [snd].
  rewrite (bind_Return _ _ _ _ _ Hprep).
  rewrite (bind_Return _ _ s1' (map layerPath (rev layers)) s1'); [reflexivity|].
  rewrite (setLayers_loop_ok layers Hwf (length layers) [] s1' (le_n _)).
  rewrite firstn_all. reflexivity.
Qed.

(** C3 fails on the code: the tmpfs cannot be mounted on the base
    directory, [prepareDirs] returns that error wrapped, and [setLayers]
    mounts the overlay all the same and reports no error. *)
Theorem setLayers_drops_prepareDirs_error :
  let run := setLayers noTmpfsWorld demoDecodeManifest "/c/manifest.json" "/c/overlay"
               "/c/overlay/merged" start in
  fst (prepareDirs noTmpfsWorld "/c/overlay"
         ["/c/overlay/upper"; "/c/overlay/work"; "/c/overlay/merged"]
         (log start (Open "/c/manifest.json") (okWorld [] (Open "/c/manifest.json"))))
  = Return (Some (Wrap (Wrap (ExitError 32)
                          "mount output: mount: /c/overlay: permission denied.")
                       "挂载 tmpfs 时出错"))
  /\ fst run = Return None
  /\ map call (trace (snd run))
     = [ Open "/c/manifest.json";
         MkdirAll "/c/overlay";
         Print ("mounting tmpfs filesystem: mount -t tmpfs tmpfs /c/overlay" ++ newline);
         mountCmd ["-t"; "tmpfs"; "tmpfs"; "/c/overlay"];
         Print ("mounting overlay filesystem: mount -t overlay overlay -o "
                ++ "lowerdir=/tmp/proxy_pool/layers/2c3d:/tmp/proxy_pool/layers/0a1b,"
                ++ "upperdir=/c/overlay/upper,workdir=/c/overlay/work /c/overlay/merged"
                ++ newline);
         overlayMount ["/tmp/proxy_pool/layers/2c3d"; "/tmp/proxy_pool/layers/0a1b"]
           "/c/overlay/upper" "/c/overlay/work" "/c/overlay/merged" ].
Proof. vm_compute. repeat split. Qed.

(** ** Applying the environment list *)

Lemma env_get_set_same env key value : env_get (env_set env key value) key = Some value.
Proof.
  induction env as [|[k v] rest IH]; simpl.
  - rewrite String.eqb_refl. reflexivity.
  - destruct (String.eqb k key) eqn:Hk; simpl.
    + rewrite String.eqb_refl. reflexivity.
    + rewrite Hk. exact IH.
Qed.

Lemma env_get_set_other env key value key' :
  key <> key' -> env_get (env_set env key value) key' = env_get env key'.
Proof.
  intros Hne. induction env as [|[k v] rest IH]; simpl.
  - destruct (String.eqb_spec key key'); [contradiction|reflexivity].
  - destruct (String.eqb_spec k key) as [->|Hk]; simpl.
    + destruct (String.eqb_spec key key'); [contradiction|reflexivity].
    + rewrite IH. reflexivity.
Qed.

Lemma applyEntry_trace pre s :
  trace (fold_left applyEntry pre s)
  = (trace s
       ++ map (fun e => {| call := Setenv (envKey e) (envValue e); reply := done |}) pre)%list.
Proof.
  revert s. induction pre as [|e rest IH]; intros s; simpl.
  - rewrite app_nil_r. reflexivity.
  - rewrite IH. simpl. rewrite <- app_assoc. reflexivity.
Qed.

(** Bindings are not rolled back: an applied entry is still in the
    environment at the end, unless a later applied entry has its key. *)
Lemma applyEntry_remains before e after s :
  Forall (fun e' => envKey e' <> envKey e) after ->
  env_get (environ (fold_left applyEntry (before ++ e :: after) s)) (envKey e)
  = Some (envValue e).
Proof.
  intros Hafter. rewrite fold_left_app. simpl.
  generalize (fold_left applyEntry before s). intros s1.
  assert (H : env_get (environ (applyEntry s1 e)) (envKey e) = Some (envValue e))
    by apply env_get_set_same.
  revert H. generalize (applyEntry s1 e). clear s1.
  induction Hafter as [|e' rest Hne _ IH]; intros s1 H; simpl; [exact H|].
  apply IH. simpl. rewrite env_get_set_other by exact Hne. exact H.
Qed.

Lemma setEnv_loop_step e rest s :
  applicable e = true -> setEnv_loop (e :: rest) s = setEnv_loop rest (applyEntry s e).
Proof.
  intros Happ. apply andb_prop in Happ. destruct Happ as [Hsep Hvalid].
  unfold applyEntry, envKey, envValue in *. cbn [setEnv_loop].
  destruct (SplitN2_with_sep _ _ Hsep) as (k & v & Hs & _). rewrite Hs in *.
  cbn [length Nat.eqb negb index nth_error nth] in *.
  unfold bind, ret, os_Setenv. rewrite Hvalid. reflexivity.
Qed.

Lemma setEnv_loop_prefix pre rest s :
  forallb applicable pre = true ->
  setEnv_loop (pre ++ rest) s = setEnv_loop rest (fold_left applyEntry pre s).
Proof.
  revert s. induction pre as [|e pre IH]; intros s Hall; simpl in *; [reflexivity|].
  apply andb_prop in Hall. destruct Hall as [He Hpre].
  rewrite <- IH by exact Hpre. apply setEnv_loop_step. exact He.
Qed.

Lemma setEnv_loop_malformed bad post s :
  strings.ContainsByte bad "=" = false ->
  setEnv_loop (bad :: post) s = (Return (Some (invalidEntry bad)), s).
Proof.
  intros Hbad. cbn [setEnv_loop]. rewrite (SplitN2_no_sep _ _ Hbad). reflexivity.
Qed.

Lemma setEnv_loaded os decodeConfig configPath s content envVars :
  os (trace s) (Open configPath) = {| output := content; err := None |} ->
  decodeConfig content = inr {| config := {| Env := envVars |} |} ->
  setEnv os decodeConfig configPath s
  = setEnv_loop envVars
      (log (log s (Open configPath) {| output := content; err := None |})
           (Print (strings.Join ["setting env vars:"; show_slice envVars] " " ++ newline))
           done).
Proof.
  intros Hopen Hdec. unfold setEnv, loadConfig.
  unfold bind at 1. unfold bind at 1. unfold syscall at 1.
  rewrite Hopen. cbn [err output]. rewrite Hdec. reflexivity.
Qed.

(** C4: with the configuration read, [setEnv] applies the entries from left
    to right.  When all can be applied, all are, in the order of the list.
    When an entry has no equals sign and those before it can be applied, the
    result is the error for that entry, the entries before it have been
    applied in order and stay in the environment, and no entry after it is
    applied. *)
Theorem setEnv_stops_at_malformed os decodeConfig configPath s content envVars :
  os (trace s) (Open configPath) = {| output := content; err := None |} ->
  decodeConfig content = inr {| config := {| Env := envVars |} |} ->
  let s0 := log (log s (Open configPath) {| output := content; err := None |})
                (Print (strings.Join ["setting env vars:"; show_slice envVars] " " ++ newline))
                done in
  (forallb applicable envVars = true ->
   setEnv os decodeConfig configPath s = (Return None, fold_left applyEntry envVars s0))
  /\ (forall pre bad post,
         envVars = (pre ++ bad :: post)%list ->
         forallb applicable pre = true ->
         strings.ContainsByte bad "=" = false ->
         let final := fold_left applyEntry pre s0 in
         setEnv os decodeConfig configPath s = (Return (Some (invalidEntry bad)), final)
         /\ trace final
            = (trace s0
                 ++ map (fun e => {| call := Setenv (envKey e) (envValue e); reply := done |})
                        pre)%list
         /\ (forall before e after,
                pre = (before ++ e :: after)%list ->
                Forall (fun e' => envKey e' <> envKey e) after ->
                env_get (environ final) (envKey e) = Some (envValue e))).
Proof.
  intros Hopen Hdec s0.
  rewrite (setEnv_loaded os decodeConfig configPath s content envVars Hopen Hdec).
  fold s0. split.
  - intros Hall. rewrite <- (app_nil_r envVars) at 1.
    rewrite (setEnv_loop_prefix envVars [] s0 Hall). reflexivity.
  - intros pre bad post -> Hpre Hbad final. split; [|split].
    + rewrite (setEnv_loop_prefix pre (bad :: post) s0 Hpre).
      apply setEnv_loop_malformed. exact Hbad.
    + apply applyEntry_trace.
    + intros before e after -> Hafter. apply applyEntry_remains. exact Hafter.
Qed.

Lemma setEnv_stops_at_malformed_witness :
  setEnv okWorld malformedConfig "/c/config.json" start
  = (Return (Some (invalidEntry "BROKEN")),
     {| trace :=
          [ {| call := Open "/c/config.json";
               reply := {| output := "/c/config.json"; err := None |} |};
            {| call := Print ("setting env vars: [PATH=/bin HOME=/root BROKEN TERM=xterm]"
                              ++ newline);
               reply := done |};
            {| call := Setenv "PATH" "/bin"; reply := done |};
            {| call := Setenv "HOME" "/root"; reply := done |} ];
        environ := [("PATH", "/bin"); ("HOME", "/root")] |}).
Proof.
  apply (proj2 (setEnv_stops_at_malformed okWorld malformedConfig "/c/config.json" start
                  "/c/config.json" ["PATH=/bin"; "HOME=/root"; "BROKEN"; "TERM=xterm"]
                  eq_refl eq_refl)
               ["PATH=/bin"; "HOME=/root"] "BROKEN" ["TERM=xterm"] eq_refl eq_refl eq_refl).
Defined.

(** ** The volume binder *)

(** [mountVolume], call by call. *)
Lemma mountVolume_run os volumeDir targetDir s :
  mountVolume os volumeDir targetDir s
  = let st := os (trace s) (Stat volumeDir) in
    let s1 := log s (Stat volumeDir) st in
    let target := filepath.Join [targetDir; "volume"] in
    if IsNotExist (err st) then
      (Return match err st with
              | Some e => Some (Wrap e "volume 目录不存在")
              | None => None
              end, s1)
    else
      let mk := os (trace s1) (MkdirAll target) in
      let s2 := log s1 (MkdirAll target) mk in
      match err mk with
      | Some e => (Return (Some (Wrap e "创建 volume 目录时出错")), s2)
      | None =>
          let s3 := log s2 (Print (strings.Join ["mounting volume filesystem: mount --bind";
                                                 volumeDir; target] " " ++ newline)) done in
          let r := os (trace s3) (bindMount volumeDir target) in
          (Return match err r with
                  | Some e => Some (Wrap e ("mount output: " ++ output r))
                  | None => None
                  end, log s3 (bindMount volumeDir target) r)
      end.
Proof.
  cbv zeta. unfold mountVolume, run_tool, Println, syscall, bind, ret, bindMount.
  repeat match goal with
         | |- context [if ?b then _ else _] => destruct b
         | |- context [match err ?r with _ => _ end] => destruct (err r)
         end; reflexivity.
Qed.



Example missing_volume_run :
  map call (trace (snd (mountVolume noVolumeWorld "/c/volume" "/c/overlay/merged" start)))
  = [Stat "/c/volume"].
Proof. reflexivity. Qed.

Example present_volume_run :
  map call (trace (snd (mountVolume okWorld "/c/volume" "/c/overlay/merged" start)))
  = [ Stat "/c/volume";
      MkdirAll "/c/overlay/merged/volume";
      Print ("mounting volume filesystem: mount --bind /c/volume /c/overlay/merged/volume"
             ++ newline);
      bindMount "/c/volume" "/c/overlay/merged/volume" ].
Proof. reflexivity. Qed.

(** ** The namespace launcher *)

Lemma clone_flags_are_bits :
  CLONE_NEWNS = (2 ^ 17)%Z /\ CLONE_NEWUTS = (2 ^ 26)%Z /\ CLONE_NEWIPC = (2 ^ 27)%Z
  /\ CLONE_NEWPID = (2 ^ 29)%Z /\ CLONE_NEWNET = (2 ^ 30)%Z.
Proof. repeat split. Qed.

Lemma namespace_flags_bits configPath manifestPath baseDir volumeDir (i : Z) :
  Z.testbit (Cloneflags (namespaceCmd configPath manifestPath baseDir volumeDir)) i
  = existsb (Z.eqb i) namespaceBits.
Proof.
  cbn [Cloneflags namespaceCmd].
  replace (Z.lor (Z.lor (Z.lor (Z.lor CLONE_NEWUTS CLONE_NEWIPC) CLONE_NEWNET) CLONE_NEWNS)
                 CLONE_NEWPID) with 1812070400%Z by reflexivity.
  destruct (Z.ltb_spec i 0) as [Hneg|Hpos].
  - rewrite Z.testbit_neg_r by exact Hneg.
    unfold namespaceBits. cbn [existsb].
    repeat match goal with |- context [Z.eqb i ?n] =>
             destruct (Z.eqb_spec i n); [lia|] end.
    reflexivity.
  - destruct (Z.ltb_spec i 31) as [Hsmall|Hbig].
    + assert (Hcases : exists n : nat, (n < 31)%nat /\ i = Z.of_nat n).
      { exists (Z.to_nat i). split; lia. }
      destruct Hcases as (n & Hn & ->).
      do 31 (destruct n as [|n]; [reflexivity|]). lia.
    + rewrite Z.bits_above_log2; [|lia|].
      * unfold namespaceBits. cbn [existsb].
        repeat match goal with |- context [Z.eqb i ?n] =>
                 destruct (Z.eqb_spec i n); [lia|] end.
        reflexivity.
      * replace (Z.log2 1812070400) with 30%Z by reflexivity. lia.
Qed.

(** C8: [runInNamespace] makes one call, the run of the program's own
    executable with the arguments [child] and the four paths, the parent's
    three standard streams, and the clone flags of exactly the five
    namespaces UTS, IPC, NET, mount and PID; the call returns when the child
    has ended, and its error, or none, is the result. *)
Theorem runInNamespace_spawns_child os configPath manifestPath baseDir volumeDir s :
  let cmd := namespaceCmd configPath manifestPath baseDir volumeDir in
  let r := os (trace s) (Run cmd) in
  runInNamespace os configPath manifestPath baseDir volumeDir s
  = (Return (err r), {| trace := trace s ++ [{| call := Run cmd; reply := r |}];
                        environ := environ s |})
  /\ Path cmd = "/proc/self/exe"
  /\ Args cmd = ["/proc/self/exe"; "child"; configPath; manifestPath; baseDir; volumeDir]
  /\ (cmd_Stdin cmd, cmd_Stdout cmd, cmd_Stderr cmd) = (Some Stdin, Some Stdout, Some Stderr)
  /\ Cloneflags cmd
     = Z.lor CLONE_NEWUTS (Z.lor CLONE_NEWIPC (Z.lor CLONE_NEWNET
         (Z.lor CLONE_NEWNS CLONE_NEWPID)))
  /\ (forall i, Z.testbit (Cloneflags cmd) i = true <-> In i namespaceBits).
Proof.
  intros cmd r. repeat split.
  - intros Hbit. unfold cmd in Hbit. rewrite namespace_flags_bits in Hbit.
    apply existsb_exists in Hbit. destruct Hbit as (b & Hin & Heq).
    apply Z.eqb_eq in Heq. subst b. exact Hin.
  - intros Hin. unfold cmd. rewrite namespace_flags_bits.
    apply existsb_exists. exists i. split; [exact Hin|apply Z.eqb_refl].
Qed.

(** ** The entry point *)

(** C6: with the sentinel as first argument, [main] exits with status 1,
    having only printed the usage message, unless exactly four arguments
    follow; with exactly four it is [childProcess] on them. *)
Theorem main_child_arguments os decodeConfig decodeManifest (Args : list string) s :
  nth_error Args 1 = Some childSentinel ->
  (length Args <> 6%nat ->
   main os decodeConfig decodeManifest Args s
   = (Exit 1,
      {| trace := trace s
                  ++ [{| call := Print ("Invalid number of arguments for child process"
                                        ++ newline);
                         reply := done |}];
         environ := environ s |}))
  /\ (forall configPath manifestPath baseDir volumeDir,
         skipn 2 Args = [configPath; manifestPath; baseDir; volumeDir] ->
         main os decodeConfig decodeManifest Args s
         = childProcess os decodeConfig decodeManifest configPath manifestPath baseDir
             volumeDir s).
Proof.
  intros Hchild. unfold main.
  assert (Hguard : (1 <? length Args)%nat && String.eqb (nth 1 Args "") "child" = true).
  { destruct Args as [|a0 [|a1 rest]]; try discriminate.
    simpl in Hchild. injection Hchild as ->. reflexivity. }
  rewrite Hguard. split.
  - intros Hlen. apply Nat.eqb_neq in Hlen. rewrite Hlen. reflexivity.
  - intros c m b v Hargs.
    destruct Args as [|a0 [|a1 [|a2 [|a3 [|a4 [|a5 [|a6 rest]]]]]]]; try discriminate.
    simpl in Hargs. injection Hargs as -> -> -> ->. reflexivity.
Qed.

Lemma main_child_arguments_witness :
  main okWorld demoDecodeConfig demoDecodeManifest ["/proc/self/exe"; "child"; "a"; "b"] start
  = (Exit 1,
     {| trace := trace start
                 ++ [{| call := Print ("Invalid number of arguments for child process"
                                       ++ newline);
                        reply := done |}];
        environ := environ start |}).
Proof.
  apply (proj1 (main_child_arguments okWorld demoDecodeConfig demoDecodeManifest
                  ["/proc/self/exe"; "child"; "a"; "b"] start eq_refl)).
  discriminate.
Defined.

(** C10: without the sentinel as first argument, whatever the arguments,
    [main] takes the parent's path on the four fixed paths: it creates the
    volume directory and, that done, runs the program again in the new
    namespaces; it never exits with a usage error. *)
Theorem main_parent_ignores_arguments os decodeConfig decodeManifest (Args : list string) s :
  nth_error Args 1 <> Some childSentinel ->
  let volumeDir := "/tmp/proxy_pool/volume" in
  let mk := os (trace s) (MkdirAll volumeDir) in
  let s1 := log s (MkdirAll volumeDir) mk in
  let cmd := namespaceCmd "/tmp/proxy_pool/config.json" "/tmp/proxy_pool/manifest.json"
               "/tmp/proxy_pool/overlay" volumeDir in
  let r := os (trace s1) (Run cmd) in
  let s2 := log s1 (Run cmd) r in
  main os decodeConfig decodeManifest Args s
  = match err mk with
    | Some e => (Return tt, log s1 (Print ("创建 volume 目录时出错: " ++ Error e ++ newline)) done)
    | None =>
        match err r with
        | Some e =>
            (Return tt,
             log s2 (Print ("在 namespace 和 chroot 环境中运行时出错: " ++ Error e ++ newline))
                 done)
        | None => (Return tt, s2)
        end
    end.
Proof.
  intros Hparent. cbv zeta. unfold main.
  assert (Hguard : (1 <? length Args)%nat && String.eqb (nth 1 Args "") "child" = false).
  { destruct Args as [|a0 [|a1 rest]]; try reflexivity.
    simpl in *. destruct (String.eqb_spec a1 "child") as [->|]; [|reflexivity].
    exfalso. apply Hparent. reflexivity. }
  rewrite Hguard. unfold runInNamespace, syscall, Printf, bind, ret.
  repeat match goal with
         | |- context [match err ?x with _ => _ end] => destruct (err x)
         end; reflexivity.
Qed.

Lemma main_parent_ignores_arguments_witness :
  main okWorld demoDecodeConfig demoDecodeManifest
       ["/proc/self/exe"; "run"; "child"; "a"; "b"; "c"; "d"] start
  = (Return tt,
     {| trace :=
          [ {| call := MkdirAll "/tmp/proxy_pool/volume"; reply := done |};
            {| call := Run (namespaceCmd "/tmp/proxy_pool/config.json"
                              "/tmp/proxy_pool/manifest.json" "/tmp/proxy_pool/overlay"
                              "/tmp/proxy_pool/volume");
               reply := done |} ];
        environ := [] |}).
Proof.
  apply (main_parent_ignores_arguments okWorld demoDecodeConfig demoDecodeManifest
           ["/proc/self/exe"; "run"; "child"; "a"; "b"; "c"; "d"] start).
  discriminate.
Defined.

(** ** The child orchestrator, stage by stage *)

Section StageFacts.

Variable os : World.
Variable decodeConfig : string -> error + Config.
Variable decodeManifest : string -> error + Manifest.
Variables configPath manifestPath baseDir volumeDir : string.

Local Abbreviation action :=
  (stageAction os decodeConfig decodeManifest configPath manifestPath baseDir volumeDir).
Local Abbreviation succeed :=
  (stagesSucceed os decodeConfig decodeManifest configPath manifestPath baseDir volumeDir).

Lemma stage_emits_no_run (st : Stage) :
  emits (fun c => isRun c = false) (action st).
Proof.
  destruct st; cbn [stageAction].
  - unfold mountRecPrivate. emits_auto.
  - eapply emits_weaken; [|apply setEnv_emits]. intros c [_ H]. exact H.
  - unfold setLayers, loadManifest, mountOverlayFS. emits_auto.
    + eapply emits_weaken; [|apply (prepareDirs_emits os "overlay")]; [|discriminate].
      intros c [_ H]. exact H.
    + apply setLayers_loop_emits.
  - unfold mountBaseFs, base_mount. emits_auto.
  - unfold mountVolume. emits_auto.
  - unfold chroot. emits_auto.
Qed.

Lemma stagesSucceed_emits_no_run (stages : list Stage) s s' :
  succeed stages s s' ->
  exists evs, trace s' = (trace s ++ evs)%list
              /\ Forall (fun ev => isRun (call ev) = false) evs.
Proof.
  revert s. induction stages as [|st rest IH]; intros s; cbn [stagesSucceed].
  - intros ->. exists []. rewrite app_nil_r. auto.
  - intros (s1 & Hst & Hrest). destruct (IH _ Hrest) as (evs2 & Ht2 & Hf2).
    destruct (stage_emits_no_run st s) as (evs1 & Ht1 & Hf1).
    rewrite Hst in Ht1. cbn [snd] in Ht1.
    exists (evs1 ++ evs2)%list. rewrite Ht2, Ht1, app_assoc. split; [reflexivity|].
    apply Forall_app. auto.
Qed.

(** [childProcess] after stages that succeeded is the rest of
    [childProcess]. *)
Lemma childProcess_fails_at (st : Stage) e s s1 s2 :
  succeed (stagesBefore st) s s1 ->
  action st s1 = (Return (Some e), s2) ->
  childProcess os decodeConfig decodeManifest configPath manifestPath baseDir volumeDir s
  = (Return tt, log s2 (Print (stageLabel st ++ Error e ++ newline)) done).
Proof.
  intros Hbefore Hfail. unfold childProcess.
  destruct st; cbn [stagesBefore stagesSucceed stageAction] in *;
    repeat match goal with
           | H : exists _, _ |- _ => destruct H as (? & ? & ?)
           end; subst;
    repeat match goal with
           | H : _ = (Return None, _) |- _ => rewrite (bind_Return _ _ _ _ _ H); clear H
           end;
    rewrite (bind_Return _ _ _ _ _ Hfail); reflexivity.
Qed.

Lemma childProcess_reaches_shell s s6 :
  succeed allStages s s6 ->
  childProcess os decodeConfig decodeManifest configPath manifestPath baseDir volumeDir s
  = runShell os s6.
Proof.
  intros Hall. unfold childProcess, allStages in *.
  cbn [stagesSucceed stageAction] in Hall.
  repeat match goal with
         | H : exists _, _ |- _ => destruct H as (? & ? & ?)
         end; subst.
  repeat match goal with
         | H : _ = (Return None, _) |- _ => rewrite (bind_Return _ _ _ _ _ H); clear H
         end.
  reflexivity.
Qed.

(** A stage that panics ends [childProcess] there, too. *)
Lemma childProcess_panics_at (st : Stage) msg s s1 s2 :
  succeed (stagesBefore st) s s1 ->
  action st s1 = (Panic msg, s2) ->
  childProcess os decodeConfig decodeManifest configPath manifestPath baseDir volumeDir s
  = (Panic msg, s2).
Proof.
  intros Hbefore Hfail. unfold childProcess.
  destruct st; cbn [stagesBefore stagesSucceed stageAction] in *;
    repeat match goal with
           | H : exists _, _ |- _ => destruct H as (? & ? & ?)
           end; subst;
    repeat match goal with
           | H : _ = (Return None, _) |- _ => rewrite (bind_Return _ _ _ _ _ H); clear H
           end;
    rewrite (bind_Panic _ _ _ _ _ Hfail); reflexivity.
Qed.

(** X19: when a stage of [childProcess] returns an error, the stages before
    it having returned without one, [childProcess] prints that error behind
    the stage's message and returns; nothing is called after that stage, and
    the run has started no process: the shell is not launched. *)
Theorem childProcess_fail_fast (st : Stage) e s s1 s2 :
  succeed (stagesBefore st) s s1 ->
  action st s1 = (Return (Some e), s2) ->
  let run := childProcess os decodeConfig decodeManifest configPath manifestPath baseDir
               volumeDir s in
  fst run = Return tt
  /\ trace (snd run)
     = (trace s2 ++ [{| call := Print (stageLabel st ++ Error e ++ newline);
                        reply := done |}])%list
  /\ exists evs,
      trace (snd run) = (trace s ++ evs)%list
      /\ Forall (fun ev => isRun (call ev) = false) evs.
Proof.
  intros Hbefore Hfail run. unfold run.
  rewrite (childProcess_fails_at st e s s1 s2 Hbefore Hfail).
  split; [reflexivity|]. split; [reflexivity|].
  destruct (stagesSucceed_emits_no_run _ _ _ Hbefore) as (evs1 & Ht1 & Hf1).
  destruct (stage_emits_no_run st s1) as (evs2 & Ht2 & Hf2).
  rewrite Hfail in Ht2. cbn [snd] in Ht2.
  exists (evs1 ++ evs2 ++ [{| call := Print (stageLabel st ++ Error e ++ newline);
                              reply := done |}])%list.
  cbn [snd trace log]. rewrite Ht2, Ht1. repeat rewrite <- app_assoc.
  split; [reflexivity|].
  repeat (apply Forall_app; split); auto.
Qed.

End StageFacts.

(** The run in which the volume directory is missing: the volume stage
    fails, after four stages that succeed. *)
Lemma childProcess_fail_fast_witness :
  let run := childProcess noVolumeWorld demoDecodeConfig demoDecodeManifest
               "/c/config.json" "/c/manifest.json" "/c/overlay" "/c/volume" start in
  let s1 := runStages noVolumeWorld demoDecodeConfig demoDecodeManifest
              "/c/config.json" "/c/manifest.json" "/c/overlay" "/c/volume"
              [RPrivate; SetEnv; SetLayers; BaseFs] start in
  let e := Wrap (PathError "stat" "/c/volume" ENOENT) "volume 目录不存在" in
  fst run = Return tt
  /\ trace (snd run)
     = (trace (log s1 (Stat "/c/volume") (failed (PathError "stat" "/c/volume" ENOENT)))
          ++ [{| call := Print ("挂载 volume 时出错: " ++ Error e ++ newline);
                 reply := done |}])%list
  /\ exists evs,
      trace (snd run) = (trace start ++ evs)%list
      /\ Forall (fun ev => isRun (call ev) = false) evs.
Proof.
  intros run s1 e.
  apply (childProcess_fail_fast noVolumeWorld demoDecodeConfig demoDecodeManifest
           "/c/config.json" "/c/manifest.json" "/c/overlay" "/c/volume" Volume e start s1
           (log s1 (Stat "/c/volume") (failed (PathError "stat" "/c/volume" ENOENT)))).
  - cbn [stagesBefore stagesSucceed].
    do 4 (eexists; split; [vm_compute; reflexivity|]). vm_compute. reflexivity.
  - vm_compute. reflexivity.
Defined.

Example missing_volume_child_run :
  filter isRun
    (map call
       (trace (snd (childProcess noVolumeWorld demoDecodeConfig demoDecodeManifest
                      "/c/config.json" "/c/manifest.json" "/c/overlay" "/c/volume" start))))
  = []
  /\ filter isRun (map call (trace (snd (demoChild start)))) = [Run shellCmd].
Proof. vm_compute. split; reflexivity. Qed.

(** C5 fails on the code: the tmpfs cannot be mounted on the base directory
    during the overlay stage, every other call succeeds.  [setLayers] drops
    the error of [prepareDirs], so [childProcess] prints no error and does
    not stop: after the failed mount it mounts the overlay, carries out the
    three stages that follow and launches the shell. *)
Theorem childProcess_goes_on_after_failed_tmpfs :
  let run := childProcess noTmpfsWorld demoDecodeConfig demoDecodeManifest
               "/c/config.json" "/c/manifest.json" "/c/overlay" "/c/volume" start in
  let failure :=
    {| call := mountCmd ["-t"; "tmpfs"; "tmpfs"; "/c/overlay"];
       reply := {| output := "mount: /c/overlay: permission denied.";
                   err := Some (ExitError 32) |} |} in
  fst run = Return tt
  /\ exists before after,
      trace (snd run) = (before ++ failure :: after)%list
      /\ Forall answered before
      /\ Forall answered after
      /\ map call after
         = [ Print ("mounting overlay filesystem: mount -t overlay overlay -o "
                  ++ "lowerdir=/tmp/proxy_pool/layers/2c3d:/tmp/proxy_pool/layers/0a1b,"
                  ++ "upperdir=/c/overlay/upper,workdir=/c/overlay/work /c/overlay/merged"
                  ++ newline);
           overlayMount ["/tmp/proxy_pool/layers/2c3d"; "/tmp/proxy_pool/layers/0a1b"]
             "/c/overlay/upper" "/c/overlay/work" "/c/overlay/merged";
           Print ("mounting proc filesystem: mount -t proc none /c/overlay/merged/proc" ++ newline);
           mountCmd ["-t"; "proc"; "none"; "/c/overlay/merged/proc"];
           Print ("mounting sys filesystem: mount -t sysfs none /c/overlay/merged/sys" ++ newline);
           mountCmd ["-t"; "sysfs"; "none"; "/c/overlay/merged/sys"];
           Print ("mounting dev filesystem: mount -t devtmpfs devtmpfs /c/overlay/merged/dev" ++ newline);
           mountCmd ["-t"; "devtmpfs"; "devtmpfs"; "/c/overlay/merged/dev"];
           Print ("mounting devpts filesystem: mount -t devpts devpts /c/overlay/merged/dev/pts" ++ newline);
           mountCmd ["-t"; "devpts"; "devpts"; "/c/overlay/merged/dev/pts"];
           Print ("mounting shm filesystem: mount -t tmpfs shm /c/overlay/merged/dev/shm" ++ newline);
           mountCmd ["-t"; "tmpfs"; "shm"; "/c/overlay/merged/dev/shm"];
           Print ("mounting run filesystem: mount -t tmpfs tmpfs /c/overlay/merged/run" ++ newline);
           mountCmd ["-t"; "tmpfs"; "tmpfs"; "/c/overlay/merged/run"];
           Print ("mounting tmp filesystem: mount -t tmpfs tmpfs /c/overlay/merged/tmp" ++ newline);
           mountCmd ["-t"; "tmpfs"; "tmpfs"; "/c/overlay/merged/tmp"];
           Stat "/c/volume";
           MkdirAll "/c/overlay/merged/volume";
           Print ("mounting volume filesystem: mount --bind /c/volume /c/overlay/merged/volume" ++ newline);
           mountCmd ["--bind"; "/c/volume"; "/c/overlay/merged/volume"];
           Print ("change current dir : cd /c/overlay/merged" ++ newline);
           Chdir "/c/overlay/merged";
           Print ("change rootfs: pivot_root . ." ++ newline);
           PivotRoot "." ".";
           Print ("unmounting old root: umount -l ." ++ newline);
           CombinedOutput (Command "umount" ["-l"; "."]);
           Run shellCmd ].
Proof.
  intros run failure. split; [vm_compute; reflexivity|].
  exists (firstn 9 (trace (snd run))), (skipn 10 (trace (snd run))).
  split; [vm_compute; reflexivity|].
  split; [vm_compute; repeat constructor|].
  split; [vm_compute; repeat constructor|].
  vm_compute. reflexivity.
Qed.

(** ** The mount operations of a successful run *)

Lemma mountCalls_app tr1 tr2 : mountCalls (tr1 ++ tr2) = (mountCalls tr1 ++ mountCalls tr2)%list.
Proof. unfold mountCalls. rewrite map_app, filter_app. reflexivity. Qed.

Lemma mountCalls_none evs :
  Forall (fun ev => isMountOp (call ev) = false) evs -> mountCalls evs = [].
Proof.
  induction 1 as [|ev rest Hev _ IH]; [reflexivity|].
  unfold mountCalls in *. simpl. rewrite Hev. exact IH.
Qed.

(** After a piece that makes no mount operation, the mount operations are
    those before it. *)
Lemma mountCalls_emits {A} (m : M A) s :
  emits (fun c => isMountOp c = false) m ->
  mountCalls (trace (snd (m s))) = mountCalls (trace s).
Proof.
  intros Hm. destruct (Hm s) as (evs & -> & Hevs).
  rewrite mountCalls_app, (mountCalls_none _ Hevs), app_nil_r. reflexivity.
Qed.

Ltac run_to_None H :=
  unfold Println, Printf, run_tool, syscall, bind, ret in H;
  repeat match type of H with
         | context [match err ?r with _ => _ end] => destruct (err r) eqn:?
         end;
  try discriminate H;
  injection H as <-; cbn [trace log];
  repeat rewrite mountCalls_app; repeat rewrite <- app_assoc; reflexivity.

Lemma mountRecPrivate_mounts os s s' :
  mountRecPrivate os s = (Return None, s') ->
  mountCalls (trace s') = (mountCalls (trace s) ++ [mountCmd ["--make-rprivate"; "/"]])%list.
Proof. intros H. unfold mountRecPrivate in H. run_to_None H. Qed.

Lemma setEnv_mounts os decodeConfig configPath s s' :
  setEnv os decodeConfig configPath s = (Return None, s') ->
  mountCalls (trace s') = mountCalls (trace s).
Proof.
  intros H. replace s' with (snd (setEnv os decodeConfig configPath s)) by (rewrite H; reflexivity).
  apply mountCalls_emits. eapply emits_weaken; [|apply setEnv_emits]. intros c [Hc _]. exact Hc.
Qed.

(** One mount of [mountBaseFs] that goes through: the mount operation, and
    then the rest. *)
Lemma base_mount_None os what fstype source target rest s s' :
  base_mount os what fstype source target rest s = (Return None, s') ->
  exists s1,
    mountCalls (trace s1)
    = (mountCalls (trace s) ++ [mountCmd ["-t"; fstype; source; target]])%list
    /\ rest s1 = (Return None, s').
Proof.
  intros H. unfold base_mount, Println, run_tool, syscall, bind at 1 2 3, ret in H.
  match type of H with
  | context [match err ?r with _ => _ end] => destruct (err r) eqn:Hr
  end; [discriminate H|].
  eexists. split; [|exact H]. cbn [trace log].
  repeat rewrite mountCalls_app. repeat rewrite <- app_assoc. reflexivity.
Qed.

Lemma mountBaseFs_mounts os targetDir s s' :
  mountBaseFs os targetDir s = (Return None, s') ->
  mountCalls (trace s')
  = (mountCalls (trace s)
       ++ [ mountCmd ["-t"; "proc"; "none"; filepath.Join [targetDir; "proc"]];
            mountCmd ["-t"; "sysfs"; "none"; filepath.Join [targetDir; "sys"]];
            mountCmd ["-t"; "devtmpfs"; "devtmpfs"; filepath.Join [targetDir; "dev"]];
            mountCmd ["-t"; "devpts"; "devpts"; filepath.Join [targetDir; "dev/pts"]];
            mountCmd ["-t"; "tmpfs"; "shm"; filepath.Join [targetDir; "dev/shm"]];
            mountCmd ["-t"; "tmpfs"; "tmpfs"; filepath.Join [targetDir; "run"]];
            mountCmd ["-t"; "tmpfs"; "tmpfs"; filepath.Join [targetDir; "tmp"]] ])%list.
Proof.
  intros H. unfold mountBaseFs in H.
  do 7 (apply base_mount_None in H; destruct H as (? & ? & H)).
  injection H as <-.
  repeat match goal with
         | Hm : mountCalls (trace _) = _ |- _ => rewrite Hm; clear Hm
         end.
  repeat rewrite <- app_assoc. reflexivity.
Qed.

Lemma mountVolume_mounts os volumeDir targetDir s s' :
  mountVolume os volumeDir targetDir s = (Return None, s') ->
  mountCalls (trace s')
  = (mountCalls (trace s) ++ [bindMount volumeDir (filepath.Join [targetDir; "volume"])])%list.
Proof.
  intros H. rewrite mountVolume_run in H. cbv zeta in H.
  destruct (IsNotExist (err (os (trace s) (Stat volumeDir)))) eqn:Hne.
  - destruct (err (os (trace s) (Stat volumeDir))); [discriminate H|discriminate Hne].
  - run_to_None H.
Qed.

Lemma chroot_mounts os targetDir s s' :
  chroot os targetDir s = (Return None, s') ->
  mountCalls (trace s')
  = (mountCalls (trace s) ++ [PivotRoot "." "."; CombinedOutput (Command "umount" ["-l"; "."])])%list.
Proof. intros H. unfold chroot in H. run_to_None H. Qed.

(** When the loop of [setLayers] returns, it has not touched the state and
    has appended the paths of the layers it visited, last first. *)
Lemma setLayers_loop_result layers n acc s l s' :
  (n <= length layers)%nat ->
  setLayers_loop layers n acc s = (Return l, s') ->
  s' = s /\ l = (acc ++ map layerPath (rev (firstn n layers)))%list.
Proof.
  revert acc. induction n as [|i IH]; intros acc Hn H.
  - simpl in H. injection H as <- <-. rewrite app_nil_r. auto.
  - cbn [setLayers_loop] in H.
    destruct (nth_error layers i) as [layer|] eqn:Hi; [|discriminate H].
    unfold index, bind in H.
    destruct (nth_error (strings.Split (Digest layer) ":") 1) as [hex|] eqn:Hhex;
      [|discriminate H].
    cbn [ret] in H. apply IH in H; [|lia]. destruct H as [-> ->]. split; [reflexivity|].
    rewrite (firstn_succ_nth _ _ _ Hi), rev_app_distr, <- app_assoc. cbn [rev app map].
    unfold layerPath at 2, hexOf. rewrite (nth_error_nth _ _ "" Hhex). reflexivity.
Qed.

(** [prepareDirs] first creates the base directory; when that is done, its
    one mount operation is the tmpfs on the base directory. *)
Lemma prepareDirs_mounts os baseDir dirs s :
  let mk := os (trace s) (MkdirAll baseDir) in
  exists evs,
    trace (snd (prepareDirs os baseDir dirs s))
    = (trace s ++ {| call := MkdirAll baseDir; reply := mk |} :: evs)%list
    /\ (err mk = None -> mountCalls evs = [mountCmd ["-t"; "tmpfs"; "tmpfs"; baseDir]]).
Proof.
  intros mk. unfold prepareDirs, bind at 1, syscall at 1. fold mk.
  destruct (err mk) as [e|] eqn:Hmk.
  - exists []. split; [reflexivity|discriminate].
  - unfold mountTmpfs, Println at 1, run_tool, syscall, bind at 1 2 3 4, ret.
    match goal with |- context [match err ?r with _ => _ end] => destruct (err r) end.
    + eexists. cbn [snd trace log]. repeat rewrite <- app_assoc. split; [reflexivity|].
      reflexivity.
    + unfold Println. cbv beta iota.
      match goal with
      | |- context [prepareDirs_loop os dirs ?st] =>
          destruct (prepareDirs_loop_emits os dirs st) as (evs & Ht & Hevs)
      end.
      rewrite Ht. eexists. cbn [trace log]. repeat rewrite <- app_assoc.
      split; [reflexivity|]. intros _. cbn [app].
      match goal with
      | |- mountCalls (?a :: ?b :: ?c :: evs) = _ =>
          change (a :: b :: c :: evs) with ([a; b; c] ++ evs)%list
      end.
      rewrite mountCalls_app, (mountCalls_none evs); [reflexivity|].
      eapply Forall_impl; [|exact Hevs]. intros ev Hc. cbv beta in Hc.
      destruct (call ev); simpl in *; tauto.
Qed.

(** [setLayers] without an error, the base directory created: the manifest
    was read, and the mount operations are the tmpfs on the base directory
    and the overlay on the layers in reverse order. *)
Lemma setLayers_mounts os decodeManifest manifestPath baseDir targetDir s s' :
  setLayers os decodeManifest manifestPath baseDir targetDir s = (Return None, s') ->
  created baseDir (trace s') ->
  exists content layers,
    In {| call := Open manifestPath; reply := {| output := content; err := None |} |}
       (trace s')
    /\ decodeManifest content = inr {| Layers := layers |}
    /\ mountCalls (trace s')
       = (mountCalls (trace s)
            ++ [ mountCmd ["-t"; "tmpfs"; "tmpfs"; baseDir];
                 overlayMount (map layerPath (rev layers))
                   (filepath.Join [baseDir; "upper"]) (filepath.Join [baseDir; "work"])
                   targetDir ])%list.
Proof.
  intros Hrun Hans.
  destruct (os (trace s) (Open manifestPath)) as [content [e|]] eqn:Hopen.
  { unfold setLayers, loadManifest, bind, syscall in Hrun. rewrite Hopen in Hrun.
    discriminate Hrun. }
  destruct (decodeManifest content) as [e|[layers]] eqn:Hdec.
  { unfold setLayers, loadManifest, bind, syscall in Hrun. rewrite Hopen in Hrun.
    cbn [err output] in Hrun. rewrite Hdec in Hrun. discriminate Hrun. }
  exists content, layers.
  assert (Hsplit : forall P Q R : Prop, Q -> P /\ R -> P /\ Q /\ R) by tauto.
  apply Hsplit; [exact Hdec|]. clear Hsplit.
  rewrite (setLayers_loaded os decodeManifest _ baseDir targetDir _ _ _ Hopen Hdec) in Hrun.
  cbv zeta in Hrun. revert Hrun.
  set (s0 := log s _ _).
  set (upperDir := filepath.Join [baseDir; "upper"]).
  set (workDir := filepath.Join [baseDir; "work"]).
  intros Hrun.
  destruct (prepareDirs_mounts os baseDir [upperDir; workDir; targetDir] s0)
    as (evs & Htr & Hmounts).
  destruct (prepareDirs_returns os baseDir [upperDir; workDir; targetDir] s0)
    as (e1 & s1 & Hprep).
  rewrite Hprep in Htr. cbn [snd] in Htr. rewrite (bind_Return _ _ _ _ _ Hprep) in Hrun.
  unfold bind at 1 in Hrun.
  destruct (setLayers_loop layers (length layers) [] s1) as [[lowerDirs|msg|code] s1'] eqn:Hloop;
    try discriminate Hrun.
  apply setLayers_loop_result in Hloop; [|apply le_n]. destruct Hloop as [-> ->].
  rewrite firstn_all in Hrun. cbn [app] in Hrun.
  destruct (mountOverlayFS_trace os (map layerPath (rev layers)) upperDir workDir targetDir s1)
    as (text & r & Hov).
  destruct (mountOverlayFS_returns os (map layerPath (rev layers)) upperDir workDir targetDir s1)
    as (e2 & s2 & Hm).
  rewrite Hm in Hov. cbn [snd] in Hov. rewrite (bind_Return _ _ _ _ _ Hm) in Hrun.
  destruct e2; [discriminate Hrun|]. injection Hrun as <-.
  unfold created in Hans. rewrite Hov, Htr in Hans. rewrite Hov, Htr. split.
  1:{ try subst s0. cbn [trace log]. repeat rewrite <- app_assoc.
      apply in_or_app. right. left. reflexivity. }
  apply Forall_app in Hans. destruct Hans as [Hans _].
  apply Forall_app in Hans. destruct Hans as [_ Hans].
  apply Forall_inv in Hans. specialize (Hans eq_refl).
  unfold answered in Hans. cbn [reply] in Hans.
  specialize (Hmounts Hans).
  change (?a :: evs) with ([a] ++ evs)%list.
  repeat rewrite mountCalls_app. rewrite Hmounts. try subst s0. cbn [trace log].
  rewrite mountCalls_app. repeat rewrite <- app_assoc. reflexivity.
Qed.

Lemma runShell_mounts os s :
  mountCalls (trace (snd (runShell os s))) = mountCalls (trace s).
Proof. apply mountCalls_emits. unfold runShell. emits_auto. Qed.

(** The mount operations of a run of [childProcess] in which every stage
    returns without an error and the base directory is created.  The second
    condition is not part of the first: [setLayers] does not look at what
    [prepareDirs] returns, and [prepareDirs] does not mount the tmpfs when
    it cannot create the base directory. *)
Lemma childProcess_mounts os decodeConfig decodeManifest
        configPath manifestPath baseDir volumeDir s s6 :
  trace s = [] ->
  stagesSucceed os decodeConfig decodeManifest configPath manifestPath baseDir volumeDir
    allStages s s6 ->
  created baseDir (trace s6) ->
  exists content layers,
    In {| call := Open manifestPath; reply := {| output := content; err := None |} |}
       (trace s6)
    /\ decodeManifest content = inr {| Layers := layers |}
    /\ mountCalls
         (trace (snd (childProcess os decodeConfig decodeManifest configPath manifestPath
                        baseDir volumeDir s)))
       = expectedMounts baseDir volumeDir layers.
Proof.
  intros Hstart Hall Hans.
  rewrite (childProcess_reaches_shell _ _ _ _ _ _ _ _ _ Hall), runShell_mounts.
  unfold allStages in Hall. cbn [stagesSucceed stageAction] in Hall.
  destruct Hall as (s1 & H1 & s2 & H2 & s3 & H3 & s4 & H4 & s5 & H5 & s6' & H6 & ->).
  assert (Hrest : stagesSucceed os decodeConfig decodeManifest configPath manifestPath baseDir
                    volumeDir [BaseFs; Volume; Chroot] s3 s6').
  { cbn [stagesSucceed stageAction]. eauto 10. }
  destruct (stagesSucceed_emits_no_run _ _ _ _ _ _ _ _ _ _ Hrest) as (evs & Htr & _).
  assert (Hans3 : created baseDir (trace s3)).
  { unfold created in *. rewrite Htr in Hans. apply Forall_app in Hans. tauto. }
  destruct (setLayers_mounts _ _ _ _ _ _ _ H3 Hans3) as (content & layers & Hin & Hdec & Hm3).
  exists content, layers. split; [|split; [exact Hdec|]].
  - rewrite Htr. apply in_or_app. left. exact Hin.
  - rewrite (chroot_mounts _ _ _ _ H6), (mountVolume_mounts _ _ _ _ _ H5),
      (mountBaseFs_mounts _ _ _ _ H4), Hm3, (setEnv_mounts _ _ _ _ _ H2),
      (mountRecPrivate_mounts _ _ _ H1), Hstart.
    unfold expectedMounts. cbv zeta.
    destruct (merged_subdirs baseDir) as (<- & <- & <- & <- & <- & <- & <- & <-).
    reflexivity.
Qed.

(** C2: on a run of [childProcess] that starts with an empty trace, in
    which every stage returns without an error and every call made by the
    stages is answered without an error, the mount operations are, in order,
    exactly those the specification lists, for the layers read from the
    manifest. *)
Theorem childProcess_mount_sequence os decodeConfig decodeManifest
        configPath manifestPath baseDir volumeDir s s6 :
  trace s = [] ->
  stagesSucceed os decodeConfig decodeManifest configPath manifestPath baseDir volumeDir
    allStages s s6 ->
  Forall answered (trace s6) ->
  exists content layers,
    In {| call := Open manifestPath; reply := {| output := content; err := None |} |}
       (trace s6)
    /\ decodeManifest content = inr {| Layers := layers |}
    /\ mountCalls
         (trace (snd (childProcess os decodeConfig decodeManifest configPath manifestPath
                        baseDir volumeDir s)))
       = expectedMounts baseDir volumeDir layers.
Proof.
  intros Hstart Hall Hans.
  apply (childProcess_mounts os decodeConfig decodeManifest configPath manifestPath baseDir
           volumeDir s s6 Hstart Hall).
  unfold created. eapply Forall_impl; [|exact Hans]. intros ev Hev _. exact Hev.
Qed.

Lemma childProcess_mount_sequence_witness :
  exists content layers,
    In {| call := Open "/c/manifest.json"; reply := {| output := content; err := None |} |}
       (trace demoStagesDone)
    /\ demoDecodeManifest content = inr {| Layers := layers |}
    /\ mountCalls (trace (snd (demoChild start))) = expectedMounts "/c/overlay" "/c/volume" layers.
Proof.
  apply (childProcess_mount_sequence okWorld demoDecodeConfig demoDecodeManifest
           "/c/config.json" "/c/manifest.json" "/c/overlay" "/c/volume" start demoStagesDone).
  - reflexivity.
  - cbn [allStages stagesSucceed].
    do 6 (eexists; split; [vm_compute; reflexivity|]). vm_compute. reflexivity.
  - vm_compute. repeat constructor.
Defined.

Example demo_mount_sequence :
  mountCalls (trace (snd (demoChild start)))
  = [ mountCmd ["--make-rprivate"; "/"];
      mountCmd ["-t"; "tmpfs"; "tmpfs"; "/c/overlay"];
      mountCmd ["-t"; "overlay"; "overlay"; "-o";
                "lowerdir=/tmp/proxy_pool/layers/2c3d:/tmp/proxy_pool/layers/0a1b,upperdir=/c/overlay/upper,workdir=/c/overlay/work";
                "/c/overlay/merged"];
      mountCmd ["-t"; "proc"; "none"; "/c/overlay/merged/proc"];
      mountCmd ["-t"; "sysfs"; "none"; "/c/overlay/merged/sys"];
      mountCmd ["-t"; "devtmpfs"; "devtmpfs"; "/c/overlay/merged/dev"];
      mountCmd ["-t"; "devpts"; "devpts"; "/c/overlay/merged/dev/pts"];
      mountCmd ["-t"; "tmpfs"; "shm"; "/c/overlay/merged/dev/shm"];
      mountCmd ["-t"; "tmpfs"; "tmpfs"; "/c/overlay/merged/run"];
      mountCmd ["-t"; "tmpfs"; "tmpfs"; "/c/overlay/merged/tmp"];
      mountCmd ["--bind"; "/c/volume"; "/c/overlay/merged/volume"];
      PivotRoot "." ".";
      CombinedOutput (Command "umount" ["-l"; "."]) ].
Proof. vm_compute. reflexivity. Qed.

(** The run in which the base directory cannot be created: [setLayers]
    drops the error, every stage returns without one, the shell is
    launched, and the tmpfs mount is missing from the mount operations. *)
Example no_base_dir_child_run :
  let run := childProcess noBaseDirWorld demoDecodeConfig demoDecodeManifest
               "/c/config.json" "/c/manifest.json" "/c/overlay" "/c/volume" start in
  filter isRun (map call (trace (snd run))) = [Run shellCmd]
  /\ mountCalls (trace (snd run))
     = [ mountCmd ["--make-rprivate"; "/"];
         overlayMount ["/tmp/proxy_pool/layers/2c3d"; "/tmp/proxy_pool/layers/0a1b"]
           "/c/overlay/upper" "/c/overlay/work" "/c/overlay/merged";
         mountCmd ["-t"; "proc"; "none"; "/c/overlay/merged/proc"];
         mountCmd ["-t"; "sysfs"; "none"; "/c/overlay/merged/sys"];
         mountCmd ["-t"; "devtmpfs"; "devtmpfs"; "/c/overlay/merged/dev"];
         mountCmd ["-t"; "devpts"; "devpts"; "/c/overlay/merged/dev/pts"];
         mountCmd ["-t"; "tmpfs"; "shm"; "/c/overlay/merged/dev/shm"];
         mountCmd ["-t"; "tmpfs"; "tmpfs"; "/c/overlay/merged/run"];
         mountCmd ["-t"; "tmpfs"; "tmpfs"; "/c/overlay/merged/tmp"];
         mountCmd ["--bind"; "/c/volume"; "/c/overlay/merged/volume"];
         PivotRoot "." ".";
         CombinedOutput (Command "umount" ["-l"; "."]) ].
Proof. vm_compute. split; reflexivity. Qed.

(** ** Plans carried out failing fast *)

Lemma followsPlan_ext plan (m m' : M (option error)) :
  (forall s, m s = m' s) -> followsPlan plan m -> followsPlan plan m'.
Proof. intros Heq Hm s. rewrite <- Heq. apply Hm. Qed.

Lemma bind_assoc {A B C} (m : M A) (k : A -> M B) (h : B -> M C) s :
  bind (bind m k) h s = bind m (fun a => bind (k a) h) s.
Proof. unfold bind. destruct (m s) as [[a|msg|code] s1]; reflexivity. Qed.

Lemma followsPlan_done : followsPlan [] (ret None).
Proof.
  intros s. exists None, []. split.
  - unfold ret. rewrite app_nil_r. destruct s; reflexivity.
  - unfold failsFast. simpl. repeat split; auto. discriminate.
Qed.

Lemma followsPlan_print plan ops m :
  followsPlan plan m -> followsPlan plan (Println ops ;;; m).
Proof.
  intros Hm s. unfold bind, Println.
  destruct (Hm (log s (Print (strings.Join ops " " ++ newline)) done))
    as (result & evs & Hrun & Hff).
  exists result, ({| call := Print (strings.Join ops " " ++ newline); reply := done |} :: evs).
  split.
  - rewrite Hrun. cbn [trace environ log]. rewrite <- app_assoc. reflexivity.
  - exact Hff.
Qed.

Lemma failsFast_failed c plan ev result e0 e :
  isPrintCall c = false -> call ev = c -> err (reply ev) = Some e0 ->
  result = Some e -> Cause e = Cause e0 ->
  failsFast (c :: plan) [ev] result.
Proof.
  intros Hc Hcall Herr -> Hcause. unfold failsFast, systemEvents. cbn [filter].
  rewrite Hcall, Hc. cbn [negb map length firstn removelast]. rewrite Hcall.
  split; [reflexivity|]. split; [constructor|]. split.
  - split; [discriminate|]. intros [_ Hans]. apply Forall_inv in Hans.
    unfold answered in Hans. congruence.
  - intros e' [= <-]. exists [], ev, e0. auto.
Qed.

Lemma failsFast_step c plan ev evs result :
  isPrintCall c = false -> call ev = c -> answered ev ->
  failsFast plan evs result ->
  failsFast (c :: plan) (ev :: evs) result.
Proof.
  intros Hc Hcall Hans (Hpre & Hrm & Hiff & Herr). unfold failsFast, systemEvents in *.
  cbn [filter]. rewrite Hcall, Hc. cbn [negb].
  set (made := filter _ evs) in *. cbn [map length firstn]. rewrite Hcall, <- Hpre.
  split; [reflexivity|]. split; [|split].
  - destruct made as [|m1 made']; [constructor|].
    change (removelast (ev :: m1 :: made')) with (ev :: removelast (m1 :: made')).
    constructor; assumption.
  - rewrite Hiff. split.
    + intros [-> Hall]. split; [congruence|]. constructor; assumption.
    + intros [Heq Hall]. injection Heq as Heq. apply Forall_inv_tail in Hall. auto.
  - intros e He. destruct (Herr e He) as (before & ev' & e0 & -> & He0 & Hcause).
    exists (ev :: before), ev', e0. auto.
Qed.

(** A call of the plan made directly: its error ends the run, wrapped. *)
Lemma followsPlan_call os c plan (wrap : error -> Reply -> error) rest :
  isPrintCall c = false ->
  (forall e r, Cause (wrap e r) = Cause e) ->
  followsPlan plan rest ->
  followsPlan (c :: plan)
    (r <- syscall os c ;;
     match err r with
     | Some e => ret (Some (wrap e r))
     | None => rest
     end).
Proof.
  intros Hc Hwrap Hrest s. unfold bind, syscall.
  set (r := os (trace s) c). destruct (err r) as [e|] eqn:Hr.
  - exists (Some (wrap e r)), [{| call := c; reply := r |}]. split; [reflexivity|].
    eapply failsFast_failed; eauto.
  - destruct (Hrest (log s c r)) as (result & evs & Hrun & Hff).
    exists result, ({| call := c; reply := r |} :: evs). split.
    + rewrite Hrun. cbn [trace environ log]. rewrite <- app_assoc. reflexivity.
    + apply failsFast_step; auto.
Qed.

(** A call of the plan made through an external command. *)
Lemma followsPlan_tool os label name arg plan (wrap : error -> error) rest :
  (forall e, Cause (wrap e) = Cause e) ->
  followsPlan plan rest ->
  followsPlan (CombinedOutput (Command name arg) :: plan)
    (e <- run_tool os label name arg ;;
     match e with
     | Some e' => ret (Some (wrap e'))
     | None => rest
     end).
Proof.
  intros Hwrap Hrest.
  eapply followsPlan_ext;
    [|apply (followsPlan_call os (CombinedOutput (Command name arg)) plan
               (fun e r => wrap (Wrap e (label ++ " output: " ++ output r))) rest);
      [reflexivity| |exact Hrest]].
  - intros s. unfold run_tool. rewrite bind_assoc. unfold bind, syscall.
    destruct (err (os (trace s) (CombinedOutput (Command name arg)))); reflexivity.
  - intros e r. rewrite Hwrap. reflexivity.
Qed.

Lemma followsPlan_last_tool os label name arg :
  followsPlan [CombinedOutput (Command name arg)] (run_tool os label name arg).
Proof.
  eapply followsPlan_ext;
    [|apply (followsPlan_tool os label name arg [] (fun e => e) (ret None));
      [reflexivity|apply followsPlan_done]].
  intros s. unfold bind. destruct (run_tool os label name arg s) as [[[e|]|msg|code] s1];
    reflexivity.
Qed.

Lemma prepareDirs_loop_follows os dirs :
  followsPlan (map MkdirAll dirs) (prepareDirs_loop os dirs).
Proof.
  induction dirs as [|dir rest IH]; cbn [prepareDirs_loop map].
  - apply followsPlan_done.
  - apply (followsPlan_call os (MkdirAll dir) (map MkdirAll rest)
             (fun e _ => Wrap e ("创建 " ++ dir ++ " 目录时出错"))); auto.
Qed.

(** X1: [prepareDirs] creates the base directory, mounts the tmpfs on it and
    creates the directories of the list, in this order, and stops at the
    first of these calls that fails: a directory of the list is created only
    after the tmpfs is mounted. *)
Theorem prepareDirs_fails_fast os baseDir dirs :
  followsPlan
    (MkdirAll baseDir :: mountCmd ["-t"; "tmpfs"; "tmpfs"; baseDir] :: map MkdirAll dirs)
    (prepareDirs os baseDir dirs).
Proof.
  unfold prepareDirs.
  apply (followsPlan_call os (MkdirAll baseDir) _ (fun e _ => Wrap e "创建 base 目录时出错"));
    auto.
  unfold mountTmpfs.
  eapply followsPlan_ext.
  2:{ apply followsPlan_print.
      apply (followsPlan_tool os "mount" "mount" ["-t"; "tmpfs"; "tmpfs"; baseDir]
               (map MkdirAll dirs) (fun e => Wrap e "挂载 tmpfs 时出错")); [reflexivity|].
      apply followsPlan_print. apply prepareDirs_loop_follows. }
  intros s. rewrite bind_assoc. reflexivity.
Qed.

Lemma base_mount_follows os what fstype source target plan rest :
  followsPlan plan rest ->
  followsPlan (mountCmd ["-t"; fstype; source; target] :: plan)
    (base_mount os what fstype source target rest).
Proof.
  intros Hrest. unfold base_mount. apply followsPlan_print.
  apply (followsPlan_tool os "mount" "mount" ["-t"; fstype; source; target] plan (fun e => e));
    [reflexivity|exact Hrest].
Qed.

(** X2: [mountBaseFs] mounts proc, sys, dev, dev/pts, dev/shm, run and tmp in
    this order and stops at the first mount that fails. *)
Theorem mountBaseFs_fails_fast os targetDir :
  followsPlan
    [ mountCmd ["-t"; "proc"; "none"; filepath.Join [targetDir; "proc"]];
      mountCmd ["-t"; "sysfs"; "none"; filepath.Join [targetDir; "sys"]];
      mountCmd ["-t"; "devtmpfs"; "devtmpfs"; filepath.Join [targetDir; "dev"]];
      mountCmd ["-t"; "devpts"; "devpts"; filepath.Join [targetDir; "dev/pts"]];
      mountCmd ["-t"; "tmpfs"; "shm"; filepath.Join [targetDir; "dev/shm"]];
      mountCmd ["-t"; "tmpfs"; "tmpfs"; filepath.Join [targetDir; "run"]];
      mountCmd ["-t"; "tmpfs"; "tmpfs"; filepath.Join [targetDir; "tmp"]] ]
    (mountBaseFs os targetDir).
Proof.
  unfold mountBaseFs. repeat apply base_mount_follows. apply followsPlan_done.
Qed.

(** X3: [chroot] changes to the target directory, pivots the root and
    unmounts the old root, in this order, and stops at the first failure. *)
Theorem chroot_fails_fast os targetDir :
  followsPlan
    [Chdir targetDir; PivotRoot "." "."; CombinedOutput (Command "umount" ["-l"; "."])]
    (chroot os targetDir).
Proof.
  unfold chroot. apply followsPlan_print.
  apply (followsPlan_call os (Chdir targetDir) _ (fun e _ => Wrap e "chdir 时出错")); auto.
  apply followsPlan_print.
  apply (followsPlan_call os (PivotRoot "." ".") _ (fun e _ => Wrap e "pivot_root 时出错")); auto.
  apply followsPlan_print. apply followsPlan_last_tool.
Qed.

(** ** The order of a run of the child *)

Section StageOrder.

Variable os : World.
Variable decodeConfig : string -> error + Config.
Variable decodeManifest : string -> error + Manifest.
Variables configPath manifestPath baseDir volumeDir : string.

Local Abbreviation action :=
  (stageAction os decodeConfig decodeManifest configPath manifestPath baseDir volumeDir).
Local Abbreviation succeed :=
  (stagesSucceed os decodeConfig decodeManifest configPath manifestPath baseDir volumeDir).
Local Abbreviation child :=
  (childProcess os decodeConfig decodeManifest configPath manifestPath baseDir volumeDir).

(** Only the environment stage sets variables. *)
Lemma stage_emits_no_setenv (st : Stage) :
  st <> SetEnv -> emits notSetenv (action st).
Proof.
  intros Hst. unfold notSetenv.
  destruct st; cbn [stageAction]; try contradiction.
  - unfold mountRecPrivate. emits_auto.
  - unfold setLayers, loadManifest, mountOverlayFS. emits_auto.
    + unfold prepareDirs, mountTmpfs. emits_auto.
      eapply emits_weaken; [|apply prepareDirs_loop_emits]. intros [] H; simpl in *; tauto.
    + apply setLayers_loop_emits.
  - unfold mountBaseFs, base_mount. emits_auto.
  - unfold mountVolume. emits_auto.
  - unfold chroot. emits_auto.
Qed.

(** X4: in every run of [childProcess], whatever fails, the first call is the
    remount of the root as recursively private; the environment variables
    are set after it and before any other mount operation. *)
Theorem childProcess_private_then_env s :
  exists text r envPart rest,
    trace (snd (child s))
    = (trace s
         ++ [ {| call := Print text; reply := done |};
              {| call := mountCmd ["--make-rprivate"; "/"]; reply := r |} ]
         ++ envPart ++ rest)%list
    /\ Forall (fun ev => isMountOp (call ev) = false) envPart
    /\ Forall (fun ev => notSetenv (call ev)) rest.
Proof.
  unfold childProcess.
  match goal with |- context [bind (mountRecPrivate os) ?k] => set (K1 := k) end.
  unfold bind at 1, mountRecPrivate, Println, run_tool, syscall, bind at 1 2.
  set (s1 := log s _ done).
  set (c := CombinedOutput (Command "mount" ["--make-rprivate"; "/"])).
  set (r := os (trace s1) c).
  exists (strings.Join ["mounting recursive private: mount --make-rprivate /"] " " ++ newline), r.
  destruct (err r) as [e|] eqn:Hr; cbn [ret].
  - eexists [], [_]. subst K1. cbn [snd trace log Printf]. subst s1. cbn [trace log].
    repeat rewrite <- app_assoc. split; [reflexivity|]. split; [constructor|].
    repeat constructor. intros H. exact H.
  - subst K1. cbv beta iota.
    match goal with |- context [bind (setEnv os decodeConfig configPath) ?k] => set (K2 := k) end.
    destruct (setEnv_emits os decodeConfig configPath (log s1 c r)) as (evs & Htr & Hevs).
    assert (HK2 : forall e2, emits notSetenv (K2 e2)).
    { intros e2. subst K2. unfold notSetenv. emits_auto.
      - apply (stage_emits_no_setenv SetLayers). discriminate.
      - apply (stage_emits_no_setenv BaseFs). discriminate.
      - apply (stage_emits_no_setenv Volume). discriminate.
      - apply (stage_emits_no_setenv Chroot). discriminate. }
    unfold bind at 1.
    destruct (setEnv os decodeConfig configPath (log s1 c r)) as [[e2|msg|code] s2] eqn:Henv;
      cbn [snd] in Htr.
    + destruct (HK2 e2 s2) as (rest & Hrest & Hnone).
      exists evs, rest. rewrite Hrest, Htr. subst s1. cbn [trace log].
      repeat rewrite <- app_assoc. split; [reflexivity|]. split; [|exact Hnone].
      eapply Forall_impl; [|exact Hevs]. intros ev [H _]. exact H.
    + exists evs, []. cbn [snd]. rewrite Htr. subst s1. cbn [trace log].
      repeat rewrite <- app_assoc. rewrite app_nil_r. split; [reflexivity|].
      split; [|constructor]. eapply Forall_impl; [|exact Hevs]. intros ev [H _]. exact H.
    + exists evs, []. cbn [snd]. rewrite Htr. subst s1. cbn [trace log].
      repeat rewrite <- app_assoc. rewrite app_nil_r. split; [reflexivity|].
      split; [|constructor]. eapply Forall_impl; [|exact Hevs]. intros ev [H _]. exact H.
Qed.

Lemma childProcess_exits_at (st : Stage) code s s1 s2 :
  succeed (stagesBefore st) s s1 ->
  action st s1 = (Exit code, s2) ->
  child s = (Exit code, s2).
Proof.
  intros Hbefore Hfail. unfold childProcess.
  destruct st; cbn [stagesBefore stagesSucceed stageAction] in *;
    repeat match goal with
           | H : exists _, _ |- _ => destruct H as (? & ? & ?)
           end; subst;
    repeat match goal with
           | H : _ = (Return None, _) |- _ => rewrite (bind_Return _ _ _ _ _ H); clear H
           end;
    rewrite (bind_Exit _ _ _ _ _ Hfail); reflexivity.
Qed.

(** A stage that does not return [nil] ends the run without a shell. *)
Lemma childProcess_ends_without_shell (st : Stage) o s s1 s2 :
  Forall (fun ev => isRun (call ev) = false) (trace s) ->
  succeed (stagesBefore st) s s1 ->
  action st s1 = (o, s2) ->
  o <> Return None ->
  Forall (fun ev => isRun (call ev) = false) (trace (snd (child s))).
Proof.
  intros Hs Hbefore Hst Ho.
  destruct (stagesSucceed_emits_no_run _ _ _ _ _ _ _ _ _ _ Hbefore) as (evs1 & Ht1 & Hf1).
  destruct (stage_emits_no_run os decodeConfig decodeManifest configPath manifestPath baseDir
              volumeDir st s1) as (evs2 & Ht2 & Hf2).
  rewrite Hst in Ht2. cbn [snd] in Ht2.
  assert (Hs2 : Forall (fun ev => isRun (call ev) = false) (trace s2)).
  { rewrite Ht2, Ht1. repeat (apply Forall_app; split); assumption. }
  destruct o as [[e|]|msg|code].
  - rewrite (childProcess_fails_at _ _ _ _ _ _ _ st e s s1 s2 Hbefore Hst).
    cbn [snd trace log]. apply Forall_app. split; [exact Hs2|repeat constructor].
  - contradiction.
  - rewrite (childProcess_panics_at _ _ _ _ _ _ _ st msg s s1 s2 Hbefore Hst). exact Hs2.
  - rewrite (childProcess_exits_at st code s s1 s2 Hbefore Hst). exact Hs2.
Qed.

Lemma outcome_nil_or_not (o : Outcome (option error)) : o = Return None \/ o <> Return None.
Proof. destruct o as [[e|]|msg|code]; (left; reflexivity) || (right; discriminate). Qed.

(** X5: a process is started by [childProcess] only when all six stages have
    returned without an error; it is the shell [/bin/sh] with the standard
    streams of the child and no new namespace, started after the last
    stage, and only a message can follow it. *)
Theorem shell_needs_all_stages s ev :
  Forall (fun e => isRun (call e) = false) (trace s) ->
  In ev (trace (snd (child s))) ->
  isRun (call ev) = true ->
  call ev
  = Run {| Path := "/bin/sh"; Args := ["/bin/sh"];
           cmd_Stdin := Some Stdin; cmd_Stdout := Some Stdout; cmd_Stderr := Some Stderr;
           Cloneflags := 0 |}
  /\ exists s6 tail,
      succeed allStages s s6
      /\ trace (snd (child s)) = (trace s6 ++ ev :: tail)%list
      /\ Forall (fun e => isPrintCall (call e) = true) tail.
Proof.
  intros Hs Hin Hrun.
  assert (Hshell : forall st o s1 s2,
             succeed (stagesBefore st) s s1 -> action st s1 = (o, s2) ->
             o = Return None).
  { intros st o s1 s2 Hbefore Hst. destruct (outcome_nil_or_not o) as [Ho|Ho]; [exact Ho|].
    exfalso. pose proof (childProcess_ends_without_shell st o s s1 s2 Hs Hbefore Hst Ho) as Hno.
    rewrite Forall_forall in Hno. rewrite (Hno ev Hin) in Hrun. discriminate. }
  destruct (action RPrivate s) as [o1 s1] eqn:H1.
  assert (o1 = Return None) by (apply (Hshell RPrivate o1 s s1); [reflexivity|exact H1]).
  subst o1.
  destruct (action SetEnv s1) as [o2 s2] eqn:H2.
  assert (o2 = Return None)
    by (apply (Hshell SetEnv o2 s1 s2); [cbn [stagesBefore stagesSucceed]; eauto 10|exact H2]).
  subst o2.
  destruct (action SetLayers s2) as [o3 s3] eqn:H3.
  assert (o3 = Return None)
    by (apply (Hshell SetLayers o3 s2 s3); [cbn [stagesBefore stagesSucceed]; eauto 10|exact H3]).
  subst o3.
  destruct (action BaseFs s3) as [o4 s4] eqn:H4.
  assert (o4 = Return None)
    by (apply (Hshell BaseFs o4 s3 s4); [cbn [stagesBefore stagesSucceed]; eauto 10|exact H4]).
  subst o4.
  destruct (action Volume s4) as [o5 s5] eqn:H5.
  assert (o5 = Return None)
    by (apply (Hshell Volume o5 s4 s5); [cbn [stagesBefore stagesSucceed]; eauto 10|exact H5]).
  subst o5.
  destruct (action Chroot s5) as [o6 s6] eqn:H6.
  assert (o6 = Return None)
    by (apply (Hshell Chroot o6 s5 s6); [cbn [stagesBefore stagesSucceed]; eauto 12|exact H6]).
  subst o6.
  assert (Hall : succeed allStages s s6).
  { unfold allStages. cbn [stagesSucceed]. eauto 15. }
  destruct (stagesSucceed_emits_no_run _ _ _ _ _ _ _ _ _ _ Hall) as (evs & Ht & Hf).
  rewrite (childProcess_reaches_shell _ _ _ _ _ _ _ _ _ Hall) in Hin |- *.
  unfold runShell, syscall, Printf, bind in Hin |- *.
  set (r := os (trace s6) (Run shellCmd)) in *.
  assert (Hev : ev = {| call := Run shellCmd; reply := r |}).
  { assert (Hold : ~ In ev (trace s6)).
    { intros Hold. rewrite Ht in Hold. apply in_app_or in Hold.
      rewrite Forall_forall in Hs, Hf. destruct Hold as [Hold|Hold];
        [rewrite (Hs ev Hold) in Hrun|rewrite (Hf ev Hold) in Hrun]; discriminate. }
    destruct (err r); cbn [snd trace log ret] in Hin;
      repeat (apply in_app_or in Hin; destruct Hin as [Hin|Hin]; [try contradiction|]);
      try (apply in_app_or in Hin; destruct Hin as [Hin|Hin]);
      try contradiction;
      repeat (destruct Hin as [Hin|Hin]; [subst ev; try discriminate Hrun; try reflexivity|]);
      try contradiction. }
  subst ev. split; [reflexivity|].
  exists s6. destruct (err r) as [e|]; cbn [snd trace log ret].
  - eexists [_]. split; [exact Hall|]. rewrite <- app_assoc. split; [reflexivity|].
    repeat constructor.
  - exists []. split; [exact Hall|]. split; [reflexivity|constructor].
Qed.

End StageOrder.

(** ** Descriptors, entries and digests *)

(** X6: when [config.json] cannot be opened or decoded, [setEnv] returns that
    error wrapped, having only tried to open the file: no variable is set. *)
Theorem setEnv_config_unreadable os decodeConfig configPath s e :
  unreadable decodeConfig (os (trace s) (Open configPath)) e ->
  setEnv os decodeConfig configPath s
  = (Return (Some (Wrap e "读取 config.json 时出错")),
     {| trace := trace s ++ [{| call := Open configPath;
                                reply := os (trace s) (Open configPath) |}];
        environ := environ s |}).
Proof.
  intros Hbad. unfold setEnv, loadConfig, bind, syscall.
  destruct Hbad as [Hopen|[Hopen Hdec]]; rewrite Hopen; [reflexivity|].
  rewrite Hdec. reflexivity.
Qed.

Lemma Split_two (a b : string) (sep : ascii) :
  strings.ContainsByte a sep = false -> strings.ContainsByte b sep = false ->
  strings.Split (a ++ String sep b) sep = [a; b].
Proof.
  intros Ha Hb. rewrite Split_app, (Split_no_sep _ _ Ha), (Split_no_sep _ _ Hb). reflexivity.
Qed.

(** [SplitN] with 2 cuts at the first separator, whatever comes after it. *)
Lemma SplitN2_cut (key value : string) (sep : ascii) :
  strings.ContainsByte key sep = false ->
  strings.SplitN2 (key ++ String sep value) sep = [key; value].
Proof.
  induction key as [|c key IH]; simpl; intros H.
  - rewrite Ascii.eqb_refl. reflexivity.
  - apply orb_false_iff in H. destruct H as [Hc Hkey]. rewrite Hc, (IH Hkey). reflexivity.
Qed.

Lemma ContainsByte_app (a b : string) (c : ascii) :
  strings.ContainsByte (a ++ b) c = strings.ContainsByte a c || strings.ContainsByte b c.
Proof.
  induction a as [|x a IH]; simpl; [reflexivity|]. rewrite IH, orb_assoc. reflexivity.
Qed.

(** X7: an entry is cut at its first equals sign only: [KEY=VALUE] binds
    [KEY] to the whole of [VALUE], equals signs included, and [setEnv] goes
    on with the next entry. *)
Theorem setEnv_cuts_at_first_equals key value rest s :
  strings.ContainsByte key "=" = false ->
  setenv_valid key value = true ->
  let s' := {| trace := trace s ++ [{| call := Setenv key value; reply := done |}];
               environ := env_set (environ s) key value |} in
  setEnv_loop ((key ++ "=" ++ value) :: rest) s = setEnv_loop rest s'
  /\ env_get (environ s') key = Some value.
Proof.
  intros Hkey Hvalid s'. split; [|apply env_get_set_same].
  assert (Hcut := SplitN2_cut key value "=" Hkey).
  change (key ++ String "=" value) with (key ++ "=" ++ value) in Hcut.
  rewrite setEnv_loop_step.
  - unfold applyEntry, envKey, envValue. rewrite Hcut. reflexivity.
  - unfold applicable, envKey, envValue. rewrite Hcut. cbn [nth].
    rewrite Hvalid, ContainsByte_app. simpl. rewrite orb_true_r. reflexivity.
Qed.

(** X8: an entry with an equals sign that [os.Setenv] refuses (an empty
    name, a NUL byte) ends [setEnv] with the wrapped error of [os.Setenv];
    the entries before it stay applied and no entry after it is applied. *)
Theorem setEnv_stops_at_refused pre bad post s :
  forallb applicable pre = true ->
  strings.ContainsByte bad "=" = true ->
  setenv_valid (envKey bad) (envValue bad) = false ->
  setEnv_loop (pre ++ bad :: post) s
  = (Return (Some (Wrap (SyscallError "setenv" EINVAL) "设置环境变量时出错")),
     log (fold_left applyEntry pre s) (Setenv (envKey bad) (envValue bad))
         (failed (SyscallError "setenv" EINVAL))).
Proof.
  intros Hpre Hsep Hbad. rewrite (setEnv_loop_prefix pre (bad :: post) s Hpre).
  generalize (fold_left applyEntry pre s). intros s1.
  unfold envKey, envValue in *. cbn [setEnv_loop].
  destruct (SplitN2_with_sep _ _ Hsep) as (k & v & Hs & _). rewrite Hs in *.
  cbn [length Nat.eqb negb index nth_error nth] in *.
  unfold bind, ret, os_Setenv. rewrite Hbad. reflexivity.
Qed.

Lemma mountOverlayFS_run os lowerDirs upperDir workDir targetDir s :
  let options := "lowerdir=" ++ strings.Join lowerDirs ":" ++ ",upperdir=" ++ upperDir
                 ++ ",workdir=" ++ workDir in
  let text := strings.Join ["mounting overlay filesystem: mount -t overlay overlay -o";
                            options; targetDir] " " ++ newline in
  let s1 := log s (Print text) done in
  let c := overlayMount lowerDirs upperDir workDir targetDir in
  let r := os (trace s1) c in
  mountOverlayFS os lowerDirs upperDir workDir targetDir s
  = (Return match err r with
            | Some e => Some (Wrap e ("mount output: " ++ output r))
            | None => None
            end, log s1 c r).
Proof.
  cbv zeta. unfold mountOverlayFS, run_tool, Println, syscall, bind, overlayMount.
  match goal with |- context [err ?r] => destruct (err r) end; reflexivity.
Qed.

(** X9: what [setLayers] returns.  When the manifest cannot be opened or
    decoded, it is that error wrapped, and nothing else was called: no
    directory created, nothing mounted.  When the manifest is read and its
    digests have a colon, the last call is the overlay mount, and the result
    is that mount's: [nil], or its error wrapped with the command's output. *)
Theorem setLayers_result os decodeManifest manifestPath baseDir targetDir s :
  let r0 := os (trace s) (Open manifestPath) in
  (forall e,
      unreadable decodeManifest r0 e ->
      setLayers os decodeManifest manifestPath baseDir targetDir s
      = (Return (Some (Wrap e "读取 manifest.json 时出错")),
         {| trace := trace s ++ [{| call := Open manifestPath; reply := r0 |}];
            environ := environ s |}))
  /\ (forall layers,
         err r0 = None ->
         decodeManifest (output r0) = inr {| Layers := layers |} ->
         forallb wellFormed layers = true ->
         exists before r,
           trace (snd (setLayers os decodeManifest manifestPath baseDir targetDir s))
           = (before
                ++ [{| call := overlayMount (map layerPath (rev layers))
                                 (filepath.Join [baseDir; "upper"])
                                 (filepath.Join [baseDir; "work"]) targetDir;
                       reply := r |}])%list
           /\ fst (setLayers os decodeManifest manifestPath baseDir targetDir s)
              = Return match err r with
                       | Some e =>
                           Some (Wrap (Wrap e ("mount output: " ++ output r))
                                      "挂载 overlay 文件系统时出错")
                       | None => None
                       end).
Proof.
  intros r0. split.
  - intros e Hbad. unfold setLayers, loadManifest, bind, syscall. fold r0.
    destruct Hbad as [Hopen|[Hopen Hdec]]; rewrite Hopen; [reflexivity|].
    rewrite Hdec. reflexivity.
  - intros layers Hopen Hdec Hwf.
    assert (Hr0 : os (trace s) (Open manifestPath) = {| output := output r0; err := None |}).
    { fold r0. destruct r0 as [out er]. simpl in *. subst er. reflexivity. }
    rewrite (setLayers_after_prepareDirs os decodeManifest manifestPath baseDir targetDir s
               (output r0) layers Hr0 Hdec Hwf).
    cbv zeta. set (s1 := snd (prepareDirs _ _ _ _)).
    pose proof (mountOverlayFS_run os (map layerPath (rev layers))
                  (filepath.Join [baseDir; "upper"]) (filepath.Join [baseDir; "work"])
                  targetDir s1) as Hrun.
    cbv zeta in Hrun.
    set (s2 := log s1 (Print _) done) in Hrun.
    set (c := overlayMount _ _ _ _) in Hrun.
    set (r := os (trace s2) c) in Hrun.
    unfold bind. rewrite Hrun. exists (trace s2), r.
    split; destruct (err r); reflexivity.
Qed.

(** The layer cache root as a cleaned path. *)
Lemma layersRoot_stack :
  cleanStack true ["layers"; "proxy_pool"; "tmp"]
  /\ layersRoot = render true ["layers"; "proxy_pool"; "tmp"].
Proof.
  split; [|reflexivity].
  repeat (apply cs_plain; [repeat split; discriminate|]).
  apply cs_dots; [constructor|reflexivity].
Qed.

(** X10: for a digest [algorithm:hex] whose hex part is a plain file name, the
    directory of the layer is that name under the layer cache root; what
    follows a second colon in a digest is ignored. *)
Theorem layerPath_of_digest algorithm hex mediaType size :
  strings.ContainsByte algorithm ":" = false ->
  strings.ContainsByte hex ":" = false ->
  plainElem hex ->
  layerPath {| Digest := algorithm ++ ":" ++ hex; MediaType := mediaType; Size := size |}
  = "/tmp/proxy_pool/layers/" ++ hex
  /\ forall more,
      hexOf (algorithm ++ ":" ++ hex ++ ":" ++ more) = hex.
Proof.
  intros Halg Hhex Hplain.
  assert (Hof : hexOf (algorithm ++ ":" ++ hex) = hex).
  { unfold hexOf. change (algorithm ++ ":" ++ hex) with (algorithm ++ String ":" hex).
    rewrite (Split_two _ _ _ Halg Hhex). reflexivity. }
  split.
  - unfold layerPath. cbn [Digest]. rewrite Hof.
    destruct layersRoot_stack as [Hstack ->].
    rewrite Join_under; [reflexivity|exact Hstack|discriminate|].
    destruct Hplain as (Hslash & ?). rewrite (Split_no_sep _ _ Hslash).
    constructor; [|constructor]. repeat split; tauto.
  - intros more. unfold hexOf.
    change (algorithm ++ ":" ++ hex ++ ":" ++ more)
      with (algorithm ++ String ":" (hex ++ String ":" more)).
    rewrite Split_app, (Split_no_sep _ _ Halg), Split_app, (Split_no_sep _ _ Hhex).
    reflexivity.
Qed.

(** ** The environment of the shell *)

Lemma keepsEnv_ret {A} (a : A) : keepsEnv (ret a).
Proof. intros s. reflexivity. Qed.

Lemma keepsEnv_panic {A} msg : keepsEnv (@panic A msg).
Proof. intros s. reflexivity. Qed.

Lemma keepsEnv_bind {A B} (m : M A) (k : A -> M B) :
  keepsEnv m -> (forall a, keepsEnv (k a)) -> keepsEnv (bind m k).
Proof.
  intros Hm Hk s. unfold bind. specialize (Hm s).
  destruct (m s) as [[a|msg|code] s1]; simpl in *; try exact Hm.
  rewrite Hk. exact Hm.
Qed.

Lemma keepsEnv_syscall os c : keepsEnv (syscall os c).
Proof. intros s. reflexivity. Qed.

Lemma keepsEnv_Println ops : keepsEnv (Println ops).
Proof. intros s. reflexivity. Qed.

Lemma keepsEnv_Printf text : keepsEnv (Printf text).
Proof. intros s. reflexivity. Qed.

Lemma keepsEnv_index xs i : keepsEnv (index xs i).
Proof. unfold index. destruct (nth_error xs i); [apply keepsEnv_ret|apply keepsEnv_panic]. Qed.

Lemma keepsEnv_run_tool os label name arg : keepsEnv (run_tool os label name arg).
Proof.
  unfold run_tool. apply keepsEnv_bind; [apply keepsEnv_syscall|].
  intros r. destruct (err r); apply keepsEnv_ret.
Qed.

Ltac keepsEnv_step :=
  lazymatch goal with
  | |- keepsEnv (ret _) => apply keepsEnv_ret
  | |- keepsEnv (panic _) => apply keepsEnv_panic
  | |- keepsEnv (index _ _) => apply keepsEnv_index
  | |- keepsEnv (Println _) => apply keepsEnv_Println
  | |- keepsEnv (Printf _) => apply keepsEnv_Printf
  | |- keepsEnv (syscall _ _) => apply keepsEnv_syscall
  | |- keepsEnv (run_tool _ _ _ _) => apply keepsEnv_run_tool
  | |- keepsEnv (bind _ _) => apply keepsEnv_bind; [|intros]
  | |- keepsEnv (match ?x with _ => _ end) => destruct x
  end.

Ltac keepsEnv_auto := repeat keepsEnv_step.

Lemma prepareDirs_loop_keepsEnv os dirs : keepsEnv (prepareDirs_loop os dirs).
Proof. induction dirs as [|d rest IH]; cbn [prepareDirs_loop]; keepsEnv_auto. exact IH. Qed.

Lemma setLayers_loop_keepsEnv layers n acc : keepsEnv (setLayers_loop layers n acc).
Proof.
  revert acc. induction n as [|i IH]; intros acc; cbn [setLayers_loop]; keepsEnv_auto. apply IH.
Qed.

Lemma applyEntry_environ envVars s :
  environ (fold_left applyEntry envVars s) = applyEnv envVars (environ s).
Proof.
  unfold applyEnv. revert s. induction envVars as [|e rest IH]; intros s; simpl; [reflexivity|].
  rewrite IH. reflexivity.
Qed.

(** The loop of [setEnv] returns no error only when it has applied every
    entry. *)
Lemma setEnv_loop_None envVars s s' :
  setEnv_loop envVars s = (Return None, s') ->
  forallb applicable envVars = true /\ s' = fold_left applyEntry envVars s.
Proof.
  revert s. induction envVars as [|e rest IH]; intros s Hrun.
  - simpl in Hrun. injection Hrun as <-. auto.
  - destruct (applicable e) eqn:Happ.
    + rewrite (setEnv_loop_step e rest s Happ) in Hrun. apply IH in Hrun.
      destruct Hrun as [Hall ->]. simpl. rewrite Happ. auto.
    + exfalso. unfold applicable in Happ. cbn [setEnv_loop] in Hrun.
      destruct (strings.ContainsByte e "=") eqn:Hsep.
      * unfold envKey, envValue in Happ.
        destruct (SplitN2_with_sep _ _ Hsep) as (k & v & Hs & _). rewrite Hs in *.
        cbn [length Nat.eqb negb index nth_error nth andb] in *.
        unfold bind, ret, os_Setenv in Hrun. rewrite Happ in Hrun. discriminate Hrun.
      * rewrite (SplitN2_no_sep _ _ Hsep) in Hrun. discriminate Hrun.
Qed.

Section ShellEnvironment.

Variable os : World.
Variable decodeConfig : string -> error + Config.
Variable decodeManifest : string -> error + Manifest.
Variables configPath manifestPath baseDir volumeDir : string.

Local Abbreviation action :=
  (stageAction os decodeConfig decodeManifest configPath manifestPath baseDir volumeDir).
Local Abbreviation succeed :=
  (stagesSucceed os decodeConfig decodeManifest configPath manifestPath baseDir volumeDir).

Lemma stage_keepsEnv (st : Stage) : st <> SetEnv -> keepsEnv (action st).
Proof.
  intros Hst. destruct st; cbn [stageAction]; try contradiction.
  - unfold mountRecPrivate. keepsEnv_auto.
  - unfold setLayers, loadManifest, mountOverlayFS, prepareDirs, mountTmpfs. keepsEnv_auto.
    + apply prepareDirs_loop_keepsEnv.
    + apply setLayers_loop_keepsEnv.
  - unfold mountBaseFs, base_mount. keepsEnv_auto.
  - unfold mountVolume. keepsEnv_auto.
  - unfold chroot. keepsEnv_auto.
Qed.

(** X18: when all six stages return without an error, the environment the
    shell is started in is the one [childProcess] began with, with the
    entries of the configuration [setEnv] read (right after the remount of
    the root) applied in their order: every entry was applied, and no stage
    but [setEnv] touched the environment. *)
Theorem shell_environment s s6 :
  succeed allStages s s6 ->
  exists s1 content envVars,
    action RPrivate s = (Return None, s1)
    /\ os (trace s1) (Open configPath) = {| output := content; err := None |}
    /\ decodeConfig content = inr {| config := {| Env := envVars |} |}
    /\ forallb applicable envVars = true
    /\ environ s6 = applyEnv envVars (environ s).
Proof.
  unfold allStages. cbn [stagesSucceed]. 
  intros (s1 & H1 & s2 & H2 & s3 & H3 & s4 & H4 & s5 & H5 & s6' & H6 & ->).
  assert (Hkeep : forall st a b, st <> SetEnv -> action st a = (Return None, b) ->
                          environ b = environ a).
  { intros st a b Hst Hrun. pose proof (stage_keepsEnv st Hst a) as Hk.
    rewrite Hrun in Hk. exact Hk. }
  rewrite (Hkeep Chroot s5 s6' ltac:(discriminate) H6),
    (Hkeep Volume s4 s5 ltac:(discriminate) H5),
    (Hkeep BaseFs s3 s4 ltac:(discriminate) H4),
    (Hkeep SetLayers s2 s3 ltac:(discriminate) H3).
  rewrite <- (Hkeep RPrivate s s1 ltac:(discriminate) H1).
  cbn [stageAction] in H2. clear -H1 H2.
  destruct (os (trace s1) (Open configPath)) as [content [e|]] eqn:Hopen.
  { unfold setEnv, loadConfig, bind, syscall in H2. rewrite Hopen in H2. discriminate H2. }
  destruct (decodeConfig content) as [e|[[envVars]]] eqn:Hdec.
  { unfold setEnv, loadConfig, bind, syscall in H2. rewrite Hopen in H2.
    cbn [err output] in H2. rewrite Hdec in H2. discriminate H2. }
  rewrite (setEnv_loaded os decodeConfig configPath s1 content envVars Hopen Hdec) in H2.
  apply setEnv_loop_None in H2. destruct H2 as [Hall ->].
  exists s1, content, envVars. split; [exact H1|]. split; [exact Hopen|]. split; [exact Hdec|].
  split; [exact Hall|]. rewrite applyEntry_environ. reflexivity.
Qed.

End ShellEnvironment.

Example Dir_examples :
  map filepath_Dir ["/a/b/c.tar"; "a"; "/a"; ""; "a/b/"; "/"] = ["/a/b"; "."; "/"; "."; "a/b"; "/"].
Proof. reflexivity. Qed.

Example path_Join_examples :
  map path.Join [["a"; "b"]; [""; "b"]; ["a"; ""; "b"]; [""; ""]; ["/a/"; "../b"]; []]
  = ["a/b"; "b"; "a/b"; ""; "/b"; ""]
  /\ map filepath.Join [["a"; "b"]; [""; "b"]; ["a"; ""; "b"]; [""; ""]; ["/a/"; "../b"]; []]
     = ["a/b"; "b"; "a/b"; ""; "/b"; ""].
Proof. split; reflexivity. Qed.

(** ** [path.Join] and [filepath.Join] agree *)

Lemma string_app_nil_r (s : string) : s ++ "" = s.
Proof. induction s as [|c s IH]; simpl; [reflexivity|]. rewrite IH. reflexivity. Qed.

Lemma string_app_nonempty (a b : string) : a <> "" -> a ++ b <> "".
Proof. destruct a; [contradiction|discriminate]. Qed.

Lemma strings_Join_tail e rest : strings.Join (e :: rest) "/" = e ++ tailText rest.
Proof.
  revert e. induction rest as [|e2 rest IH]; intros e.
  - simpl. rewrite string_app_nil_r. reflexivity.
  - change (strings.Join (e :: e2 :: rest) "/") with (e ++ "/" ++ strings.Join (e2 :: rest) "/").
    rewrite IH. reflexivity.
Qed.

Lemma join_loop_tail buf rest :
  buf <> "" -> path.join_loop buf rest = buf ++ tailText rest.
Proof.
  revert buf. induction rest as [|e rest IH]; intros buf Hbuf; simpl.
  - rewrite string_app_nil_r. reflexivity.
  - destruct (String.eqb_spec buf ""); [contradiction|]. cbn [negb orb].
    rewrite IH by (apply string_app_nonempty, string_app_nonempty; assumption).
    repeat rewrite append_assoc. reflexivity.
Qed.

Lemma size_from n elem :
  (n <= fold_left (fun size e => size + String.length e) elem n)%nat.
Proof.
  revert n. induction elem as [|e rest IH]; intros n; simpl; [lia|].
  specialize (IH (n + String.length e)%nat). lia.
Qed.

(** The two joins are the same function. *)
Lemma path_Join_filepath (elem : list string) : path.Join elem = filepath.Join elem.
Proof.
  unfold path.Join. induction elem as [|e rest IH]; [reflexivity|].
  cbn [fold_left path.join_loop filepath.Join].
  destruct (String.eqb_spec e "") as [->|He].
  - cbn [String.length Nat.add negb orb String.eqb]. exact IH.
  - cbn [String.eqb negb orb append].
    assert (Hsize : (fold_left (fun size e0 => size + String.length e0) rest
                       (0 + String.length e) =? 0)%nat = false).
    { apply Nat.eqb_neq. pose proof (size_from (0 + String.length e) rest).
      destruct e; [contradiction|]. simpl in *. lia. }
    rewrite Hsize, (join_loop_tail e rest He), strings_Join_tail. reflexivity.
Qed.

(** ** Paths of plain elements under a base directory *)

Lemma baseStack_clean base : cleanStack (baseRooted base) (baseStack base).
Proof.
  unfold baseStack. destruct (String.eqb_spec base "") as [->|Hb].
  - apply cs_dots; [constructor|discriminate].
  - apply clean_fold_keeps; [apply Split_pieces|]. apply cs_dots; [constructor|reflexivity].
Qed.

Lemma plain_pieces elems :
  Forall plainElem elems ->
  Forall (fun piece => strings.ContainsByte piece "/" = false) elems.
Proof. intros H. eapply Forall_impl; [|exact H]. intros e (He & _). exact He. Qed.

Lemma is_rooted_app (a b : string) :
  a <> "" -> filepath.is_rooted (a ++ b) = filepath.is_rooted a.
Proof. destruct a; [contradiction|reflexivity]. Qed.

Lemma plain_head_not_rooted e rest :
  plainElem e -> filepath.is_rooted (strings.Join (e :: rest) "/") = false.
Proof.
  intros (Hs & Hne & _). rewrite strings_Join_tail, is_rooted_app by exact Hne.
  destruct e as [|c e]; [contradiction|]. simpl in *.
  apply orb_false_iff in Hs. tauto.
Qed.

(** Plain elements joined to a base directory are kept as they are, on top
    of what [Clean] makes of the base directory. *)
Lemma Join_base_plain base elems :
  elems <> [] -> Forall plainElem elems ->
  filepath.Join (base :: elems) = render (baseRooted base) (rev elems ++ baseStack base)%list.
Proof.
  intros Hne Hplain. destruct elems as [|e es]; [contradiction|].
  assert (Hkept : forall stack : list string, (rev (e :: es) ++ stack)%list <> []).
  { intros stack Habs. apply app_eq_nil in Habs. destruct Habs as [Habs _].
    apply (f_equal (@rev string)) in Habs. rewrite rev_involutive in Habs. discriminate. }
  cbn [filepath.Join]. unfold baseStack, baseRooted.
  destruct (String.eqb_spec base "") as [->|Hb].
  - assert (He : e <> "") by (inversion Hplain as [|? ? (_ & H & _) _]; exact H).
    destruct (String.eqb_spec e ""); [contradiction|].
    assert (Hpath : strings.Join (e :: es) "/" <> "").
    { rewrite strings_Join_tail. apply string_app_nonempty. exact He. }
    destruct (Clean_stack _ Hpath) as [_ Hclean]. revert Hclean.
    rewrite plain_head_not_rooted by (inversion Hplain; assumption).
    change "/" with (String "/" "") at 1 2.
    rewrite Split_Join by (try discriminate; apply plain_pieces; exact Hplain).
    rewrite (clean_fold_plain _ _ _ Hplain). intros Hclean.
    rewrite app_nil_r in *. apply Hclean. specialize (Hkept []). rewrite app_nil_r in Hkept.
    exact Hkept.
  - assert (Hjoin : strings.Join (base :: e :: es) "/"
                    = base ++ String "/" (strings.Join (e :: es) "/")) by reflexivity.
    rewrite Hjoin.
    assert (Hpath : base ++ String "/" (strings.Join (e :: es) "/") <> "")
      by (apply string_app_nonempty; exact Hb).
    destruct (Clean_stack _ Hpath) as [_ Hclean]. revert Hclean.
    rewrite is_rooted_app by exact Hb. rewrite Split_app.
    change "/" with (String "/" "") at 2 4.
    rewrite Split_Join by (try discriminate; apply plain_pieces; exact Hplain).
    rewrite fold_left_app, (clean_fold_plain _ _ _ Hplain). intros Hclean.
    apply Hclean. apply Hkept.
Qed.

Lemma dirPrefix_app (a name : string) :
  strings.ContainsByte name "/" = false ->
  dirPrefix (a ++ String "/" name) = a ++ "/".
Proof.
  intros Hname. induction a as [|c a IH]; simpl.
  - rewrite Hname. reflexivity.
  - rewrite ContainsByte_app. simpl. rewrite orb_true_r, IH. reflexivity.
Qed.

Lemma render_push rooted stack name :
  stack <> [] ->
  render rooted (name :: stack) = render rooted stack ++ String "/" name.
Proof.
  intros Hne. unfold render. cbn [rev]. rewrite Join_app.
  - rewrite append_assoc. reflexivity.
  - intros Hr. apply (f_equal (@rev string)) in Hr. rewrite rev_involutive in Hr. contradiction.
  - discriminate.
Qed.

(** [Clean] drops a slash at the end of a cleaned path. *)
Lemma Clean_render_slash rooted stack :
  cleanStack rooted stack -> stack <> [] ->
  filepath.Clean (render rooted stack ++ "/") = render rooted stack.
Proof.
  intros Hs Hne.
  destruct (render_head _ _ Hs Hne) as (c & rest & Hp & Hc).
  set (p := render rooted stack) in *.
  assert (Hpath : p ++ "/" <> "") by (rewrite Hp; discriminate).
  assert (Hrooted : filepath.is_rooted (p ++ "/") = rooted) by (rewrite Hp; exact Hc).
  assert (Hrev : strings.Split (strings.Join (rev stack) "/") "/" = rev stack).
  { apply Split_Join.
    - intros Hr. apply (f_equal (@rev string)) in Hr. rewrite rev_involutive in Hr.
      contradiction.
    - apply Forall_rev. eapply Forall_impl; [|apply (cleanStack_pieces _ _ Hs)].
      intros e [He _]. exact He. }
  assert (Hsplit : strings.Split p "/" = ((if rooted then [""] else []) ++ rev stack)%list).
  { unfold p, render. destruct rooted.
    - change ("/" ++ strings.Join (rev stack) "/")
        with ("" ++ String "/" (strings.Join (rev stack) "/")).
      rewrite Split_app, Hrev. reflexivity.
    - exact Hrev. }
  destruct (Clean_stack _ Hpath) as [_ Hclean]. revert Hclean.
  rewrite Hrooted. change (p ++ "/") with (p ++ String "/" "").
  rewrite Split_app, Hsplit, fold_left_app, fold_left_app.
  assert (Hskip : fold_left (filepath.clean_step rooted) (if rooted then [""] else []) [] = [])
    by (destruct rooted; reflexivity).
  rewrite Hskip, (clean_fold_stack _ _ Hs). cbn [strings.Split fold_left].
  change (filepath.clean_step rooted stack "") with stack.
  intros Hclean. apply Hclean. exact Hne.
Qed.

(** The directory of a file directly under a directory is that directory. *)
Lemma Dir_Join_plain base dirs name :
  dirs <> [] -> Forall plainElem dirs -> plainElem name ->
  filepath_Dir (filepath.Join (base :: dirs ++ [name])%list) = filepath.Join (base :: dirs).
Proof.
  intros Hne Hdirs Hname.
  rewrite (Join_base_plain base (dirs ++ [name])%list).
  2:{ intros Habs. apply app_eq_nil in Habs. destruct Habs as [_ Habs]. discriminate. }
  2:{ apply Forall_app. split; [exact Hdirs|]. constructor; [exact Hname|constructor]. }
  rewrite (Join_base_plain base dirs Hne Hdirs).
  rewrite rev_app_distr. cbn [rev app].
  assert (Hstack : (rev dirs ++ baseStack base)%list <> []).
  { intros Habs. apply app_eq_nil in Habs. destruct Habs as [Habs _].
    apply (f_equal (@rev string)) in Habs. rewrite rev_involutive in Habs. contradiction. }
  rewrite render_push by exact Hstack.
  unfold filepath_Dir. rewrite dirPrefix_app by (destruct Hname as (H & _); exact H).
  apply Clean_render_slash; [|exact Hstack].
  assert (Hgen : forall elems stack, Forall plainElem elems -> cleanStack (baseRooted base) stack ->
                                cleanStack (baseRooted base) (elems ++ stack)%list).
  { induction 1 as [|x xs Hx _ IH]; intros Hst; [exact Hst|].
    cbn [app]. apply cs_plain; [exact Hx|]. apply IH. exact Hst. }
  apply Hgen; [apply Forall_rev; exact Hdirs|apply baseStack_clean].
Qed.

(** ** The converter *)

Module docker2fs_facts.

Import docker2fs.
Local Open Scope conv_scope.

Lemma runs_done P : runs P (ret None).
Proof.
  intros tr. exists None, []. rewrite app_nil_r. split; [reflexivity|].
  split; [constructor|]. unfold stopsAtFirstError. simpl.
  repeat split; auto. discriminate.
Qed.

Lemma stops_failed ev e0 e :
  err (reply ev) = Some e0 -> Cause e = Cause e0 -> stopsAtFirstError [ev] (Some e).
Proof.
  intros Herr Hcause. unfold stopsAtFirstError. cbn [removelast].
  split; [constructor|]. split.
  - split; [discriminate|]. intros Hans. apply Forall_inv in Hans.
    unfold answered in Hans. congruence.
  - intros e' [= <-]. exists [], ev, e0. auto.
Qed.

Lemma stops_step ev evs result :
  answered ev -> stopsAtFirstError evs result -> stopsAtFirstError (ev :: evs) result.
Proof.
  intros Hans (Hrm & Hiff & Herr). unfold stopsAtFirstError. split; [|split].
  - destruct evs as [|e1 evs']; [constructor|].
    change (removelast (ev :: e1 :: evs')) with (ev :: removelast (e1 :: evs')).
    constructor; assumption.
  - rewrite Hiff. split.
    + intros Hall. constructor; assumption.
    + intros Hall. apply Forall_inv_tail in Hall. exact Hall.
  - intros e He. destruct (Herr e He) as (before & ev' & e0 & -> & He0 & Hcause).
    exists (ev :: before), ev', e0. auto.
Qed.

Lemma stops_app evs1 evs2 result :
  Forall answered evs1 -> stopsAtFirstError evs2 result ->
  stopsAtFirstError (evs1 ++ evs2) result.
Proof.
  intros H1 H2. induction H1 as [|ev evs1 Hev _ IH]; [exact H2|].
  cbn [app]. apply stops_step; assumption.
Qed.

(** One call, then the rest when it is answered without an error. *)
Lemma runs_ask os (P : Call -> Prop) c (wrap : error -> Reply -> error)
      (rest : Reply -> C (option error)) :
  P c ->
  (forall e r, Cause (wrap e r) = Cause e) ->
  (forall r, runs P (rest r)) ->
  runs P (r <- ask os c ;;
          match err r with
          | Some e => ret (Some (wrap e r))
          | None => rest r
          end).
Proof.
  intros Hc Hwrap Hrest tr. unfold bind, ask.
  set (r := os tr c). destruct (err r) as [e|] eqn:Hr.
  - exists (Some (wrap e r)), [{| call := c; reply := r |}]. split; [reflexivity|].
    split; [repeat constructor; exact Hc|]. eapply stops_failed; eauto.
  - destruct (Hrest r (tr ++ [{| call := c; reply := r |}])%list)
      as (result & evs & Hrun & HP & Hstop).
    exists result, ({| call := c; reply := r |} :: evs). split.
    + rewrite Hrun, <- app_assoc. reflexivity.
    + split; [constructor; [exact Hc|exact HP]|]. apply stops_step; assumption.
Qed.

(** One piece, then the rest when the piece returns no error. *)
Lemma runs_then (P : Call -> Prop) (m : C (option error)) (wrap : error -> error)
      (rest : C (option error)) :
  (forall e, Cause (wrap e) = Cause e) ->
  runs P m -> runs P rest ->
  runs P (e <- m ;;
          match e with
          | Some e' => ret (Some (wrap e'))
          | None => rest
          end).
Proof.
  intros Hwrap Hm Hrest tr. unfold bind.
  destruct (Hm tr) as (result & evs & Hrun & HP & Hstop). rewrite Hrun.
  destruct result as [e|].
  - exists (Some (wrap e)), evs. split; [reflexivity|]. split; [exact HP|].
    destruct Hstop as (Hrm & Hiff & Herr). split; [exact Hrm|]. split.
    + split; [discriminate|]. intros Hall. apply Hiff in Hall. discriminate.
    + intros e' [= <-]. destruct (Herr e eq_refl) as (before & ev & e0 & -> & He0 & Hc).
      exists before, ev, e0. rewrite Hwrap. auto.
  - destruct (Hrest (tr ++ evs)%list) as (result & evs2 & Hrun2 & HP2 & Hstop2).
    exists result, (evs ++ evs2)%list. split.
    + rewrite Hrun2, <- app_assoc. reflexivity.
    + split; [apply Forall_app; auto|]. apply stops_app; [|exact Hstop2].
      destruct Hstop as (_ & Hiff & _). apply Hiff. reflexivity.
Qed.

Lemma runs_weaken (P Q : Call -> Prop) m :
  (forall c, P c -> Q c) -> runs P m -> runs Q m.
Proof.
  intros HPQ Hm tr. destruct (Hm tr) as (result & evs & Hrun & HP & Hstop).
  exists result, evs. split; [exact Hrun|]. split; [|exact Hstop].
  eapply Forall_impl; [|exact HP]. intros ev. apply HPQ.
Qed.

Lemma runs_ext (P : Call -> Prop) (m m' : C (option error)) :
  (forall tr, m tr = m' tr) -> runs P m -> runs P m'.
Proof. intros Heq Hm tr. rewrite <- Heq. apply Hm. Qed.

Lemma bind_same (m : C (option error)) tr :
  bind m (fun e => match e with Some e' => ret (Some e') | None => ret None end) tr = m tr.
Proof. unfold bind. destruct (m tr) as [[e|] tr']; reflexivity. Qed.

Lemma createManifest_runs os config image : runs descriptorCall (createManifest os config image).
Proof.
  unfold createManifest.
  apply (runs_ask os descriptorCall _ (fun e _ => Wrap e "get image manifest"));
    [exact I|reflexivity|intros manifest].
  apply (runs_ask os descriptorCall _ (fun e _ => Wrap e "create manifest file"));
    [exact I|reflexivity|intros file].
  apply (runs_ask os descriptorCall _ (fun e _ => Wrap e "write manifest file"));
    [exact I|reflexivity|intros w]. apply runs_done.
Qed.

Lemma createConfig_runs os config image : runs descriptorCall (createConfig os config image).
Proof.
  unfold createConfig.
  apply (runs_ask os descriptorCall _ (fun e _ => Wrap e "get image config"));
    [exact I|reflexivity|intros configFile].
  apply (runs_ask os descriptorCall _ (fun e _ => Wrap e "create config file"));
    [exact I|reflexivity|intros file].
  apply (runs_ask os descriptorCall _ (fun e _ => Wrap e "write config file"));
    [exact I|reflexivity|intros w]. apply runs_done.
Qed.

(** [convert] with [createImage] written out. *)
Lemma convert_unfolded os config tr :
  convert os config tr
  = (ref <- ask os (ParseReference (Source config)) ;;
     match err ref with
     | Some e => ret (Some (Wrap e "parse source reference"))
     | None =>
         image <- ask os (RemoteImage (handle ref)) ;;
         match err image with
         | Some e => ret (Some (Wrap e "fetch source image"))
         | None =>
             e <- createManifest os config {| Ref := handle ref; Img := handle image |} ;;
             match e with
             | Some e' => ret (Some e')
             | None =>
                 e2 <- createConfig os config {| Ref := handle ref; Img := handle image |} ;;
                 match e2 with
                 | Some e' => ret (Some e')
                 | None => ret None
                 end
             end
         end
     end) tr.
Proof.
  unfold convert, createImage, bind, ask, ret.
  destruct (err (os tr (ParseReference (Source config)))); [reflexivity|].
  match goal with |- context [err (os ?t (RemoteImage ?h))] =>
    destruct (err (os t (RemoteImage h))) end; reflexivity.
Qed.

(** X11: in every run, [convert] only parses the reference, fetches the image
    and reads and writes the two descriptors: it never asks for the layers,
    creates a directory or runs [tar].  It stops at the first call that
    fails, and the error it returns has that call's error as its cause. *)
Theorem convert_only_descriptors os config : runs descriptorCall (convert os config).
Proof.
  eapply runs_ext; [intros tr; symmetry; apply convert_unfolded|].
  apply (runs_ask os descriptorCall _ (fun e _ => Wrap e "parse source reference"));
    [exact I|reflexivity|intros ref].
  apply (runs_ask os descriptorCall _ (fun e _ => Wrap e "fetch source image"));
    [exact I|reflexivity|intros image].
  apply (runs_then descriptorCall _ (fun e => e)); [reflexivity|apply createManifest_runs|].
  eapply runs_ext; [intros tr; symmetry; apply bind_same|]. apply createConfig_runs.
Qed.

Lemma extractLayer_runs os config layer : runs anyCall (extractLayer os config layer).
Proof.
  unfold extractLayer.
  apply (runs_ask os anyCall _ (fun e _ => e)); [exact I|reflexivity|intros d]. cbv zeta.
  apply (runs_ask os anyCall _
           (fun e _ => Wrap e ("create layer directory " ++ Hash_String (hash d))));
    [exact I|reflexivity|intros mk].
  apply (runs_ask os anyCall _ (fun e _ => Wrap e ("extract layer " ++ Hash_String (hash d))));
    [exact I|reflexivity|intros run]. apply runs_done.
Qed.

Lemma pullLayer_runs os config layer : runs anyCall (pullLayer os config layer).
Proof.
  unfold pullLayer.
  apply (runs_ask os anyCall _ (fun e _ => e)); [exact I|reflexivity|intros d].
  apply (runs_ask os anyCall _
           (fun e _ => Wrap e ("layer " ++ Hash_String (hash d) ++ " Compressed")));
    [exact I|reflexivity|intros reader].
  apply (runs_ask os anyCall _
           (fun e _ => Wrap e ("decompress layer " ++ Hash_String (hash d))));
    [exact I|reflexivity|intros ds]. cbv zeta.
  apply (runs_ask os anyCall _
           (fun e _ => Wrap e ("create layer directory " ++ Hash_String (hash d))));
    [exact I|reflexivity|intros mk].
  apply (runs_ask os anyCall _
           (fun e _ => Wrap e ("write layer " ++ Hash_String (hash d) ++ " create file")));
    [exact I|reflexivity|intros file].
  apply (runs_ask os anyCall _
           (fun e _ => Wrap e ("write layer " ++ Hash_String (hash d) ++ " to file")));
    [exact I|reflexivity|intros cp]. apply runs_done.
Qed.

Lemma pullLayers_loop_runs os config layers : runs anyCall (pullLayers_loop os config layers).
Proof.
  induction layers as [|layer rest IH]; cbn [pullLayers_loop]; [apply runs_done|].
  apply (runs_then anyCall _ (fun e => Wrap e "pull image layer"));
    [reflexivity|apply pullLayer_runs|].
  apply (runs_then anyCall _ (fun e => Wrap e "extract image layer"));
    [reflexivity|apply extractLayer_runs|exact IH].
Qed.

(** X13: [pullLayers] stops at the first call that fails, in whatever layer:
    every call before it was answered without an error, no call follows it,
    and the error returned has its error as its cause. *)
Theorem pullLayers_stops_at_first_error os config image :
  runs anyCall (pullLayers os config image).
Proof.
  unfold pullLayers.
  apply (runs_ask os anyCall _ (fun e _ => Wrap e "get image layers"));
    [exact I|reflexivity|intros layers]. apply pullLayers_loop_runs.
Qed.

(** A run of [convert] without an error, call by call. *)
Lemma convert_success os config tr tr' :
  convert os config tr = (None, tr') ->
  exists ref image manifest mfile mwrite configFile cfile cwrite,
    let manifestPath := path.Join [Path config; "manifest.json"] in
    let configPath := path.Join [Path config; "config.json"] in
    tr' = (tr ++ [ event (ParseReference (Source config)) ref;
                   event (RemoteImage (handle ref)) image;
                   event (RawManifest (handle image)) manifest;
                   event (Create manifestPath) mfile;
                   event (Write manifestPath (data manifest)) mwrite;
                   event (RawConfigFile (handle image)) configFile;
                   event (Create configPath) cfile;
                   event (Write configPath (data configFile)) cwrite ])%list
    /\ Forall answered
         [ event (ParseReference (Source config)) ref;
           event (RemoteImage (handle ref)) image;
           event (RawManifest (handle image)) manifest;
           event (Create manifestPath) mfile;
           event (Write manifestPath (data manifest)) mwrite;
           event (RawConfigFile (handle image)) configFile;
           event (Create configPath) cfile;
           event (Write configPath (data configFile)) cwrite ].
Proof.
  intros Hrun. rewrite convert_unfolded in Hrun.
  unfold createManifest, createConfig, bind, ask, ret in Hrun. cbv zeta in Hrun.
  repeat match type of Hrun with
         | context [match err ?r with _ => _ end] => destruct (err r) eqn:?
         end; try discriminate Hrun.
  injection Hrun as <-. cbn [Img] in *.
  repeat match goal with
         | H : err (os ?t ?c) = None |- _ =>
             let r := fresh "r" in set (r := os t c) in *; clearbody r
         end.
  do 8 eexists. cbv zeta. unfold event. split.
  - repeat rewrite <- app_assoc. reflexivity.
  - unfold answered. repeat constructor; cbn [reply]; assumption.
Qed.

(** X12: when [convert] returns no error, it has made exactly eight calls
    (the deferred closing of the two files apart):
    the reference parsed, the image fetched, and for the manifest and then
    the configuration the bytes read from the image, the file created under
    the configured path, and those same bytes written to it. *)
Theorem convert_writes_descriptors os config tr tr' :
  convert os config tr = (None, tr') ->
  exists ref image manifest mfile mwrite configFile cfile cwrite,
    let manifestPath := path.Join [Path config; "manifest.json"] in
    let configPath := path.Join [Path config; "config.json"] in
    tr' = (tr ++ [ event (ParseReference (Source config)) ref;
                   event (RemoteImage (handle ref)) image;
                   event (RawManifest (handle image)) manifest;
                   event (Create manifestPath) mfile;
                   event (Write manifestPath (data manifest)) mwrite;
                   event (RawConfigFile (handle image)) configFile;
                   event (Create configPath) cfile;
                   event (Write configPath (data configFile)) cwrite ])%list
    /\ Forall answered
         [ event (ParseReference (Source config)) ref;
           event (RemoteImage (handle ref)) image;
           event (RawManifest (handle image)) manifest;
           event (Create manifestPath) mfile;
           event (Write manifestPath (data manifest)) mwrite;
           event (RawConfigFile (handle image)) configFile;
           event (Create configPath) cfile;
           event (Write configPath (data configFile)) cwrite ].
Proof. apply convert_success. Qed.

Lemma fileOps_app tr1 tr2 : fileOps (tr1 ++ tr2) = (fileOps tr1 ++ fileOps tr2)%list.
Proof. unfold fileOps. rewrite map_app, filter_app. reflexivity. Qed.

Section Stable.

Variable os : World.

(** The digest of a layer, when the library always answers the same. *)
Variable digestOf : Handle -> Hash.
Hypothesis digest_stable : forall tr layer, hash (os tr (LayerDigest layer)) = digestOf layer.

Lemma pullLayer_ops config layer tr tr' :
  pullLayer os config layer tr = (None, tr') ->
  fileOps tr'
  = (fileOps tr
       ++ [Create (path.Join [Path config; "layers"; (Hex (digestOf layer) ++ ".tar")%string])])%list.
Proof.
  intros Hrun. unfold pullLayer, bind, ask, ret in Hrun. cbv zeta in Hrun.
  rewrite digest_stable in Hrun.
  repeat match type of Hrun with
         | context [match err ?r with _ => _ end] => destruct (err r) eqn:?
         end; try discriminate Hrun.
  injection Hrun as <-. repeat rewrite fileOps_app. repeat rewrite <- app_assoc. reflexivity.
Qed.

Lemma extractLayer_ops config layer tr tr' :
  extractLayer os config layer tr = (None, tr') ->
  fileOps tr'
  = (fileOps tr
       ++ [RunTar ["-xf"; path.Join [Path config; "layers"; (Hex (digestOf layer) ++ ".tar")%string];
                   "-C"; path.Join [Path config; "layers"; Hex (digestOf layer)]]])%list.
Proof.
  intros Hrun. unfold extractLayer, bind, ask, ret in Hrun. cbv zeta in Hrun.
  rewrite digest_stable in Hrun.
  repeat match type of Hrun with
         | context [match err ?r with _ => _ end] => destruct (err r) eqn:?
         end; try discriminate Hrun.
  injection Hrun as <-. repeat rewrite fileOps_app. repeat rewrite <- app_assoc. reflexivity.
Qed.

Lemma pullLayers_loop_ops config layers tr tr' :
  pullLayers_loop os config layers tr = (None, tr') ->
  fileOps tr' = (fileOps tr ++ flat_map (fun layer => layerOps config (digestOf layer)) layers)%list.
Proof.
  revert tr. induction layers as [|layer rest IH]; intros tr Hrun; cbn [pullLayers_loop] in Hrun.
  - injection Hrun as <-. simpl. rewrite app_nil_r. reflexivity.
  - unfold bind in Hrun.
    destruct (pullLayer os config layer tr) as [[e|] tr1] eqn:Hpull; [discriminate Hrun|].
    destruct (extractLayer os config layer tr1) as [[e|] tr2] eqn:Hext; [discriminate Hrun|].
    rewrite (IH _ Hrun), (extractLayer_ops _ _ _ _ Hext), (pullLayer_ops _ _ _ _ Hpull).
    cbn [flat_map]. unfold layerOps. repeat rewrite <- app_assoc. reflexivity.
Qed.

(** X14: when [pullLayers] returns no error and the library gives each layer
    one digest, the files created and the archives unpacked are, layer by
    layer in the order of the image: the archive of the layer created, then
    that same archive unpacked into the directory named after the same
    digest. *)
Theorem pullLayers_pulls_then_unpacks config image tr tr' :
  pullLayers os config image tr = (None, tr') ->
  fileOps tr'
  = (fileOps tr
       ++ flat_map (fun layer => layerOps config (digestOf layer))
                   (handles (os tr (ImgLayers (Img image)))))%list.
Proof.
  intros Hrun. unfold pullLayers, bind, ask in Hrun.
  destruct (err (os tr (ImgLayers (Img image)))); [discriminate Hrun|].
  rewrite (pullLayers_loop_ops _ _ _ _ Hrun), fileOps_app. cbn [fileOps map filter call isFileOp].
  rewrite app_nil_r. reflexivity.
Qed.

End Stable.

End docker2fs_facts.

(** ** Where the converter and the launcher meet *)

(** The directory of a layer with a plain hex name. *)
Lemma layers_dir_of_hex hex :
  plainElem hex -> filepath.Join [layersRoot; hex] = "/tmp/proxy_pool/layers/" ++ hex.
Proof.
  intros Hplain. rewrite (Join_base_plain layersRoot [hex]).
  - reflexivity.
  - discriminate.
  - constructor; [exact Hplain|constructor].
Qed.

Lemma string_length_app (a b : string) :
  String.length (a ++ b) = (String.length a + String.length b)%nat.
Proof. induction a as [|c a IH]; simpl; [reflexivity|]. rewrite IH. reflexivity. Qed.

Lemma plain_with_suffix name suffix :
  strings.ContainsByte name "/" = false ->
  strings.ContainsByte suffix "/" = false ->
  (3 <= String.length suffix)%nat ->
  plainElem (name ++ suffix).
Proof.
  intros Hn Hs Hlen. unfold plainElem. rewrite ContainsByte_app, Hn, Hs.
  split; [reflexivity|].
  assert (Hl : (3 <= String.length (name ++ suffix))%nat)
    by (rewrite string_length_app; lia).
  repeat split; intros Heq; rewrite Heq in Hl; simpl in Hl; lia.
Qed.

Module docker2fs_paths.

Import docker2fs.

(** X15: for a digest [algorithm:hex] with a plain hex name, the directory the
    converter unpacks the layer into, under the path its [main] configures,
    is the directory the launcher mounts for the layer with that digest. *)
Theorem unpack_dir_is_layer_path (h : Hash) mediaType size :
  strings.ContainsByte (Algorithm h) ":" = false ->
  strings.ContainsByte (Hex h) ":" = false ->
  plainElem (Hex h) ->
  path.Join [Path mainConfig; "layers"; Hex h]
  = layerPath {| Digest := Hash_String h; MediaType := mediaType; Size := size |}.
Proof.
  intros Halg Hhex Hplain. rewrite path_Join_filepath.
  rewrite (Join_base_plain (Path mainConfig) ["layers"; Hex h]).
  2:{ discriminate. }
  2:{ constructor; [repeat split; discriminate|]. constructor; [exact Hplain|constructor]. }
  unfold layerPath, hexOf, Hash_String. cbn [Digest].
  change (Algorithm h ++ ":" ++ Hex h) with (Algorithm h ++ String ":" (Hex h)).
  rewrite (Split_two _ _ _ Halg Hhex). cbn [nth].
  rewrite (layers_dir_of_hex _ Hplain). reflexivity.
Qed.

(** X16: whatever the configured path, the directory [pullLayer] creates for
    the archive of a layer with a hex name without a slash is the directory
    [layers] under that path, and the directory the layer is unpacked into,
    when the name is plain, lies in it too. *)
Theorem archive_dir_is_layers_dir (config : ConverterConfig) (h : Hash) :
  strings.ContainsByte (Hex h) "/" = false ->
  filepath_Dir (path.Join [Path config; "layers"; Hex h ++ ".tar"])
  = path.Join [Path config; "layers"]
  /\ (plainElem (Hex h) ->
      filepath_Dir (path.Join [Path config; "layers"; Hex h])
      = path.Join [Path config; "layers"]).
Proof.
  intros Hslash. repeat rewrite path_Join_filepath.
  assert (Hlayers : Forall plainElem ["layers"])
    by (constructor; [repeat split; discriminate|constructor]).
  split.
  - apply (Dir_Join_plain (Path config) ["layers"] (Hex h ++ ".tar"));
      [discriminate|exact Hlayers|].
    apply plain_with_suffix; [exact Hslash|reflexivity|simpl; lia].
  - intros Hplain.
    apply (Dir_Join_plain (Path config) ["layers"] (Hex h));
      [discriminate|exact Hlayers|exact Hplain].
Qed.

End docker2fs_paths.

(** The one process the parent starts. *)
Lemma main_parent_starts w decodeConfig decodeManifest (Args : list string) s ev :
  nth_error Args 1 <> Some childSentinel ->
  Forall (fun e => isRun (call e) = false) (trace s) ->
  In ev (trace (snd (main w decodeConfig decodeManifest Args s))) ->
  isRun (call ev) = true ->
  call ev = Run (namespaceCmd "/tmp/proxy_pool/config.json" "/tmp/proxy_pool/manifest.json"
                   "/tmp/proxy_pool/overlay" "/tmp/proxy_pool/volume").
Proof.
  intros Hparent Hs Hin Hrun. unfold main in Hin.
  assert (Hguard : (1 <? length Args)%nat && String.eqb (nth 1 Args "") "child" = false).
  { destruct Args as [|a0 [|a1 rest]]; try reflexivity.
    simpl in *. destruct (String.eqb_spec a1 "child") as [->|]; [|reflexivity].
    exfalso. apply Hparent. reflexivity. }
  rewrite Hguard in Hin. unfold runInNamespace, syscall, Printf, bind, ret in Hin.
  rewrite Forall_forall in Hs.
  repeat match type of Hin with
         | context [match err ?x with _ => _ end] => destruct (err x)
         end; cbn [snd trace log] in Hin;
    repeat (apply in_app_or in Hin; destruct Hin as [Hin|Hin]);
    try (rewrite (Hs ev Hin) in Hrun; discriminate Hrun);
    repeat (destruct Hin as [Hin|Hin]; [subst ev; try discriminate Hrun; try reflexivity|]);
    try contradiction.
Qed.

(** X17: the two files the converter's [main] configuration makes [convert]
    create are the files the launcher's parent tells its child to read: the
    manifest, then the configuration. *)
Theorem descriptors_where_child_reads (registry : docker2fs.World) tr tr'
        os decodeConfig decodeManifest (args : list string) s ev cmd :
  docker2fs.convert registry docker2fs.mainConfig tr = (None, tr') ->
  nth_error args 1 <> Some childSentinel ->
  Forall (fun e => isRun (call e) = false) (trace s) ->
  In ev (trace (snd (main os decodeConfig decodeManifest args s))) ->
  call ev = Run cmd ->
  docker2fs.fileOps tr'
  = (docker2fs.fileOps tr
       ++ [docker2fs.Create (nth 3 (Args cmd) ""); docker2fs.Create (nth 2 (Args cmd) "")])%list.
Proof.
  intros Hconv Hparent Hs Hin Hcall.
  assert (Hrun : isRun (call ev) = true) by (rewrite Hcall; reflexivity).
  pose proof (main_parent_starts os decodeConfig decodeManifest args s ev Hparent Hs Hin Hrun)
    as Hcmd.
  rewrite Hcall in Hcmd. injection Hcmd as ->.
  destruct (docker2fs_facts.convert_success registry docker2fs.mainConfig tr tr' Hconv)
    as (r1 & r2 & r3 & r4 & r5 & r6 & r7 & r8 & -> & _).
  rewrite docker2fs_facts.fileOps_app. reflexivity.
Qed.

(** ** Concrete runs of the further properties *)

Lemma shell_needs_all_stages_witness :
  call {| call := Run shellCmd; reply := done |}
  = Run {| Path := "/bin/sh"; Args := ["/bin/sh"];
           cmd_Stdin := Some Stdin; cmd_Stdout := Some Stdout; cmd_Stderr := Some Stderr;
           Cloneflags := 0 |}
  /\ exists s6 tail,
      stagesSucceed okWorld demoDecodeConfig demoDecodeManifest
        "/c/config.json" "/c/manifest.json" "/c/overlay" "/c/volume" allStages start s6
      /\ trace (snd (demoChild start))
         = (trace s6 ++ {| call := Run shellCmd; reply := done |} :: tail)%list
      /\ Forall (fun e => isPrintCall (call e) = true) tail.
Proof.
  apply (shell_needs_all_stages okWorld demoDecodeConfig demoDecodeManifest
           "/c/config.json" "/c/manifest.json" "/c/overlay" "/c/volume" start
           {| call := Run shellCmd; reply := done |}).
  - constructor.
  - vm_compute. repeat (try (left; reflexivity); right).
  - reflexivity.
Defined.

Lemma setEnv_config_unreadable_witness :
  setEnv noFileWorld demoDecodeConfig "/c/config.json" start
  = (Return (Some (Wrap (PathError "open" "/c/config.json" ENOENT) "读取 config.json 时出错")),
     {| trace := trace start
                 ++ [{| call := Open "/c/config.json";
                        reply := noFileWorld (trace start) (Open "/c/config.json") |}];
        environ := environ start |}).
Proof.
  apply (setEnv_config_unreadable noFileWorld demoDecodeConfig "/c/config.json" start).
  left. reflexivity.
Defined.

Lemma setEnv_cuts_at_first_equals_witness :
  let s' := {| trace := trace start
                        ++ [{| call := Setenv "JAVA_OPTS" "-Dmode=fast -Dk=v"; reply := done |}];
               environ := env_set (environ start) "JAVA_OPTS" "-Dmode=fast -Dk=v" |} in
  setEnv_loop (("JAVA_OPTS" ++ "=" ++ "-Dmode=fast -Dk=v") :: ["HOME=/root"]) start
  = setEnv_loop ["HOME=/root"] s'
  /\ env_get (environ s') "JAVA_OPTS" = Some "-Dmode=fast -Dk=v".
Proof.
  apply (setEnv_cuts_at_first_equals "JAVA_OPTS" "-Dmode=fast -Dk=v" ["HOME=/root"] start);
    reflexivity.
Defined.

Lemma setEnv_stops_at_refused_witness :
  setEnv_loop (["PATH=/bin"] ++ "=oops" :: ["HOME=/root"]) start
  = (Return (Some (Wrap (SyscallError "setenv" EINVAL) "设置环境变量时出错")),
     log (fold_left applyEntry ["PATH=/bin"] start) (Setenv (envKey "=oops") (envValue "=oops"))
         (failed (SyscallError "setenv" EINVAL))).
Proof.
  apply (setEnv_stops_at_refused ["PATH=/bin"] "=oops" ["HOME=/root"] start); reflexivity.
Defined.

Lemma setLayers_result_witness :
  setLayers noFileWorld demoDecodeManifest "/c/manifest.json" "/c/overlay" "/c/overlay/merged"
    start
  = (Return (Some (Wrap (PathError "open" "/c/manifest.json" ENOENT)
                        "读取 manifest.json 时出错")),
     {| trace := trace start
                 ++ [{| call := Open "/c/manifest.json";
                        reply := noFileWorld (trace start) (Open "/c/manifest.json") |}];
        environ := environ start |}).
Proof.
  apply (proj1 (setLayers_result noFileWorld demoDecodeManifest "/c/manifest.json" "/c/overlay"
                  "/c/overlay/merged" start)).
  left. reflexivity.
Defined.

Lemma layerPath_of_digest_witness :
  layerPath {| Digest := "sha256" ++ ":" ++ "0a1b"; MediaType := ""; Size := 10 |}
  = "/tmp/proxy_pool/layers/" ++ "0a1b"
  /\ forall more, hexOf ("sha256" ++ ":" ++ "0a1b" ++ ":" ++ more) = "0a1b".
Proof.
  apply (layerPath_of_digest "sha256" "0a1b" "" 10); try reflexivity.
  repeat split; discriminate.
Defined.

Lemma shell_environment_witness :
  exists s1 content envVars,
    stageAction okWorld demoDecodeConfig demoDecodeManifest
      "/c/config.json" "/c/manifest.json" "/c/overlay" "/c/volume" RPrivate start
    = (Return None, s1)
    /\ okWorld (trace s1) (Open "/c/config.json") = {| output := content; err := None |}
    /\ demoDecodeConfig content = inr {| config := {| Env := envVars |} |}
    /\ forallb applicable envVars = true
    /\ environ demoStagesDone = applyEnv envVars (environ start).
Proof.
  apply (shell_environment okWorld demoDecodeConfig demoDecodeManifest
           "/c/config.json" "/c/manifest.json" "/c/overlay" "/c/volume" start demoStagesDone).
  cbn [allStages stagesSucceed].
  do 6 (eexists; split; [vm_compute; reflexivity|]). vm_compute. reflexivity.
Defined.

Example demo_shell_environment :
  environ demoStagesDone = [("PATH", "/bin:/usr/bin"); ("HOME", "/root")].
Proof. vm_compute. reflexivity. Qed.

Lemma convert_writes_descriptors_witness :
  exists ref image manifest mfile mwrite configFile cfile cwrite,
    let manifestPath := path.Join [docker2fs.Path demoConverterConfig; "manifest.json"] in
    let configPath := path.Join [docker2fs.Path demoConverterConfig; "config.json"] in
    snd (docker2fs.convert demoRegistry demoConverterConfig [])
    = ([] ++ [ docker2fs.event (docker2fs.ParseReference (docker2fs.Source demoConverterConfig)) ref;
               docker2fs.event (docker2fs.RemoteImage (docker2fs.handle ref)) image;
               docker2fs.event (docker2fs.RawManifest (docker2fs.handle image)) manifest;
               docker2fs.event (docker2fs.Create manifestPath) mfile;
               docker2fs.event (docker2fs.Write manifestPath (docker2fs.data manifest)) mwrite;
               docker2fs.event (docker2fs.RawConfigFile (docker2fs.handle image)) configFile;
               docker2fs.event (docker2fs.Create configPath) cfile;
               docker2fs.event (docker2fs.Write configPath (docker2fs.data configFile)) cwrite ])%list
    /\ Forall docker2fs.answered
         [ docker2fs.event (docker2fs.ParseReference (docker2fs.Source demoConverterConfig)) ref;
           docker2fs.event (docker2fs.RemoteImage (docker2fs.handle ref)) image;
           docker2fs.event (docker2fs.RawManifest (docker2fs.handle image)) manifest;
           docker2fs.event (docker2fs.Create manifestPath) mfile;
           docker2fs.event (docker2fs.Write manifestPath (docker2fs.data manifest)) mwrite;
           docker2fs.event (docker2fs.RawConfigFile (docker2fs.handle image)) configFile;
           docker2fs.event (docker2fs.Create configPath) cfile;
           docker2fs.event (docker2fs.Write configPath (docker2fs.data configFile)) cwrite ].
Proof.
  apply (docker2fs_facts.convert_writes_descriptors demoRegistry demoConverterConfig []
           (snd (docker2fs.convert demoRegistry demoConverterConfig []))).
  vm_compute. reflexivity.
Defined.

Example demo_convert_files :
  map docker2fs.call (snd (docker2fs.convert demoRegistry demoConverterConfig []))
  = [ docker2fs.ParseReference "registry.example/app";
      docker2fs.RemoteImage 1;
      docker2fs.RawManifest 2;
      docker2fs.Create "/c/manifest.json";
      docker2fs.Write "/c/manifest.json" "manifest bytes";
      docker2fs.RawConfigFile 2;
      docker2fs.Create "/c/config.json";
      docker2fs.Write "/c/config.json" "config bytes" ].
Proof. vm_compute. reflexivity. Qed.

Lemma pullLayers_pulls_then_unpacks_witness :
  docker2fs.fileOps
    (snd (docker2fs.pullLayers demoRegistry demoConverterConfig
            {| docker2fs.Ref := 1; docker2fs.Img := 2 |} []))
  = (docker2fs.fileOps []
       ++ flat_map (fun layer => docker2fs.layerOps demoConverterConfig (demoDigest layer))
                   (docker2fs.handles (demoRegistry [] (docker2fs.ImgLayers 2))))%list.
Proof.
  apply (docker2fs_facts.pullLayers_pulls_then_unpacks demoRegistry demoDigest
           (fun _ _ => eq_refl) demoConverterConfig {| docker2fs.Ref := 1; docker2fs.Img := 2 |} []
           (snd (docker2fs.pullLayers demoRegistry demoConverterConfig
                   {| docker2fs.Ref := 1; docker2fs.Img := 2 |} []))).
  vm_compute. reflexivity.
Defined.

Example demo_pullLayers_files :
  docker2fs.fileOps
    (snd (docker2fs.pullLayers demoRegistry demoConverterConfig
            {| docker2fs.Ref := 1; docker2fs.Img := 2 |} []))
  = [ docker2fs.Create "/c/layers/0a1b.tar";
      docker2fs.RunTar ["-xf"; "/c/layers/0a1b.tar"; "-C"; "/c/layers/0a1b"];
      docker2fs.Create "/c/layers/2c3d.tar";
      docker2fs.RunTar ["-xf"; "/c/layers/2c3d.tar"; "-C"; "/c/layers/2c3d"] ].
Proof. vm_compute. reflexivity. Qed.

Lemma unpack_dir_is_layer_path_witness :
  path.Join [docker2fs.Path docker2fs.mainConfig; "layers"; docker2fs.Hex (demoDigest 10)]
  = layerPath {| Digest := docker2fs.Hash_String (demoDigest 10); MediaType := ""; Size := 10 |}.
Proof.
  apply (docker2fs_paths.unpack_dir_is_layer_path (demoDigest 10) "" 10); try reflexivity.
  repeat split; discriminate.
Defined.

Lemma archive_dir_is_layers_dir_witness :
  filepath_Dir (path.Join [docker2fs.Path demoConverterConfig; "layers";
                           docker2fs.Hex (demoDigest 10) ++ ".tar"])
  = path.Join [docker2fs.Path demoConverterConfig; "layers"]
  /\ (plainElem (docker2fs.Hex (demoDigest 10)) ->
      filepath_Dir (path.Join [docker2fs.Path demoConverterConfig; "layers";
                               docker2fs.Hex (demoDigest 10)])
      = path.Join [docker2fs.Path demoConverterConfig; "layers"]).
Proof.
  apply (docker2fs_paths.archive_dir_is_layers_dir demoConverterConfig (demoDigest 10)).
  reflexivity.
Defined.

Lemma descriptors_where_child_reads_witness :
  docker2fs.fileOps (snd (docker2fs.convert demoRegistry docker2fs.mainConfig []))
  = (docker2fs.fileOps []
       ++ [ docker2fs.Create "/tmp/proxy_pool/manifest.json";
            docker2fs.Create "/tmp/proxy_pool/config.json" ])%list.
Proof.
  apply (descriptors_where_child_reads demoRegistry []
           (snd (docker2fs.convert demoRegistry docker2fs.mainConfig []))
           okWorld demoDecodeConfig demoDecodeManifest ["/proc/self/exe"] start
           {| call := Run (namespaceCmd "/tmp/proxy_pool/config.json"
                             "/tmp/proxy_pool/manifest.json" "/tmp/proxy_pool/overlay"
                             "/tmp/proxy_pool/volume");
              reply := done |}
           (namespaceCmd "/tmp/proxy_pool/config.json" "/tmp/proxy_pool/manifest.json"
              "/tmp/proxy_pool/overlay" "/tmp/proxy_pool/volume")).
  - vm_compute. reflexivity.
  - discriminate.
  - constructor.
  - vm_compute. right. left. reflexivity.
  - reflexivity.
Defined.
